(** * Engine API (package catalyst) of oasys-op-geth: a shallow embedding

    The development follows [eth/catalyst/api.go].  The [ConsensusAPI]
    object is a record that every operation takes and returns; the node
    behind it ([eth.Ethereum]: chain database, downloader, miner) is an
    abstract type [W] with the operations the engine API calls on it.
    Logging is left out, and so are the mutexes: every operation is
    modelled as it runs once it holds its lock. *)

From Stdlib Require Import ZArith String Sorted.
From stdpp Require Import gmap strings list fin_maps.

Local Open Scope Z_scope.

(** ** Machine integers *)

(** [uint64] arithmetic wraps modulo 2^64. *)
Definition wrap64 (z : Z) : Z := z mod 2 ^ 64.

(** Go's [int] is a signed 64-bit integer here; [n++] wraps. *)
Definition intIncr (n : Z) : Z := (n + 1 + 2 ^ 63) mod 2 ^ 64 - 2 ^ 63.

(** [Sign], [BitLen] and [Uint64] of [big.Int]. *)
Definition Sign (x : Z) : Z := Z.sgn x.
Definition BitLen (x : Z) : Z := if Z.abs x =? 0 then 0 else Z.log2 (Z.abs x) + 1.
Definition Uint64 (x : Z) : Z := Z.land (Z.abs x) (Z.ones 64).

(** ** Hashes, headers, blocks *)

(** [common.Hash] is a 32-byte array; it is kept as the number it spells.
    [common.Hash{}] is [0]. *)
Abbreviation Hash := N (only parsing).
Definition zeroHash : Hash := 0%N.

Abbreviation bytes := (list N) (only parsing).

(** The fields of [types.Header] the engine API reads.  [Hash()] is the
    Keccak digest of the header's encoding, computed outside this package;
    the record carries it as [hHash]. *)
Record Header := mkHeader {
  hHash : Hash;
  ParentHash : Hash;
  Number : Z;
  Difficulty : Z;
  Time : Z;
  WithdrawalsHash : option Hash;
}.

#[global] Instance Header_eq_dec : EqDecision Header.
Proof. solve_decision. Defined.

(** [forks.Fork]: the forks the source names, and the rest. *)
Inductive Fork := Paris | Shanghai | Cancun | Prague | OtherFork.

#[global] Instance Fork_eq_dec : EqDecision Fork.
Proof. solve_decision. Defined.

(** The fork schedule and the OP-Stack switch of [params.ChainConfig], as
    far as the engine API consults them.  [Optimism] is a pointer in the
    source: [None] is nil. *)
Record ChainConfig := mkConfig {
  Optimism : option unit;
  IsOptimism : bool;
  IsHolocene : Z -> bool;
  IsIsthmus : Z -> bool;
  LatestFork : Z -> Fork;
}.

(** ** Constants of the package *)

Definition invalidBlockHitEviction : Z := 128.
Definition invalidTipsetsCap : nat := 512.

(** ** Errors and statuses *)

Inductive EngineAPIError :=
  | GenericServerError | UnknownPayload | InvalidForkChoiceState
  | InvalidPayloadAttributes | TooLargeRequest | InvalidParams | UnsupportedFork.

(** Values printed into a formatted message. *)
Inductive fmtArg :=
  | ArgNum (n : Z)
  | ArgBytes (b : bytes)
  | ArgText (s : string).

Inductive error :=
  | errors_New (msg : string)
  | fmt_Errorf (format : string) (args : list fmtArg)
  | Bare (e : EngineAPIError)
  | With (e : EngineAPIError) (err : error).

Inductive PayloadStatus := VALID | INVALID | SYNCING | ACCEPTED.

Record PayloadStatusV1 := mkStatus {
  Status : PayloadStatus;
  Witness : option bytes;
  LatestValidHash : option Hash;
  ValidationError : option string;
}.

Record ForkChoiceResponse := mkResponse {
  fcStatus : PayloadStatusV1;
  PayloadID : option bytes;
}.

(** Modelled from the spec: [engine.STATUS_INVALID], [engine.STATUS_SYNCING]
    and [engine.INVALID_TERMINAL_BLOCK] are declared in beacon/engine, which
    is not among the sources.  The first two carry nothing but the status;
    the last is the dedicated status for a head that walks back across the
    transition, an INVALID whose latest valid hash is the zero hash. *)
Definition STATUS_INVALID : ForkChoiceResponse :=
  mkResponse (mkStatus INVALID None None None) None.
Definition STATUS_SYNCING : ForkChoiceResponse :=
  mkResponse (mkStatus SYNCING None None None) None.
Definition INVALID_TERMINAL_BLOCK : PayloadStatusV1 :=
  mkStatus INVALID None (Some zeroHash) None.

(** Modelled from the spec: [engine.PayloadVersion], [engine.PayloadID] and
    its methods [Version] and [Is] are declared in beacon/engine, which is
    not among the sources.  The identifier is an 8-byte array that records
    the version it was built for, in its first byte; [Is] tells whether that
    version is one of those listed. *)
Abbreviation PayloadVersion := N (only parsing).
Definition PayloadV1 : PayloadVersion := 1%N.
Definition PayloadV2 : PayloadVersion := 2%N.
Definition PayloadV3 : PayloadVersion := 3%N.

Definition Version (id : bytes) : PayloadVersion := nth 0 id 0%N.

Definition Is (id : bytes) (versions : list PayloadVersion) : bool :=
  existsb (N.eqb (Version id)) versions.

Inductive SyncMode := FullSync | SnapSync.

#[global] Instance SyncMode_eq_dec : EqDecision SyncMode.
Proof. solve_decision. Defined.


(** ** Wire data *)

(** [engine.ForkchoiceStateV1] *)
Record ForkchoiceStateV1 := mkForkchoice {
  HeadBlockHash : Hash;
  SafeBlockHash : Hash;
  FinalizedBlockHash : Hash;
}.

(** ** The bounded caches *)

(** Modelled from the spec: [headerQueue] and [payloadQueue] are declared in
    eth/catalyst/queue.go, which is not among the sources.  A cache is a
    bounded map: [put] inserts or overwrites and drops the oldest entry once
    the capacity is exceeded, [get] returns the value or nothing and leaves
    the order alone, [has] tells whether the key is there.  The newest entry
    is at the front of the list. *)
Section Queue.
Context {K V : Type} `{EqDecision K}.
Variable capacity : nat.

Definition queue_put (k : K) (v : V) (q : list (K * V)) : list (K * V) :=
  take capacity ((k, v) :: filter (fun kv => kv.1 <> k) q).

Fixpoint queue_get (k : K) (q : list (K * V)) : option V :=
  match q with
  | [] => None
  | (k', v) :: q' => if decide (k' = k) then Some v else queue_get k q'
  end.

Definition queue_has (k : K) (q : list (K * V)) : bool :=
  bool_decide (is_Some (queue_get k q)).
End Queue.

(** ** The engine API over an abstract node *)

Section Catalyst.

(** [types.Transaction], [types.Withdrawal], [miner.Payload],
    [engine.ExecutionPayloadEnvelope], the witness returned by a block
    insertion and [stateless.Witness]. *)
Context {Tx Wd Payload Envelope Proofs StatelessWitness : Type}.

Record Block := mkBlock {
  bHeader : Header;
  bTransactions : list Tx;
  bWithdrawals : option (list Wd);
}.

Definition Block_Hash (b : Block) : Hash := hHash (bHeader b).
Definition Block_ParentHash (b : Block) : Hash := ParentHash (bHeader b).
Definition NumberU64 (b : Block) : Z := Uint64 (Number (bHeader b)).
Definition Block_Time (b : Block) : Z := Time (bHeader b).
Definition Block_Difficulty (b : Block) : Z := Difficulty (bHeader b).

(** [engine.ExecutableData], the fields that steer the engine API. *)
Record ExecutableData := mkExecutableData {
  edParentHash : Hash;
  edNumber : Z;
  edTimestamp : Z;
  edExtraData : bytes;
  edBlockHash : Hash;
  edTransactions : list bytes;
  edWithdrawals : option (list Wd);
  edBlobGasUsed : option Z;
  edExcessBlobGas : option Z;
  edWithdrawalsRoot : option Hash;
}.

(** [engine.PayloadAttributes] *)
Record PayloadAttributes := mkAttributes {
  paTimestamp : Z;
  paRandom : Hash;
  paSuggestedFeeRecipient : N;
  paWithdrawals : option (list Wd);
  paBeaconRoot : option Hash;
  paTransactions : list bytes;
  paNoTxPool : bool;
  paGasLimit : option Z;
  paEIP1559Params : bytes;
}.

(** [miner.BuildPayloadArgs] *)
Record BuildPayloadArgs := mkBuildArgs {
  baParent : Hash;
  baTimestamp : Z;
  baFeeRecipient : N;
  baRandom : Hash;
  baWithdrawals : option (list Wd);
  baBeaconRoot : option Hash;
  baNoTxPool : bool;
  baTransactions : list Tx;
  baGasLimit : option Z;
  baVersion : PayloadVersion;
  baEIP1559Params : bytes;
}.

(** [engine.ExecutionPayloadBody] *)
Record ExecutionPayloadBody := mkBody {
  TransactionData : list bytes;
  Withdrawals : option (list Wd);
}.

(** [engine.StatelessPayloadStatusV1] *)
Record StatelessPayloadStatusV1 := mkStateless {
  slStatus : PayloadStatus;
  slStateRoot : Hash;
  slReceiptsRoot : Hash;
  slValidationError : option string;
}.

(** What the engine API calls outside its package.  [W] is the node
    ([eth.Ethereum]) with its chain database, downloader, sync handler and
    miner; an operation that writes returns the node it leaves behind. *)
Class Node (W : Type) := {
  (* api.eth.BlockChain() *)
  Config : ChainConfig;
  GetBlockByHash : W -> Hash -> option Block;
  GetBlockByNumber : W -> Z -> option Block;
  GetBlock : W -> Hash -> Z -> option Block;
  GetHeader : W -> Hash -> Z -> option Header;
  CurrentBlock : W -> Header;
  HasBlockAndState : W -> Hash -> Z -> bool;
  SetCanonical : W -> Block -> W * (Hash * option error);
  SetFinalized : W -> Header -> W;
  SetSafe : W -> Header -> W;
  InsertBlockWithoutSetHead : W -> Block -> bool -> W * (option Proofs * option error);
  (* rawdb.ReadCanonicalHash(api.eth.ChainDb(), number) *)
  ReadCanonicalHash : W -> Z -> Hash;
  (* api.eth *)
  GetSyncMode : W -> SyncMode;
  SetSynced : W -> W;
  (* api.eth.Downloader() *)
  BeaconSync : W -> SyncMode -> Header -> option Header -> W * option error;
  BeaconExtend : W -> SyncMode -> Header -> W * option error;
  (* api.eth.Miner() *)
  BuildPayload : W -> BuildPayloadArgs -> bool -> W * (Payload + error);
  Id : BuildPayloadArgs -> bytes;
  Resolve : Payload -> bool -> Envelope;
  ExecutionPayload : Envelope -> ExecutableData;
  (* package engine *)
  ExecutableDataToBlock :
    ExecutableData -> option (list Hash) -> option Hash -> option (list bytes) ->
    ChainConfig -> Block + error;
  ExecutableDataToBlockNoHash :
    ExecutableData -> option (list Hash) -> option Hash -> option (list bytes) ->
    ChainConfig -> Block + error;
  (* package eip1559 *)
  ValidateHoloceneExtraData : bytes -> option error;
  ValidateHolocene1559Params : bytes -> option error;
  (* packages types, rlp, core *)
  UnmarshalBinary : bytes -> Tx + error;
  MarshalBinary : Tx -> bytes;
  EncodeToBytes : Proofs -> bytes;
  DecodeBytes : bytes -> StatelessWitness + error;
  ExecuteStateless : ChainConfig -> Block -> StatelessWitness -> (Hash * Hash) + error;
  (* err.Error(): the text of an error *)
  Error : error -> string;
  (* the Go runtime: the key a [range] over the tipset map yields first *)
  rangeFirst : gmap Hash Header -> option Hash;
  (* the capacities of the two caches, constants of queue.go *)
  maxTrackedPayloads : nat;
  maxTrackedHeaders : nat;
}.

Context {W : Type} {node : Node W}.

(** Go leaves the iteration order of a map unspecified: a [range] over a
    map that is not empty may start at any of its keys. *)
Definition rangeFirst_spec : Prop :=
  forall m : gmap Hash Header,
    match rangeFirst m with
    | Some k => is_Some (m !! k)
    | None => m = ∅
    end.

(** ** The API object *)

Record ConsensusAPI := mkAPI {
  eth : W;
  remoteBlocks : list (Hash * Header);
  localBlocks : list (bytes * Payload);
  invalidBlocksHits : gmap Hash Z;
  invalidTipsets : gmap Hash Header;
  lastTransitionUpdate : Z;
  lastForkchoiceUpdate : Z;
  lastNewPayloadUpdate : Z;
}.

Definition set_eth (api : ConsensusAPI) (w : W) : ConsensusAPI :=
  mkAPI w (remoteBlocks api) (localBlocks api) (invalidBlocksHits api)
    (invalidTipsets api) (lastTransitionUpdate api) (lastForkchoiceUpdate api)
    (lastNewPayloadUpdate api).

Definition set_remoteBlocks (api : ConsensusAPI) (q : list (Hash * Header)) : ConsensusAPI :=
  mkAPI (eth api) q (localBlocks api) (invalidBlocksHits api)
    (invalidTipsets api) (lastTransitionUpdate api) (lastForkchoiceUpdate api)
    (lastNewPayloadUpdate api).

Definition set_localBlocks (api : ConsensusAPI) (q : list (bytes * Payload)) : ConsensusAPI :=
  mkAPI (eth api) (remoteBlocks api) q (invalidBlocksHits api)
    (invalidTipsets api) (lastTransitionUpdate api) (lastForkchoiceUpdate api)
    (lastNewPayloadUpdate api).

Definition set_invalid (api : ConsensusAPI) (hits : gmap Hash Z)
    (tipsets : gmap Hash Header) : ConsensusAPI :=
  mkAPI (eth api) (remoteBlocks api) (localBlocks api) hits tipsets
    (lastTransitionUpdate api) (lastForkchoiceUpdate api) (lastNewPayloadUpdate api).

Definition set_lastForkchoiceUpdate (api : ConsensusAPI) (now : Z) : ConsensusAPI :=
  mkAPI (eth api) (remoteBlocks api) (localBlocks api) (invalidBlocksHits api)
    (invalidTipsets api) (lastTransitionUpdate api) now (lastNewPayloadUpdate api).

Definition set_lastNewPayloadUpdate (api : ConsensusAPI) (now : Z) : ConsensusAPI :=
  mkAPI (eth api) (remoteBlocks api) (localBlocks api) (invalidBlocksHits api)
    (invalidTipsets api) (lastTransitionUpdate api) (lastForkchoiceUpdate api) now.

(** [newConsensusAPIWithoutHeartbeat]: empty caches, empty tracker. *)
Definition newConsensusAPI (w : W) : ConsensusAPI := mkAPI w [] [] ∅ ∅ 0 0 0.

(** ** The invalid-chain tracker *)

(** Reading a missing key of a Go map yields the zero value. *)
Definition hitCount (hits : gmap Hash Z) (h : Hash) : Z := default 0 (hits !! h).

(** [setInvalidAncestor], the downloader's bad-block callback. *)
Definition setInvalidAncestor (api : ConsensusAPI) (invalid origin : Header) : ConsensusAPI :=
  set_invalid api
    (<[hHash invalid := intIncr (hitCount (invalidBlocksHits api) (hHash invalid))]>
       (invalidBlocksHits api))
    (<[hHash origin := invalid]> (invalidTipsets api)).

(** The purge of [checkInvalidAncestor]: every tipset whose bad ancestor
    hashes to [badHash] is deleted. *)
Definition purgeTipsets (badHash : Hash) (tipsets : gmap Hash Header) : gmap Hash Header :=
  filter (fun kv => hHash kv.2 <> badHash) tipsets.

(** The capacity loop of [checkInvalidAncestor]:
    [for len(m) >= invalidTipsetsCap { for key := range m { delete(m, key); break } }].
    Every turn deletes the key the range yields first; [fuel] bounds the
    number of turns, and the size of the map is always enough. *)
Fixpoint evictLoop (fuel : nat) (m : gmap Hash Header) : gmap Hash Header :=
  match fuel with
  | O => m
  | S fuel' =>
      if decide (invalidTipsetsCap <= size m)%nat then
        match rangeFirst m with
        | Some key => evictLoop fuel' (delete key m)
        | None => m
        end
      else m
  end.

Definition evictTipsets (m : gmap Hash Header) : gmap Hash Header :=
  evictLoop (size m) m.

(** [checkInvalidAncestor] *)
Definition checkInvalidAncestor (api : ConsensusAPI) (check head : Hash)
    : ConsensusAPI * option PayloadStatusV1 :=
  match invalidTipsets api !! check with
  | None => (api, None)
  | Some invalid =>
      let badHash := hHash invalid in
      let count := intIncr (hitCount (invalidBlocksHits api) badHash) in
      if invalidBlockHitEviction <=? count then
        (set_invalid api (delete badHash (invalidBlocksHits api))
           (purgeTipsets badHash (invalidTipsets api)), None)
      else
        let hits := <[badHash := count]> (invalidBlocksHits api) in
        let tipsets :=
          if decide (check <> head)
          then <[head := invalid]> (evictTipsets (invalidTipsets api))
          else invalidTipsets api in
        let lastValid :=
          match GetHeader (eth api) (ParentHash invalid)
                  (wrap64 (Uint64 (Number invalid) - 1)) with
          | Some header =>
              if negb (Sign (Difficulty header) =? 0) then zeroHash
              else ParentHash invalid
          | None => ParentHash invalid
          end in
        (set_invalid api hits tipsets,
         Some (mkStatus INVALID None (Some lastValid)
                 (Some "links to previously rejected block"%string)))
  end.

(** [invalid] *)
Definition invalid (err : error) (latestValid : option Header) : PayloadStatusV1 :=
  let currentHash :=
    match latestValid with
    | Some lv =>
        if negb (BitLen (Difficulty lv) =? 0) then Some zeroHash
        else Some (hHash lv)
    | None => None
    end in
  mkStatus INVALID None currentHash (Some (Error err)).

(** ** new-payload *)

(** [delayPayloadImport] *)
Definition delayPayloadImport (api : ConsensusAPI) (block : Block)
    : ConsensusAPI * PayloadStatusV1 :=
  match checkInvalidAncestor api (Block_ParentHash block) (Block_Hash block) with
  | (api, Some res) => (api, res)
  | (api, None) =>
      let api :=
        set_remoteBlocks api
          (queue_put maxTrackedHeaders (Block_Hash block) (bHeader block)
             (remoteBlocks api)) in
      let '(w, err) := BeaconExtend (eth api) (GetSyncMode (eth api)) (bHeader block) in
      let api := set_eth api w in
      match err with
      | None => (api, mkStatus SYNCING None None None)
      | Some _ => (api, mkStatus SYNCING None None None)
      end
  end.

(** The OP-Stack check that opens [newPayload]: extra data is validated
    from Holocene on and must be empty before it on an OP chain. *)
Definition checkExtraData (params : ExecutableData) : option error :=
  if IsHolocene Config (edTimestamp params) then
    ValidateHoloceneExtraData (edExtraData params)
  else if IsOptimism Config then
    if (0 <? length (edExtraData params))%nat
    then Some (errors_New "extraData must be empty before Holocene")
    else None
  else None.

(** [newPayload]; [now] is what [time.Now()] returns during the call. *)
Definition newPayload (api : ConsensusAPI) (params : ExecutableData)
    (versionedHashes : option (list Hash)) (beaconRoot : option Hash)
    (requests : option (list bytes)) (witness : bool) (now : Z)
    : ConsensusAPI * (PayloadStatusV1 * option error) :=
  match checkExtraData params with
  | Some err => (api, (invalid err None, None))
  | None =>
  match ExecutableDataToBlock params versionedHashes beaconRoot requests Config with
  | inr err => (api, (invalid err None, None))
  | inl block =>
  let api := set_lastNewPayloadUpdate api now in
  match GetBlockByHash (eth api) (edBlockHash params) with
  | Some known =>
      (api, (mkStatus VALID None (Some (Block_Hash known)) None, None))
  | None =>
  match checkInvalidAncestor api (Block_Hash block) (Block_Hash block) with
  | (api, Some res) => (api, (res, None))
  | (api, None) =>
  match GetBlock (eth api) (Block_ParentHash block) (wrap64 (NumberU64 block - 1)) with
  | None =>
      let '(api, res) := delayPayloadImport api block in (api, (res, None))
  | Some parent =>
  if Block_Time block <=? Block_Time parent then
    (api, (invalid (errors_New "invalid timestamp") (Some (bHeader parent)), None))
  else if negb (bool_decide (GetSyncMode (eth api) = FullSync)) then
    let '(api, res) := delayPayloadImport api block in (api, (res, None))
  else if negb (HasBlockAndState (eth api) (Block_ParentHash block)
                  (wrap64 (NumberU64 block - 1))) then
    (set_remoteBlocks api
       (queue_put maxTrackedHeaders (Block_Hash block) (bHeader block)
          (remoteBlocks api)),
     (mkStatus ACCEPTED None None None, None))
  else
    let '(w, (proofs, err)) := InsertBlockWithoutSetHead (eth api) block witness in
    let api := set_eth api w in
    match err with
    | Some err =>
        let api :=
          set_invalid api
            (<[Block_Hash block := 1]> (invalidBlocksHits api))
            (<[Block_Hash block := bHeader block]> (invalidTipsets api)) in
        (api, (invalid err (Some (bHeader parent)), None))
    | None =>
        (api, (mkStatus VALID (EncodeToBytes <$> proofs) (Some (Block_Hash block)) None,
               None))
    end
  end end end end end.

(** ** Execution requests *)

(** [convertRequests]: a nil slice stays nil. *)
Definition convertRequests (hex : option (list bytes)) : option (list bytes) :=
  match hex with
  | None => None
  | Some l => Some l
  end.

(** The loop of [validateRequests] from index [i] on; [prev] is
    [requests[i-1]], which the loop has checked already, when [i > 0]. *)
Fixpoint validateRequestsFrom (prev : option bytes) (requests : list bytes) : option error :=
  match requests with
  | [] => None
  | req :: rest =>
      if (length req <? 2)%nat then
        Some (fmt_Errorf "empty request: %v" [ArgBytes req])
      else if match prev with
              | Some p => (nth 0 req 0 <=? nth 0 p 0)%N
              | None => false
              end then
        Some (fmt_Errorf "invalid request order: %v" [ArgBytes req])
      else validateRequestsFrom (Some req) rest
  end.

(** [validateRequests]; ranging over a nil slice does nothing. *)
Definition validateRequests (requests : option (list bytes)) : option error :=
  validateRequestsFrom None (default [] requests).

(** The field-presence checks shared by the V4 entry points: the first
    failing one gives the error of the call. *)
Definition checkFieldsV4 (method : string) (params : ExecutableData)
    (versionedHashes : option (list Hash)) (beaconRoot : option Hash)
    (executionRequests : option (list bytes)) : option error :=
  if bool_decide (edWithdrawals params = None :> option (list Wd)) then
    Some (With InvalidParams (errors_New "nil withdrawals post-shanghai"))
  else if bool_decide (edExcessBlobGas params = None) then
    Some (With InvalidParams (errors_New "nil excessBlobGas post-cancun"))
  else if bool_decide (edBlobGasUsed params = None) then
    Some (With InvalidParams (errors_New "nil blobGasUsed post-cancun"))
  else if bool_decide (versionedHashes = None) then
    Some (With InvalidParams (errors_New "nil versionedHashes post-cancun"))
  else if bool_decide (beaconRoot = None) then
    Some (With InvalidParams (errors_New "nil beaconRoot post-cancun"))
  else if bool_decide (executionRequests = None) then
    Some (With InvalidParams (errors_New "nil executionRequests post-prague"))
  else if negb (bool_decide (LatestFork Config (edTimestamp params) = Prague)) then
    Some (With UnsupportedFork
            (errors_New (method ++ " must only be called for prague payloads")))
  else None.

(** [NewPayloadV4] *)
Definition NewPayloadV4 (api : ConsensusAPI) (params : ExecutableData)
    (versionedHashes : option (list Hash)) (beaconRoot : option Hash)
    (executionRequests : option (list bytes)) (now : Z)
    : ConsensusAPI * (PayloadStatusV1 * option error) :=
  match checkFieldsV4 "newPayloadV4" params versionedHashes beaconRoot executionRequests with
  | Some err => (api, (mkStatus INVALID None None None, Some err))
  | None =>
      if IsIsthmus Config (edTimestamp params)
         && bool_decide (edWithdrawalsRoot params = None) then
        (api, (mkStatus INVALID None None None,
               Some (With InvalidParams (errors_New "nil withdrawalsRoot post-isthmus"))))
      else
        let requests := convertRequests executionRequests in
        match validateRequests requests with
        | Some err =>
            (api, (mkStatus INVALID None None None, Some (With InvalidParams err)))
        | None => newPayload api params versionedHashes beaconRoot requests false now
        end
  end.

(** [NewPayloadWithWitnessV4] *)
Definition NewPayloadWithWitnessV4 (api : ConsensusAPI) (params : ExecutableData)
    (versionedHashes : option (list Hash)) (beaconRoot : option Hash)
    (executionRequests : option (list bytes)) (now : Z)
    : ConsensusAPI * (PayloadStatusV1 * option error) :=
  match checkFieldsV4 "newPayloadWithWitnessV4" params versionedHashes beaconRoot
          executionRequests with
  | Some err => (api, (mkStatus INVALID None None None, Some err))
  | None =>
      let requests := convertRequests executionRequests in
      match validateRequests requests with
      | Some err =>
          (api, (mkStatus INVALID None None None, Some (With InvalidParams err)))
      | None => newPayload api params versionedHashes beaconRoot requests true now
      end
  end.

(** ** Stateless execution *)

(** [executeStatelessPayload] *)
Definition executeStatelessPayload (api : ConsensusAPI) (params : ExecutableData)
    (versionedHashes : option (list Hash)) (beaconRoot : option Hash)
    (requests : option (list bytes)) (opaqueWitness : bytes) (now : Z)
    : ConsensusAPI * (StatelessPayloadStatusV1 * option error) :=
  match ExecutableDataToBlockNoHash params versionedHashes beaconRoot requests Config with
  | inr err => (api, (mkStateless INVALID zeroHash zeroHash (Some (Error err)), None))
  | inl block =>
      match DecodeBytes opaqueWitness with
      | inr err => (api, (mkStateless INVALID zeroHash zeroHash (Some (Error err)), None))
      | inl witness =>
          let api := set_lastNewPayloadUpdate api now in
          match ExecuteStateless Config block witness with
          | inr err =>
              (api, (mkStateless INVALID zeroHash zeroHash (Some (Error err)), None))
          | inl (stateRoot, receiptRoot) =>
              (api, (mkStateless VALID stateRoot receiptRoot None, None))
          end
      end
  end.

(** [ExecuteStatelessPayloadV4] *)
Definition ExecuteStatelessPayloadV4 (api : ConsensusAPI) (params : ExecutableData)
    (versionedHashes : option (list Hash)) (beaconRoot : option Hash)
    (executionRequests : option (list bytes)) (opaqueWitness : bytes) (now : Z)
    : ConsensusAPI * (StatelessPayloadStatusV1 * option error) :=
  match checkFieldsV4 "executeStatelessPayloadV4" params versionedHashes beaconRoot
          executionRequests with
  | Some err => (api, (mkStateless INVALID zeroHash zeroHash None, Some err))
  | None =>
      let requests := convertRequests executionRequests in
      executeStatelessPayload api params versionedHashes beaconRoot requests
        opaqueWitness now
  end.

(** ** get-payload *)

(** [payloadQueue.get]: the cached payload resolved to an envelope. *)
Definition payloadQueue_get (id : bytes) (full : bool) (q : list (bytes * Payload))
    : option Envelope :=
  (fun p => Resolve p full) <$> queue_get id q.

(** [getPayload] *)
Definition getPayload (api : ConsensusAPI) (payloadID : bytes) (full : bool)
    : Envelope + error :=
  match payloadQueue_get payloadID full (localBlocks api) with
  | None => inr (Bare UnknownPayload)
  | Some data => inl data
  end.

(** [GetPayloadV1] *)
Definition GetPayloadV1 (api : ConsensusAPI) (payloadID : bytes) : ExecutableData + error :=
  if negb (Is payloadID [PayloadV1]) then inr (Bare UnsupportedFork)
  else match getPayload api payloadID false with
       | inr err => inr err
       | inl data => inl (ExecutionPayload data)
       end.

(** [GetPayloadV2] *)
Definition GetPayloadV2 (api : ConsensusAPI) (payloadID : bytes) : Envelope + error :=
  if negb (Is payloadID [PayloadV1; PayloadV2]) then inr (Bare UnsupportedFork)
  else getPayload api payloadID false.

(** [GetPayloadV3] *)
Definition GetPayloadV3 (api : ConsensusAPI) (payloadID : bytes) : Envelope + error :=
  if negb (Is payloadID [PayloadV3]) then inr (Bare UnsupportedFork)
  else getPayload api payloadID false.

(** [GetPayloadV4] *)
Definition GetPayloadV4 (api : ConsensusAPI) (payloadID : bytes) : Envelope + error :=
  if negb (Is payloadID [PayloadV3]) then inr (Bare UnsupportedFork)
  else getPayload api payloadID false.

(** ** Payload bodies *)

(** [getBody]; a nil block gives a nil body. *)
Definition getBody (block : option Block) : option ExecutionPayloadBody :=
  match block with
  | None => None
  | Some block =>
      let withdrawals :=
        if bool_decide (bWithdrawals block = None)
           && negb (bool_decide (WithdrawalsHash (bHeader block) = None))
        then Some []
        else bWithdrawals block in
      Some (mkBody (MarshalBinary <$> bTransactions block) withdrawals)
  end.

(** [GetPayloadBodiesByHashV1] and [GetPayloadBodiesByHashV2] *)
Definition GetPayloadBodiesByHashV1 (api : ConsensusAPI) (hashes : list Hash)
    : list (option ExecutionPayloadBody) :=
  (fun hash => getBody (GetBlockByHash (eth api) hash)) <$> hashes.

Definition GetPayloadBodiesByHashV2 (api : ConsensusAPI) (hashes : list Hash)
    : list (option ExecutionPayloadBody) :=
  (fun hash => getBody (GetBlockByHash (eth api) hash)) <$> hashes.

(** The loop of [getBodiesByRange],
    [for i := uint64(start); i <= last; i++ { bodies = append(bodies, ...) }],
    with [fuel] turns at most; [None] when they do not suffice. *)
Fixpoint bodiesLoop (fuel : nat) (api : ConsensusAPI) (i last : Z)
    (bodies : list (option ExecutionPayloadBody))
    : option (list (option ExecutionPayloadBody)) :=
  match fuel with
  | O => None
  | S fuel' =>
      if i <=? last then
        bodiesLoop fuel' api (wrap64 (i + 1)) last
          (bodies ++ [getBody (GetBlockByNumber (eth api) i)])
      else Some bodies
  end.

(** [getBodiesByRange]; [start] and [count] are [uint64]. *)
Definition getBodiesByRange (fuel : nat) (api : ConsensusAPI) (start count : Z)
    : option (list (option ExecutionPayloadBody) + error) :=
  if (start =? 0) || (count =? 0) then
    Some (inr (With InvalidParams
                 (fmt_Errorf "invalid start or count, start: %v count: %v"
                    [ArgNum start; ArgNum count])))
  else if 1024 <? count then
    Some (inr (With TooLargeRequest
                 (fmt_Errorf "requested count too large: %v" [ArgNum count])))
  else
    let current := Uint64 (Number (CurrentBlock (eth api))) in
    let last := wrap64 (wrap64 (start + count) - 1) in
    let last := if current <? last then current else last in
    inl <$> bodiesLoop fuel api start last [].

(** [GetPayloadBodiesByRangeV1] and [GetPayloadBodiesByRangeV2] *)
Definition GetPayloadBodiesByRangeV1 (fuel : nat) (api : ConsensusAPI) (start count : Z) :=
  getBodiesByRange fuel api start count.

Definition GetPayloadBodiesByRangeV2 (fuel : nat) (api : ConsensusAPI) (start count : Z) :=
  getBodiesByRange fuel api start count.

(** ** fork-choice-update *)

(** The closure [valid] of [forkchoiceUpdated]. *)
Definition valid (update : ForkchoiceStateV1) (id : option bytes) : ForkChoiceResponse :=
  mkResponse (mkStatus VALID None (Some (HeadBlockHash update)) None) id.

(** The decoding loop over [payloadAttributes.Transactions]; [i] is the
    index of the first transaction of [otxs]. *)
Fixpoint decodeTransactions (i : Z) (otxs : list bytes) : list Tx + error :=
  match otxs with
  | [] => inl []
  | otx :: rest =>
      match UnmarshalBinary otx with
      | inr err =>
          inr (fmt_Errorf "transaction %d is not valid: %v" [ArgNum i; ArgText (Error err)])
      | inl tx =>
          match decodeTransactions (i + 1) rest with
          | inr err => inr err
          | inl txs => inl (tx :: txs)
          end
      end
  end.

(** The OP-Stack checks on the attributes; gives the EIP-1559 parameters
    the build is to use. *)
Definition checkAttributes (pa : PayloadAttributes) : bytes + error :=
  if bool_decide (Optimism Config = None) then inl []
  else if bool_decide (paGasLimit pa = None) then
    inr (With InvalidPayloadAttributes (errors_New "gasLimit parameter is required"))
  else if IsHolocene Config (paTimestamp pa) then
    match ValidateHolocene1559Params (paEIP1559Params pa) with
    | Some err => inr (With InvalidPayloadAttributes err)
    | None => inl (paEIP1559Params pa)
    end
  else if negb (length (paEIP1559Params pa) =? 0)%nat then
    inr (With InvalidPayloadAttributes
           (errors_New "eip155Params not supported prior to Holocene upgrade"))
  else inl [].

(** The last part of [forkchoiceUpdated]: payload generation, when
    attributes came with the update. *)
Definition fcuBuildPayload (api : ConsensusAPI) (update : ForkchoiceStateV1)
    (payloadAttributes : option PayloadAttributes) (payloadVersion : PayloadVersion)
    (payloadWitness : bool) : ConsensusAPI * (ForkChoiceResponse * option error) :=
  match payloadAttributes with
  | None => (api, (valid update None, None))
  | Some pa =>
      match checkAttributes pa with
      | inr err => (api, (STATUS_INVALID, Some err))
      | inl eip1559Params =>
          match decodeTransactions 0 (paTransactions pa) with
          | inr err => (api, (STATUS_INVALID, Some err))
          | inl transactions =>
              let args :=
                mkBuildArgs (HeadBlockHash update) (paTimestamp pa)
                  (paSuggestedFeeRecipient pa) (paRandom pa) (paWithdrawals pa)
                  (paBeaconRoot pa) (paNoTxPool pa) transactions (paGasLimit pa)
                  payloadVersion eip1559Params in
              let id := Id args in
              if queue_has id (localBlocks api) then (api, (valid update (Some id), None))
              else
                let '(w, res) := BuildPayload (eth api) args payloadWitness in
                let api := set_eth api w in
                match res with
                | inr err =>
                    (api, (valid update None, Some (With InvalidPayloadAttributes err)))
                | inl payload =>
                    (set_localBlocks api
                       (queue_put maxTrackedPayloads id payload (localBlocks api)),
                     (valid update (Some id), None))
                end
          end
      end
  end.

(** The safe pointer, then payload generation. *)
Definition fcuSafe (api : ConsensusAPI) (update : ForkchoiceStateV1)
    (payloadAttributes : option PayloadAttributes) (payloadVersion : PayloadVersion)
    (payloadWitness : bool) : ConsensusAPI * (ForkChoiceResponse * option error) :=
  if negb (bool_decide (SafeBlockHash update = zeroHash)) then
    match GetBlockByHash (eth api) (SafeBlockHash update) with
    | None =>
        (api, (STATUS_INVALID,
               Some (With InvalidForkChoiceState
                       (errors_New "safe block not available in database"))))
    | Some safeBlock =>
        if negb (bool_decide (ReadCanonicalHash (eth api) (NumberU64 safeBlock)
                              = SafeBlockHash update)) then
          (api, (STATUS_INVALID,
                 Some (With InvalidForkChoiceState
                         (errors_New "safe block not in canonical chain"))))
        else
          fcuBuildPayload (set_eth api (SetSafe (eth api) (bHeader safeBlock)))
            update payloadAttributes payloadVersion payloadWitness
    end
  else fcuBuildPayload api update payloadAttributes payloadVersion payloadWitness.

(** The finalized pointer, then the rest. *)
Definition fcuFinalized (api : ConsensusAPI) (update : ForkchoiceStateV1)
    (payloadAttributes : option PayloadAttributes) (payloadVersion : PayloadVersion)
    (payloadWitness : bool) : ConsensusAPI * (ForkChoiceResponse * option error) :=
  if negb (bool_decide (FinalizedBlockHash update = zeroHash)) then
    match GetBlockByHash (eth api) (FinalizedBlockHash update) with
    | None =>
        (api, (STATUS_INVALID,
               Some (With InvalidForkChoiceState
                       (errors_New "final block not available in database"))))
    | Some finalBlock =>
        if negb (bool_decide (ReadCanonicalHash (eth api) (NumberU64 finalBlock)
                              = FinalizedBlockHash update)) then
          (api, (STATUS_INVALID,
                 Some (With InvalidForkChoiceState
                         (errors_New "final block not in canonical chain"))))
        else
          fcuSafe (set_eth api (SetFinalized (eth api) (bHeader finalBlock)))
            update payloadAttributes payloadVersion payloadWitness
    end
  else fcuSafe api update payloadAttributes payloadVersion payloadWitness.

(** From [api.eth.SetSynced()] to the end of [forkchoiceUpdated]. *)
Definition fcuSynced (api : ConsensusAPI) (update : ForkchoiceStateV1)
    (payloadAttributes : option PayloadAttributes) (payloadVersion : PayloadVersion)
    (payloadWitness : bool) : ConsensusAPI * (ForkChoiceResponse * option error) :=
  fcuFinalized (set_eth api (SetSynced (eth api)))
    update payloadAttributes payloadVersion payloadWitness.

(** The head is not known locally: reject it, or sync to it. *)
Definition fcuUnknownHead (api : ConsensusAPI) (update : ForkchoiceStateV1)
    : ConsensusAPI * (ForkChoiceResponse * option error) :=
  match checkInvalidAncestor api (HeadBlockHash update) (HeadBlockHash update) with
  | (api, Some res) => (api, (mkResponse res None, None))
  | (api, None) =>
      match queue_get (HeadBlockHash update) (remoteBlocks api) with
      | None => (api, (STATUS_SYNCING, None))
      | Some header =>
          let finalized := queue_get (FinalizedBlockHash update) (remoteBlocks api) in
          let '(w, err) :=
            BeaconSync (eth api) (GetSyncMode (eth api)) header finalized in
          (set_eth api w, (STATUS_SYNCING, err))
      end
  end.

(** The sanity check on a known head: the update must not push the chain
    back to before the merge.  [None] lets the update through. *)
Definition checkTerminalBlock (api : ConsensusAPI) (block : Block)
    : option (ForkChoiceResponse * option error) :=
  if (0 <? BitLen (Block_Difficulty block)) && (0 <? NumberU64 block) then
    match GetHeader (eth api) (Block_ParentHash block) (wrap64 (NumberU64 block - 1)) with
    | None =>
        Some (STATUS_INVALID, Some (errors_New "parent unavailable for difficulty check"))
    | Some ph =>
        if (Sign (Difficulty ph) =? 0) && (0 <? Sign (Block_Difficulty block)) then
          Some (mkResponse INVALID_TERMINAL_BLOCK None, None)
        else None
    end
  else None.

(** [forkchoiceUpdated]; [now] is what [time.Now()] returns during the call. *)
Definition forkchoiceUpdated (api : ConsensusAPI) (update : ForkchoiceStateV1)
    (payloadAttributes : option PayloadAttributes) (payloadVersion : PayloadVersion)
    (payloadWitness : bool) (now : Z)
    : ConsensusAPI * (ForkChoiceResponse * option error) :=
  if bool_decide (HeadBlockHash update = zeroHash) then (api, (STATUS_INVALID, None))
  else
    let api := set_lastForkchoiceUpdate api now in
    match GetBlockByHash (eth api) (HeadBlockHash update) with
    | None => fcuUnknownHead api update
    | Some block =>
        match checkTerminalBlock api block with
        | Some res => (api, res)
        | None =>
            if negb (bool_decide (ReadCanonicalHash (eth api) (NumberU64 block)
                                  = HeadBlockHash update)) then
              let '(w, (latestValid, err)) := SetCanonical (eth api) block in
              let api := set_eth api w in
              match err with
              | Some err =>
                  (api, (mkResponse (mkStatus INVALID None (Some latestValid) None) None,
                         Some err))
              | None =>
                  fcuSynced api update payloadAttributes payloadVersion payloadWitness
              end
            else if bool_decide (hHash (CurrentBlock (eth api)) = HeadBlockHash update) then
              fcuSynced api update payloadAttributes payloadVersion payloadWitness
            else if bool_decide (Optimism Config = None) then
              (api, (valid update None, None))
            else
              fcuSynced api update payloadAttributes payloadVersion payloadWitness
        end
    end.

(** ** Notions the properties are stated with *)

(** Everything of the API object but the two tracker maps. *)
Definition sameOutsideTracker (api api' : ConsensusAPI) : Prop :=
  eth api' = eth api /\
  remoteBlocks api' = remoteBlocks api /\
  localBlocks api' = localBlocks api /\
  lastTransitionUpdate api' = lastTransitionUpdate api /\
  lastForkchoiceUpdate api' = lastForkchoiceUpdate api /\
  lastNewPayloadUpdate api' = lastNewPayloadUpdate api.

(** The latest valid hash a rejection cites: the bad ancestor's parent, or
    the zero hash when that parent is known with a non-zero difficulty. *)
Definition lastValidOf (w : W) (bad : Header) : Hash :=
  match GetHeader w (ParentHash bad) (wrap64 (Uint64 (Number bad) - 1)) with
  | Some parent => if Difficulty parent =? 0 then ParentHash bad else zeroHash
  | None => ParentHash bad
  end.

(** The payload decodes to [block]: it passes the extra-data check that
    stands in front of the decoder, and the decoder returns [block]. *)
Definition decodesTo (params : ExecutableData) (versionedHashes : option (list Hash))
    (beaconRoot : option Hash) (requests : option (list bytes)) (block : Block) : Prop :=
  checkExtraData params = None /\
  ExecutableDataToBlock params versionedHashes beaconRoot requests Config = inl block.

(** The body the range call returns for block number [i]. *)
Definition bodyAt (api : ConsensusAPI) (i : Z) : option ExecutionPayloadBody :=
  getBody (GetBlockByNumber (eth api) i).

(** Every request has at least two bytes, and the first bytes of
    consecutive requests increase strictly. *)
Definition requestsWellFormed (requests : list bytes) : Prop :=
  (forall req : bytes, req ∈ requests -> (2 <= length req)%nat) /\
  (forall (i : nat) (r1 r2 : bytes),
     requests !! i = Some r1 -> requests !! S i = Some r2 ->
     (nth 0 r1 0 < nth 0 r2 0)%N).

(** The field-presence checks of the V4 entry points pass. *)
Definition fieldsPresentV4 (params : ExecutableData)
    (versionedHashes : option (list Hash)) (beaconRoot : option Hash)
    (executionRequests : option (list bytes)) : Prop :=
  edWithdrawals params <> None /\
  edExcessBlobGas params <> None /\
  edBlobGasUsed params <> None /\
  versionedHashes <> None /\
  beaconRoot <> None /\
  executionRequests <> None /\
  LatestFork Config (edTimestamp params) = Prague.

End Catalyst.

(** * A small node

    A concrete node to run the engine API on.  A transaction is its
    encoding, a payload keeps the arguments it was ordered with, the chain
    is a list of blocks with a table of canonical hashes, and a block fails
    to execute when its hash is on a list of rejected hashes. *)

Record SimNode := mkSim {
  simBlocks : list (@Block (list N) N);
  simCanonical : list (Z * N);
  simHead : Header;
  simFinalized : option Header;
  simSafe : option Header;
  simSynced : bool;
  simMode : SyncMode;
  simRejected : list N;
}.

Definition simGetBlock (w : SimNode) (hash : N) (number : Z) : option (@Block (list N) N) :=
  find (fun b => bool_decide (Block_Hash b = hash) && (NumberU64 b =? number))
    (simBlocks w).

Definition simCanonicalHash (w : SimNode) (number : Z) : N :=
  match find (fun e => e.1 =? number) (simCanonical w) with
  | Some e => e.2
  | None => 0%N
  end.

Definition simDecode (params : @ExecutableData N) : @Block (list N) N :=
  mkBlock
    (mkHeader (edBlockHash params) (edParentHash params) (edNumber params) 0
       (edTimestamp params) (edWithdrawalsRoot params))
    (edTransactions params) (edWithdrawals params).

Definition simEnvelope (args : @BuildPayloadArgs (list N) N) : @ExecutableData N :=
  mkExecutableData (baParent args) 0 (baTimestamp args) (baEIP1559Params args) 0%N
    (baTransactions args) (baWithdrawals args) None None None.

Definition simNode (cfg : ChainConfig) (first : gmap N Header -> option N)
    : @Node (list N) N (@BuildPayloadArgs (list N) N) (@BuildPayloadArgs (list N) N)
        (list N) (list N) SimNode :=
  {| Config := cfg;
     GetBlockByHash w hash :=
       find (fun b => bool_decide (Block_Hash b = hash)) (simBlocks w);
     GetBlockByNumber w number :=
       simGetBlock w (simCanonicalHash w number) number;
     GetBlock := simGetBlock;
     GetHeader w hash number := bHeader <$> simGetBlock w hash number;
     CurrentBlock := simHead;
     HasBlockAndState w hash number :=
       bool_decide (is_Some (simGetBlock w hash number));
     SetCanonical w b :=
       (mkSim (simBlocks w) ((NumberU64 b, Block_Hash b) :: simCanonical w)
          (bHeader b) (simFinalized w) (simSafe w) (simSynced w) (simMode w)
          (simRejected w),
        (0%N, None));
     SetFinalized w h :=
       mkSim (simBlocks w) (simCanonical w) (simHead w) (Some h) (simSafe w)
         (simSynced w) (simMode w) (simRejected w);
     SetSafe w h :=
       mkSim (simBlocks w) (simCanonical w) (simHead w) (simFinalized w) (Some h)
         (simSynced w) (simMode w) (simRejected w);
     InsertBlockWithoutSetHead w b witness :=
       if bool_decide (Block_Hash b ∈ simRejected w)
       then (w, (None, Some (errors_New "invalid block")))
       else (mkSim (b :: simBlocks w) (simCanonical w) (simHead w) (simFinalized w)
               (simSafe w) (simSynced w) (simMode w) (simRejected w),
             (if witness then Some [] else None, None));
     ReadCanonicalHash := simCanonicalHash;
     GetSyncMode := simMode;
     SetSynced w :=
       mkSim (simBlocks w) (simCanonical w) (simHead w) (simFinalized w) (simSafe w)
         true (simMode w) (simRejected w);
     BeaconSync w mode header finalized := (w, None);
     BeaconExtend w mode header := (w, Some (errors_New "no sync in progress"));
     BuildPayload w args witness := (w, inl args);
     Id args := [baVersion args; Z.to_N (baTimestamp args); 0; 0; 0; 0; 0; 0]%N;
     Resolve payload full := payload;
     ExecutionPayload := simEnvelope;
     ExecutableDataToBlock params versionedHashes beaconRoot requests cfg :=
       inl (simDecode params);
     ExecutableDataToBlockNoHash params versionedHashes beaconRoot requests cfg :=
       inl (simDecode params);
     ValidateHoloceneExtraData extra :=
       if (length extra =? 9)%nat then None
       else Some (errors_New "holocene extraData should be 9 bytes");
     ValidateHolocene1559Params p :=
       if (length p =? 8)%nat then None
       else Some (errors_New "holocene eip-1559 params should be 8 bytes");
     UnmarshalBinary b :=
       match b with
       | [] => inr (errors_New "typed transaction too short")
       | _ => inl b
       end;
     MarshalBinary tx := tx;
     EncodeToBytes proofs := proofs;
     DecodeBytes b := inl b;
     ExecuteStateless cfg block witness := inl (0%N, 0%N);
     Error err :=
       match err with
       | errors_New msg => msg
       | fmt_Errorf format _ => format
       | Bare _ => EmptyString
       | With _ _ => EmptyString
       end;
     rangeFirst := first;
     maxTrackedPayloads := 10;
     maxTrackedHeaders := 96 |}.

(** Two iteration orders: the first and the last key of the listing of
    the map. *)
Definition firstKey (m : gmap N Header) : option N := fst <$> head (map_to_list m).
Definition lastKey (m : gmap N Header) : option N := fst <$> last (map_to_list m).

(** An OP chain before Holocene, and a chain without the Optimism config. *)
Definition opConfig : ChainConfig :=
  mkConfig (Some tt) true (fun _ => false) (fun _ => false) (fun _ => Prague).
Definition l1Config : ChainConfig :=
  mkConfig None false (fun _ => false) (fun _ => false) (fun _ => Prague).

(** * The small node at work *)

(** A chain of three blocks, the last one its head; the node rejects the
    block with hash 666. *)
Definition genesisHeader : Header := mkHeader 100 0 0 0 10 None.
Definition headerA : Header := mkHeader 101 100 1 0 20 (Some 7%N).
Definition headerB : Header := mkHeader 102 101 2 0 30 (Some 7%N).

Definition genesisBlock : @Block (list N) N := mkBlock genesisHeader [] None.
Definition blockA : @Block (list N) N := mkBlock headerA [] (Some [5%N]).
Definition blockB : @Block (list N) N := mkBlock headerB [[2; 1]%N] None.

Definition simChain : SimNode :=
  mkSim [blockB; blockA; genesisBlock]
    [(0, 100%N); (1, 101%N); (2, 102%N)] headerB None None false FullSync [666%N].

Definition simAPI : @ConsensusAPI (@BuildPayloadArgs (list N) N) SimNode :=
  newConsensusAPI simChain.

(** The payload of a block on top of the head, with the given hash and
    time. *)
Definition payloadOnHead (hash : N) (time : Z) : @ExecutableData N :=
  mkExecutableData 102 3 time [] hash [] (Some []) (Some 0) (Some 0) None.

(** The payload of the known block with hash 101. *)
Definition payloadA : @ExecutableData N :=
  mkExecutableData 100 1 20 [] 101 [] (Some [5%N]) (Some 0) (Some 0) None.

(** The tracker after the downloader has reported bad block [1000 + i]
    below tip [i], for [i] from 1 to [n] in this order. *)
Definition badOf (i : N) : Header := mkHeader (1000 + i) 999 7 0 0 None.
Definition originOf (i : N) : Header := mkHeader i (1000 + i) 8 0 0 None.

Definition tracked (n : nat) : @ConsensusAPI (@BuildPayloadArgs (list N) N) SimNode :=
  foldl (fun api i => setInvalidAncestor api (badOf i) (originOf i))
    simAPI (N.of_nat <$> seq 1 n).

(** The tracker after the downloader has reported the same bad block below
    the same tip [n] times. *)
Definition reported (n : nat) : @ConsensusAPI (@BuildPayloadArgs (list N) N) SimNode :=
  Nat.iter n (fun api => setInvalidAncestor api (badOf 1) (originOf 1)) simAPI.

(** An API object with one V1 and one V3 payload in its cache. *)
Definition argsOf (version : N) : @BuildPayloadArgs (list N) N :=
  mkBuildArgs 102 40 0 0 None None true [] (Some 30000000) version [].

Definition cachedAPI : @ConsensusAPI (@BuildPayloadArgs (list N) N) SimNode :=
  set_localBlocks simAPI
    [([3; 40; 0; 0; 0; 0; 0; 0]%N, argsOf 3); ([1; 40; 0; 0; 0; 0; 0; 0]%N, argsOf 1)].

(** The payload of a block with hash 500 whose parent, 400, the node does
    not have. *)
Definition payloadOrphan : @ExecutableData N :=
  mkExecutableData 400 5 50 [] 500 [] (Some []) (Some 0) (Some 0) None.

(** Payload attributes for a block at time 40 with one transaction. *)
Definition attributesAt40 : @PayloadAttributes N :=
  mkAttributes 40 0 0 (Some []) (Some 9%N) [[2; 1]%N] true (Some 30000000) [].

(** * Further notions

    What the further properties of the engine API are stated with. *)

Section FurtherNotions.

Context {Tx Wd Payload Envelope Proofs StatelessWitness W : Type}.
Context {node : @Node Tx Wd Payload Envelope Proofs StatelessWitness W}.

(** Every tipset of the tracker has a hit count for its bad ancestor. *)
Definition trackerConsistent (api : @ConsensusAPI Payload W) : Prop :=
  forall (tip : Hash) (bad : Header),
    invalidTipsets api !! tip = Some bad ->
    is_Some (invalidBlocksHits api !! hHash bad).

(** The API object after [n] checks of the tip [tip] on its own behalf. *)
Definition checkedTimes (n : nat) (api : @ConsensusAPI Payload W) (tip : Hash)
    : @ConsensusAPI Payload W :=
  Nat.iter n (fun api => (checkInvalidAncestor api tip tip).1) api.

End FurtherNotions.

(** * The chain configuration ([params/config.go])

    The engine API asks the chain configuration which fork a time belongs
    to.  A [*big.Int] block number and a [*uint64] time are options: [None]
    is nil. *)

Module params.

(** The time forks [LatestFork] tells apart, in their order. *)
Inductive Fork := Paris | Shanghai | Cancun | Prague | Osaka.

#[global] Instance Fork_eq_dec : EqDecision Fork.
Proof. solve_decision. Defined.

Record OptimismConfig := mkOptimismConfig {
  EIP1559Elasticity : Z;
  EIP1559Denominator : Z;
  EIP1559DenominatorCanyon : option Z;
}.

Record BlobConfig := mkBlobConfig {
  Target : Z;
  Max : Z;
  UpdateFraction : Z;
}.

Record BlobScheduleConfig := mkBlobSchedule {
  bsCancun : option BlobConfig;
  bsPrague : option BlobConfig;
  bsOsaka : option BlobConfig;
  bsVerkle : option BlobConfig;
}.

(** [ChainConfig], without the consensus engine configs and the deposit
    contract address, which nothing below reads. *)
Record ChainConfig := mkChainConfig {
  ChainID : option Z;
  HomesteadBlock : option Z;
  DAOForkBlock : option Z;
  DAOForkSupport : bool;
  EIP150Block : option Z;
  EIP155Block : option Z;
  EIP158Block : option Z;
  ByzantiumBlock : option Z;
  ConstantinopleBlock : option Z;
  PetersburgBlock : option Z;
  IstanbulBlock : option Z;
  MuirGlacierBlock : option Z;
  BerlinBlock : option Z;
  LondonBlock : option Z;
  ArrowGlacierBlock : option Z;
  GrayGlacierBlock : option Z;
  MergeNetsplitBlock : option Z;
  ShanghaiTime : option Z;
  CancunTime : option Z;
  PragueTime : option Z;
  OsakaTime : option Z;
  VerkleTime : option Z;
  BedrockBlock : option Z;
  RegolithTime : option Z;
  CanyonTime : option Z;
  EcotoneTime : option Z;
  FjordTime : option Z;
  GraniteTime : option Z;
  HoloceneTime : option Z;
  IsthmusTime : option Z;
  JovianTime : option Z;
  InteropTime : option Z;
  ZeroFeeTimes : list Z;
  TerminalTotalDifficulty : option Z;
  EnableVerkleAtGenesis : bool;
  BlobSchedule : option BlobScheduleConfig;
  Optimism : option OptimismConfig;
}.

(** ** Fork predicates *)

(** [isBlockForked] *)
Definition isBlockForked (s head : option Z) : bool :=
  match s, head with
  | Some s, Some head => s <=? head
  | _, _ => false
  end.

(** [configBlockEqual] *)
Definition configBlockEqual (x y : option Z) : bool :=
  match x, y with
  | None, _ => bool_decide (y = None)
  | Some _, None => bool_decide (x = None)
  | Some x, Some y => x =? y
  end.

(** [isForkBlockIncompatible] *)
Definition isForkBlockIncompatible (s1 s2 head : option Z) : bool :=
  (isBlockForked s1 head || isBlockForked s2 head) && negb (configBlockEqual s1 s2).

(** [isTimestampForked] *)
Definition isTimestampForked (s : option Z) (head : Z) : bool :=
  match s with
  | None => false
  | Some s => s <=? head
  end.

(** [isTimestampPreGenesis] *)
Definition isTimestampPreGenesis (s genesis : option Z) : bool :=
  match s, genesis with
  | Some s, Some genesis => s <? genesis
  | _, _ => false
  end.

(** [configTimestampEqual] *)
Definition configTimestampEqual (x y : option Z) : bool :=
  match x, y with
  | None, _ => bool_decide (y = None)
  | Some _, None => bool_decide (x = None)
  | Some x, Some y => x =? y
  end.

(** [isForkTimestampIncompatible] *)
Definition isForkTimestampIncompatible (s1 s2 : option Z) (head : Z) (genesis : option Z)
    : bool :=
  (isTimestampForked s1 head || isTimestampForked s2 head)
  && negb (configTimestampEqual s1 s2)
  && negb (isTimestampPreGenesis s1 genesis && isTimestampPreGenesis s2 genesis).

Definition IsHomestead (c : ChainConfig) (num : option Z) : bool :=
  isBlockForked (HomesteadBlock c) num.
Definition IsDAOFork (c : ChainConfig) (num : option Z) : bool :=
  isBlockForked (DAOForkBlock c) num.
Definition IsEIP150 (c : ChainConfig) (num : option Z) : bool :=
  isBlockForked (EIP150Block c) num.
Definition IsEIP155 (c : ChainConfig) (num : option Z) : bool :=
  isBlockForked (EIP155Block c) num.
Definition IsEIP158 (c : ChainConfig) (num : option Z) : bool :=
  isBlockForked (EIP158Block c) num.
Definition IsByzantium (c : ChainConfig) (num : option Z) : bool :=
  isBlockForked (ByzantiumBlock c) num.
Definition IsConstantinople (c : ChainConfig) (num : option Z) : bool :=
  isBlockForked (ConstantinopleBlock c) num.
Definition IsMuirGlacier (c : ChainConfig) (num : option Z) : bool :=
  isBlockForked (MuirGlacierBlock c) num.
Definition IsPetersburg (c : ChainConfig) (num : option Z) : bool :=
  isBlockForked (PetersburgBlock c) num
  || bool_decide (PetersburgBlock c = None) && isBlockForked (ConstantinopleBlock c) num.
Definition IsIstanbul (c : ChainConfig) (num : option Z) : bool :=
  isBlockForked (IstanbulBlock c) num.
Definition IsBerlin (c : ChainConfig) (num : option Z) : bool :=
  isBlockForked (BerlinBlock c) num.
Definition IsLondon (c : ChainConfig) (num : option Z) : bool :=
  isBlockForked (LondonBlock c) num.
Definition IsArrowGlacier (c : ChainConfig) (num : option Z) : bool :=
  isBlockForked (ArrowGlacierBlock c) num.
Definition IsGrayGlacier (c : ChainConfig) (num : option Z) : bool :=
  isBlockForked (GrayGlacierBlock c) num.

Definition IsShanghai (c : ChainConfig) (num : option Z) (time : Z) : bool :=
  IsLondon c num && isTimestampForked (ShanghaiTime c) time.
Definition IsCancun (c : ChainConfig) (num : option Z) (time : Z) : bool :=
  IsLondon c num && isTimestampForked (CancunTime c) time.
Definition IsPrague (c : ChainConfig) (num : option Z) (time : Z) : bool :=
  IsLondon c num && isTimestampForked (PragueTime c) time.
Definition IsOsaka (c : ChainConfig) (num : option Z) (time : Z) : bool :=
  IsLondon c num && isTimestampForked (OsakaTime c) time.
Definition IsVerkle (c : ChainConfig) (num : option Z) (time : Z) : bool :=
  IsLondon c num && isTimestampForked (VerkleTime c) time.

Definition IsBedrock (c : ChainConfig) (num : option Z) : bool :=
  isBlockForked (BedrockBlock c) num.
Definition IsRegolith (c : ChainConfig) (time : Z) : bool :=
  isTimestampForked (RegolithTime c) time.
Definition IsCanyon (c : ChainConfig) (time : Z) : bool :=
  isTimestampForked (CanyonTime c) time.
Definition IsEcotone (c : ChainConfig) (time : Z) : bool :=
  isTimestampForked (EcotoneTime c) time.
Definition IsFjord (c : ChainConfig) (time : Z) : bool :=
  isTimestampForked (FjordTime c) time.
Definition IsGranite (c : ChainConfig) (time : Z) : bool :=
  isTimestampForked (GraniteTime c) time.
Definition IsHolocene (c : ChainConfig) (time : Z) : bool :=
  isTimestampForked (HoloceneTime c) time.
Definition IsIsthmus (c : ChainConfig) (time : Z) : bool :=
  isTimestampForked (IsthmusTime c) time.
Definition IsJovian (c : ChainConfig) (time : Z) : bool :=
  isTimestampForked (JovianTime c) time.
Definition IsInterop (c : ChainConfig) (time : Z) : bool :=
  isTimestampForked (InteropTime c) time.

Definition IsOptimism (c : ChainConfig) : bool := negb (bool_decide (Optimism c = None)).

Definition IsOptimismBedrock (c : ChainConfig) (num : option Z) : bool :=
  IsOptimism c && IsBedrock c num.
Definition IsOptimismRegolith (c : ChainConfig) (time : Z) : bool :=
  IsOptimism c && IsRegolith c time.
Definition IsOptimismCanyon (c : ChainConfig) (time : Z) : bool :=
  IsOptimism c && IsCanyon c time.
Definition IsOptimismFjord (c : ChainConfig) (time : Z) : bool :=
  IsOptimism c && IsFjord c time.
Definition IsOptimismGranite (c : ChainConfig) (time : Z) : bool :=
  IsOptimism c && IsGranite c time.
Definition IsOptimismHolocene (c : ChainConfig) (time : Z) : bool :=
  IsOptimism c && IsHolocene c time.
Definition IsOptimismIsthmus (c : ChainConfig) (time : Z) : bool :=
  IsOptimism c && IsIsthmus c time.

(** [IsFeeZero]: the loop runs from the last index down; the index of the
    time at the head of what is left of the reversed list is the number of
    times after it. *)
Fixpoint feeZeroLoop (reversed : list Z) (time : Z) : bool :=
  match reversed with
  | [] => false
  | s :: rest =>
      if isTimestampForked (Some s) time then Nat.even (length rest)
      else feeZeroLoop rest time
  end.

Definition IsFeeZero (c : ChainConfig) (time : Z) : bool :=
  feeZeroLoop (reverse (ZeroFeeTimes c)) time.

(** [LatestFork] *)
Definition LatestFork (c : ChainConfig) (time : Z) : Fork :=
  let london := LondonBlock c in
  if IsOsaka c london time then Osaka
  else if IsPrague c london time then Prague
  else if IsCancun c london time then Cancun
  else if IsShanghai c london time then Shanghai
  else Paris.

(** ** Compatibility errors *)

(** [ConfigCompatError] *)
Record ConfigCompatError := mkCompatError {
  What : string;
  StoredBlock : option Z;
  NewBlock : option Z;
  StoredTime : option Z;
  NewTime : option Z;
  RewindToBlock : Z;
  RewindToTime : Z;
}.

(** [newBlockCompatError] *)
Definition newBlockCompatError (what : string) (storedblock newblock : option Z)
    : ConfigCompatError :=
  let rew :=
    match storedblock, newblock with
    | None, _ => newblock
    | Some stored, None => storedblock
    | Some stored, Some new => if stored <? new then storedblock else newblock
    end in
  mkCompatError what storedblock newblock None None
    (match rew with
     | Some rew => if 0 <? Sign rew then wrap64 (Uint64 rew - 1) else 0
     | None => 0
     end)
    0.

(** [newTimestampCompatError] *)
Definition newTimestampCompatError (what : string) (storedtime newtime : option Z)
    : ConfigCompatError :=
  let rew :=
    match storedtime, newtime with
    | None, _ => newtime
    | Some stored, None => storedtime
    | Some stored, Some new => if stored <? new then storedtime else newtime
    end in
  mkCompatError what None None storedtime newtime 0
    (match rew with
     | Some rew => if negb (rew =? 0) then wrap64 (rew - 1) else 0
     | None => 0
     end).

End params.

(** ** Notions for the chain configuration *)

(** The place of a fork in the order of the time forks. *)
Definition forkRank (f : params.Fork) : nat :=
  match f with
  | params.Paris => 0
  | params.Shanghai => 1
  | params.Cancun => 2
  | params.Prague => 3
  | params.Osaka => 4
  end.

(** How many of the times are at or before [time]. *)
Definition switchesUpTo (times : list Z) (time : Z) : nat :=
  length (filter (fun s => s <= time) times).

(** Each time is later than the one before it. *)
Definition strictlyIncreasing (times : list Z) : Prop :=
  forall (i : nat) (s1 s2 : Z), times !! i = Some s1 -> times !! S i = Some s2 -> s1 < s2.

(** * Checks of the chain configuration *)

Module forkorder.

(** What a check comes to: it passes, it returns an error, or it stops on
    a nil pointer. *)
Inductive outcome := Pass | Fail (err : error) | Panics.

(** The [fork] struct of [CheckConfigForkOrder]. *)
Record fork := mkFork {
  name : string;
  block : option Z;
  timestamp : option Z;
  optional : bool;
}.

(** The zero value the loop starts with. *)
Definition noFork : fork := mkFork EmptyString None None false.

(** The forks in the order of the list in the source. *)
Definition forkList (c : params.ChainConfig) : list fork :=
  [ mkFork "homesteadBlock" (params.HomesteadBlock c) None false;
    mkFork "daoForkBlock" (params.DAOForkBlock c) None true;
    mkFork "eip150Block" (params.EIP150Block c) None false;
    mkFork "eip155Block" (params.EIP155Block c) None false;
    mkFork "eip158Block" (params.EIP158Block c) None false;
    mkFork "byzantiumBlock" (params.ByzantiumBlock c) None false;
    mkFork "constantinopleBlock" (params.ConstantinopleBlock c) None false;
    mkFork "petersburgBlock" (params.PetersburgBlock c) None false;
    mkFork "istanbulBlock" (params.IstanbulBlock c) None false;
    mkFork "muirGlacierBlock" (params.MuirGlacierBlock c) None true;
    mkFork "berlinBlock" (params.BerlinBlock c) None false;
    mkFork "londonBlock" (params.LondonBlock c) None false;
    mkFork "arrowGlacierBlock" (params.ArrowGlacierBlock c) None true;
    mkFork "grayGlacierBlock" (params.GrayGlacierBlock c) None true;
    mkFork "mergeNetsplitBlock" (params.MergeNetsplitBlock c) None true;
    mkFork "shanghaiTime" None (params.ShanghaiTime c) false;
    mkFork "cancunTime" None (params.CancunTime c) true;
    mkFork "pragueTime" None (params.PragueTime c) true;
    mkFork "osakaTime" None (params.OsakaTime c) true;
    mkFork "verkleTime" None (params.VerkleTime c) true ].

Definition isNil (x : option Z) : bool := bool_decide (x = None).

(** [x != nil && *x > *y]: the condition holds, for the values given, or
    it does not, or [x] is set and [y], which is then read, is nil. *)
Inductive comparison := After (x y : Z) | NotAfter | NilRead.

Definition setAndAfter (x y : option Z) : comparison :=
  match x, y with
  | None, _ => NotAfter
  | Some x, Some y => if y <? x then After x y else NotAfter
  | Some _, None => NilRead
  end.

(** The second case of the switch: both forks are set the same way. *)
Definition checkSequence (lastFork cur : fork) : outcome :=
  match setAndAfter (block lastFork) (block cur) with
  | NilRead => Panics
  | After lastBlock curBlock =>
      Fail (fmt_Errorf
              "unsupported fork ordering: %v enabled at block %v, but %v enabled at block %v"
              [ArgText (name lastFork); ArgNum lastBlock;
               ArgText (name cur); ArgNum curBlock])
  | NotAfter =>
      match setAndAfter (timestamp lastFork) (timestamp cur) with
      | NilRead => Panics
      | After lastTime curTime =>
          Fail (fmt_Errorf
                  "unsupported fork ordering: %v enabled at timestamp %v, but %v enabled at timestamp %v"
                  [ArgText (name lastFork); ArgNum lastTime;
                   ArgText (name cur); ArgNum curTime])
      | NotAfter =>
          if negb (isNil (timestamp lastFork)) && negb (isNil (block cur)) then
            Fail (fmt_Errorf
                    "unsupported fork ordering: %v used timestamp ordering, but %v reverted to block ordering"
                    [ArgText (name lastFork); ArgText (name cur)])
          else Pass
      end
  end.

(** One turn of the loop over the forks: the switch on [lastFork] and
    [cur]. *)
Definition checkFork (lastFork cur : fork) : outcome :=
  if negb (String.eqb (name lastFork) EmptyString) then
    if isNil (block lastFork) && isNil (timestamp lastFork)
       && (negb (isNil (block cur)) || negb (isNil (timestamp cur))) then
      match block cur, timestamp cur with
      | Some curBlock, _ =>
          Fail (fmt_Errorf
                  "unsupported fork ordering: %v not enabled, but %v enabled at block %v"
                  [ArgText (name lastFork); ArgText (name cur); ArgNum curBlock])
      | None, Some curTime =>
          Fail (fmt_Errorf
                  "unsupported fork ordering: %v not enabled, but %v enabled at timestamp %v"
                  [ArgText (name lastFork); ArgText (name cur); ArgNum curTime])
      | None, None => Panics
      end
    else if (negb (isNil (block lastFork)) && negb (isNil (block cur)))
            || (negb (isNil (timestamp lastFork)) && negb (isNil (timestamp cur))) then
      checkSequence lastFork cur
    else Pass
  else Pass.

(** [lastFork] after a turn: an optional fork that is not set is passed
    over. *)
Definition nextLast (lastFork cur : fork) : fork :=
  if negb (optional cur) || (negb (isNil (block cur)) || negb (isNil (timestamp cur)))
  then cur else lastFork.

Fixpoint forkLoop (lastFork : fork) (forks : list fork) : outcome :=
  match forks with
  | [] => Pass
  | cur :: rest =>
      match checkFork lastFork cur with
      | Pass => forkLoop (nextLast lastFork cur) rest
      | stop => stop
      end
  end.

(** The loop over the zero-fee times; [i] is the index of the first time
    of [times], [prev] the time before it. *)
Fixpoint zeroFeeLoop (i : Z) (prev : option Z) (times : list Z) : outcome :=
  match times with
  | [] => Pass
  | cur :: rest =>
      match prev with
      | Some prev =>
          if cur <=? prev then
            Fail (fmt_Errorf "zeroFeeTimes[%d]=@%d is earlier than zeroFeeTimes[%d]=@%d"
                    [ArgNum i; ArgNum cur; ArgNum (i - 1); ArgNum prev])
          else zeroFeeLoop (i + 1) (Some cur) rest
      | None => zeroFeeLoop (i + 1) (Some cur) rest
      end
  end.

(** [BlobConfig.validate]; the error is kept as its text. *)
Definition validate (bc : params.BlobConfig) : option string :=
  if params.Max bc <? 0 then Some "max < 0"%string
  else if params.Target bc <? 0 then Some "target < 0"%string
  else if params.UpdateFraction bc =? 0 then
    Some "update fraction must be defined and non-zero"%string
  else None.

(** One turn of the loop over the forks with blobs. *)
Definition checkBlobFork (forkName : string) (time : option Z)
    (config : option params.BlobConfig) : outcome :=
  match match config with
        | Some config => validate config
        | None => None
        end with
  | Some msg =>
      Fail (fmt_Errorf "invalid chain configuration in blobSchedule for fork %q: %v"
              [ArgText forkName; ArgText msg])
  | None =>
      if negb (isNil time) && bool_decide (config = None) then
        Fail (fmt_Errorf
                "invalid chain configuration: missing entry for fork %q in blobSchedule"
                [ArgText forkName])
      else Pass
  end.

(** [CheckConfigForkOrder] *)
Definition CheckConfigForkOrder (c : params.ChainConfig) : outcome :=
  match forkLoop noFork (forkList c) with
  | Pass =>
      match zeroFeeLoop 0 None (params.ZeroFeeTimes c) with
      | Pass =>
          if params.IsOptimism c then
            if bool_decide (params.BlobSchedule c = None) then Pass
            else Fail (errors_New "OP-Stack chains must have empty blob configuration")
          else
            let bsc :=
              default (params.mkBlobSchedule None None None None) (params.BlobSchedule c) in
            match checkBlobFork "cancun" (params.CancunTime c) (params.bsCancun bsc) with
            | Pass =>
                match checkBlobFork "prague" (params.PragueTime c) (params.bsPrague bsc) with
                | Pass => checkBlobFork "osaka" (params.OsakaTime c) (params.bsOsaka bsc)
                | stop => stop
                end
            | stop => stop
            end
      | stop => stop
      end
  | stop => stop
  end.

End forkorder.

(** ** Notions for the fork order *)

(** The fork is enabled: its block or its time is set. *)
Definition enabled (f : forkorder.fork) : Prop :=
  forkorder.block f <> None \/ forkorder.timestamp f <> None.

(** The blocks and the times that are set, in the order of the forks. *)
Definition setBlocks (c : params.ChainConfig) : list Z :=
  omap forkorder.block (forkorder.forkList c).
Definition setTimes (c : params.ChainConfig) : list Z :=
  omap forkorder.timestamp (forkorder.forkList c).

(** A fork as the list of the source has them: named, and set by a block
    or by a time, not both. *)
Definition single (f : forkorder.fork) : Prop :=
  forkorder.name f <> EmptyString /\
  (forkorder.block f = None \/ forkorder.timestamp f = None).

(** [lastFork] after the loop has gone through [forks]. *)
Definition lastOf (lastFork : forkorder.fork) (forks : list forkorder.fork)
    : forkorder.fork :=
  foldl forkorder.nextLast lastFork forks.

(** * The engine API on a chain configuration *)

(** The fork of [params.LatestFork] as the engine API looks at it. *)
Definition engineFork (f : params.Fork) : Fork :=
  match f with
  | params.Paris => Paris
  | params.Shanghai => Shanghai
  | params.Cancun => Cancun
  | params.Prague => Prague
  | params.Osaka => OtherFork
  end.

(** The part of a [params.ChainConfig] the engine API consults through
    [Config]. *)
Definition engineConfig (c : params.ChainConfig) : ChainConfig :=
  mkConfig (match params.Optimism c with Some _ => Some tt | None => None end)
    (params.IsOptimism c) (params.IsHolocene c) (params.IsIsthmus c)
    (fun time => engineFork (params.LatestFork c time)).

(** An OP chain with all block forks at genesis, Shanghai at 100, Cancun
    at 200 and Prague at 300, and fees zero from 50 to 150. *)
Definition opChain : params.ChainConfig :=
  params.mkChainConfig (Some 248) (Some 0) None false (Some 0) (Some 0) (Some 0)
    (Some 0) (Some 0) (Some 0) (Some 0) None (Some 0) (Some 0) None None None
    (Some 100) (Some 200) (Some 300) None None
    (Some 0) (Some 0) (Some 100) (Some 200) (Some 210) (Some 220) (Some 250)
    (Some 300) None None
    [50; 150] (Some 0) false None
    (Some (params.mkOptimismConfig 6 50 (Some 250))).

(** ** The versioned entry points

    [chain] is the chain configuration of the node,
    [api.eth.BlockChain().Config()], for what [Config] does not give: the
    London block and the fork predicates on a block and a time. *)

Section EntryPoints.

Context {Tx Wd Payload Envelope Proofs StatelessWitness W : Type}.
Context {node : @Node Tx Wd Payload Envelope Proofs StatelessWitness W}.
Variable chain : params.ChainConfig.

(** The check of [NewPayloadV1] and its two variants. *)
Definition checkFieldsV1 (params : @ExecutableData Wd) : option error :=
  if negb (bool_decide (edWithdrawals params = None :> option (list Wd))) then
    Some (With InvalidParams (errors_New "withdrawals not supported in V1"))
  else None.

(** The checks of [NewPayloadV2] and its two variants. *)
Definition checkFieldsV2 (params : @ExecutableData Wd) : option error :=
  if params.IsCancun chain (params.LondonBlock chain) (edTimestamp params) then
    Some (With InvalidParams (errors_New "can't use newPayloadV2 post-cancun"))
  else
    match (if bool_decide (LatestFork Config (edTimestamp params) = Shanghai) then
             if bool_decide (edWithdrawals params = None :> option (list Wd)) then
               Some (With InvalidParams (errors_New "nil withdrawals post-shanghai"))
             else None
           else
             if negb (bool_decide (edWithdrawals params = None :> option (list Wd))) then
               Some (With InvalidParams (errors_New "non-nil withdrawals pre-shanghai"))
             else None) with
    | Some err => Some err
    | None =>
        if negb (bool_decide (edExcessBlobGas params = None)) then
          Some (With InvalidParams (errors_New "non-nil excessBlobGas pre-cancun"))
        else if negb (bool_decide (edBlobGasUsed params = None)) then
          Some (With InvalidParams (errors_New "non-nil blobGasUsed pre-cancun"))
        else None
    end.

(** The checks of [NewPayloadV3] and its two variants, which differ in
    the name the last error gives. *)
Definition checkFieldsV3 (method : string) (params : @ExecutableData Wd)
    (versionedHashes : option (list Hash)) (beaconRoot : option Hash) : option error :=
  if bool_decide (edWithdrawals params = None :> option (list Wd)) then
    Some (With InvalidParams (errors_New "nil withdrawals post-shanghai"))
  else if bool_decide (edExcessBlobGas params = None) then
    Some (With InvalidParams (errors_New "nil excessBlobGas post-cancun"))
  else if bool_decide (edBlobGasUsed params = None) then
    Some (With InvalidParams (errors_New "nil blobGasUsed post-cancun"))
  else if bool_decide (versionedHashes = None) then
    Some (With InvalidParams (errors_New "nil versionedHashes post-cancun"))
  else if bool_decide (beaconRoot = None) then
    Some (With InvalidParams (errors_New "nil beaconRoot post-cancun"))
  else if negb (bool_decide (LatestFork Config (edTimestamp params) = Cancun)) then
    Some (With UnsupportedFork
            (errors_New (method ++ " must only be called for cancun payloads")))
  else None.

(** [NewPayloadV1], [NewPayloadV2], [NewPayloadV3] *)
Definition NewPayloadV1 (api : ConsensusAPI) (params : ExecutableData) (now : Z)
    : ConsensusAPI * (PayloadStatusV1 * option error) :=
  match checkFieldsV1 params with
  | Some err => (api, (mkStatus INVALID None None None, Some err))
  | None => newPayload api params None None None false now
  end.

Definition NewPayloadV2 (api : ConsensusAPI) (params : ExecutableData) (now : Z)
    : ConsensusAPI * (PayloadStatusV1 * option error) :=
  match checkFieldsV2 params with
  | Some err => (api, (mkStatus INVALID None None None, Some err))
  | None => newPayload api params None None None false now
  end.

Definition NewPayloadV3 (api : ConsensusAPI) (params : ExecutableData)
    (versionedHashes : option (list Hash)) (beaconRoot : option Hash) (now : Z)
    : ConsensusAPI * (PayloadStatusV1 * option error) :=
  match checkFieldsV3 "newPayloadV3" params versionedHashes beaconRoot with
  | Some err => (api, (mkStatus INVALID None None None, Some err))
  | None => newPayload api params versionedHashes beaconRoot None false now
  end.

(** [NewPayloadWithWitnessV1], [NewPayloadWithWitnessV2],
    [NewPayloadWithWitnessV3] *)
Definition NewPayloadWithWitnessV1 (api : ConsensusAPI) (params : ExecutableData) (now : Z)
    : ConsensusAPI * (PayloadStatusV1 * option error) :=
  match checkFieldsV1 params with
  | Some err => (api, (mkStatus INVALID None None None, Some err))
  | None => newPayload api params None None None true now
  end.

Definition NewPayloadWithWitnessV2 (api : ConsensusAPI) (params : ExecutableData) (now : Z)
    : ConsensusAPI * (PayloadStatusV1 * option error) :=
  match checkFieldsV2 params with
  | Some err => (api, (mkStatus INVALID None None None, Some err))
  | None => newPayload api params None None None true now
  end.

Definition NewPayloadWithWitnessV3 (api : ConsensusAPI) (params : ExecutableData)
    (versionedHashes : option (list Hash)) (beaconRoot : option Hash) (now : Z)
    : ConsensusAPI * (PayloadStatusV1 * option error) :=
  match checkFieldsV3 "newPayloadWithWitnessV3" params versionedHashes beaconRoot with
  | Some err => (api, (mkStatus INVALID None None None, Some err))
  | None => newPayload api params versionedHashes beaconRoot None true now
  end.

(** [ExecuteStatelessPayloadV1], [ExecuteStatelessPayloadV2],
    [ExecuteStatelessPayloadV3] *)
Definition ExecuteStatelessPayloadV1 (api : ConsensusAPI) (params : ExecutableData)
    (opaqueWitness : bytes) (now : Z)
    : ConsensusAPI * (StatelessPayloadStatusV1 * option error) :=
  match checkFieldsV1 params with
  | Some err => (api, (mkStateless INVALID zeroHash zeroHash None, Some err))
  | None => executeStatelessPayload api params None None None opaqueWitness now
  end.

Definition ExecuteStatelessPayloadV2 (api : ConsensusAPI) (params : ExecutableData)
    (opaqueWitness : bytes) (now : Z)
    : ConsensusAPI * (StatelessPayloadStatusV1 * option error) :=
  match checkFieldsV2 params with
  | Some err => (api, (mkStateless INVALID zeroHash zeroHash None, Some err))
  | None => executeStatelessPayload api params None None None opaqueWitness now
  end.

Definition ExecuteStatelessPayloadV3 (api : ConsensusAPI) (params : ExecutableData)
    (versionedHashes : option (list Hash)) (beaconRoot : option Hash)
    (opaqueWitness : bytes) (now : Z)
    : ConsensusAPI * (StatelessPayloadStatusV1 * option error) :=
  match checkFieldsV3 "executeStatelessPayloadV3" params versionedHashes beaconRoot with
  | Some err => (api, (mkStateless INVALID zeroHash zeroHash None, Some err))
  | None =>
      executeStatelessPayload api params versionedHashes beaconRoot None opaqueWitness now
  end.

(** The checks of [ForkchoiceUpdatedV1] on payload attributes. *)
Definition checkAttributesV1 (pa : @PayloadAttributes Wd) : option error :=
  if negb (bool_decide (paWithdrawals pa = None :> option (list Wd)))
     || negb (bool_decide (paBeaconRoot pa = None)) then
    Some (With InvalidParams
            (errors_New "withdrawals and beacon root not supported in V1"))
  else if params.IsShanghai chain (params.LondonBlock chain) (paTimestamp pa) then
    Some (With InvalidParams (errors_New "forkChoiceUpdateV1 called post-shanghai"))
  else None.

(** The checks of [ForkchoiceUpdatedV2] on payload attributes. *)
Definition checkAttributesV2 (pa : @PayloadAttributes Wd) : option error :=
  if negb (bool_decide (paBeaconRoot pa = None)) then
    Some (With InvalidPayloadAttributes (errors_New "unexpected beacon root"))
  else
    match LatestFork Config (paTimestamp pa) with
    | Paris =>
        if negb (bool_decide (paWithdrawals pa = None :> option (list Wd))) then
          Some (With InvalidPayloadAttributes (errors_New "withdrawals before shanghai"))
        else None
    | Shanghai =>
        if bool_decide (paWithdrawals pa = None :> option (list Wd)) then
          Some (With InvalidPayloadAttributes (errors_New "missing withdrawals"))
        else None
    | _ =>
        Some (With UnsupportedFork
                (errors_New
                   "forkchoiceUpdatedV2 must only be called with paris and shanghai payloads"))
    end.

(** The checks of [ForkchoiceUpdatedV3] on payload attributes. *)
Definition checkAttributesV3 (pa : @PayloadAttributes Wd) : option error :=
  if bool_decide (paWithdrawals pa = None :> option (list Wd)) then
    Some (With InvalidPayloadAttributes (errors_New "missing withdrawals"))
  else if bool_decide (paBeaconRoot pa = None) then
    Some (With InvalidPayloadAttributes (errors_New "missing beacon root"))
  else if negb (bool_decide (LatestFork Config (paTimestamp pa) = Cancun))
          && negb (bool_decide (LatestFork Config (paTimestamp pa) = Prague)) then
    Some (With UnsupportedFork
            (errors_New "forkchoiceUpdatedV3 must only be called for cancun payloads"))
  else None.

(** A versioned fork-choice update: the attributes, when there are any,
    are checked, then [forkchoiceUpdated] does the work. *)
Definition forkchoiceUpdatedChecked (check : @PayloadAttributes Wd -> option error)
    (api : ConsensusAPI) (update : ForkchoiceStateV1)
    (payloadAttributes : option PayloadAttributes) (payloadVersion : PayloadVersion)
    (payloadWitness : bool) (now : Z)
    : ConsensusAPI * (ForkChoiceResponse * option error) :=
  match payloadAttributes with
  | Some pa =>
      match check pa with
      | Some err => (api, (STATUS_INVALID, Some err))
      | None =>
          forkchoiceUpdated api update payloadAttributes payloadVersion payloadWitness now
      end
  | None =>
      forkchoiceUpdated api update payloadAttributes payloadVersion payloadWitness now
  end.

(** [ForkchoiceUpdatedV1], [ForkchoiceUpdatedV2], [ForkchoiceUpdatedV3] *)
Definition ForkchoiceUpdatedV1 (api : ConsensusAPI) (update : ForkchoiceStateV1)
    (payloadAttributes : option PayloadAttributes) (now : Z)
    : ConsensusAPI * (ForkChoiceResponse * option error) :=
  forkchoiceUpdatedChecked checkAttributesV1 api update payloadAttributes PayloadV1 false now.

Definition ForkchoiceUpdatedV2 (api : ConsensusAPI) (update : ForkchoiceStateV1)
    (payloadAttributes : option PayloadAttributes) (now : Z)
    : ConsensusAPI * (ForkChoiceResponse * option error) :=
  forkchoiceUpdatedChecked checkAttributesV2 api update payloadAttributes PayloadV2 false now.

Definition ForkchoiceUpdatedV3 (api : ConsensusAPI) (update : ForkchoiceStateV1)
    (payloadAttributes : option PayloadAttributes) (now : Z)
    : ConsensusAPI * (ForkChoiceResponse * option error) :=
  forkchoiceUpdatedChecked checkAttributesV3 api update payloadAttributes PayloadV3 false now.

(** [ForkchoiceUpdatedWithWitnessV1], [ForkchoiceUpdatedWithWitnessV2],
    [ForkchoiceUpdatedWithWitnessV3] *)
Definition ForkchoiceUpdatedWithWitnessV1 (api : ConsensusAPI) (update : ForkchoiceStateV1)
    (payloadAttributes : option PayloadAttributes) (now : Z)
    : ConsensusAPI * (ForkChoiceResponse * option error) :=
  forkchoiceUpdatedChecked checkAttributesV1 api update payloadAttributes PayloadV1 true now.

Definition ForkchoiceUpdatedWithWitnessV2 (api : ConsensusAPI) (update : ForkchoiceStateV1)
    (payloadAttributes : option PayloadAttributes) (now : Z)
    : ConsensusAPI * (ForkChoiceResponse * option error) :=
  forkchoiceUpdatedChecked checkAttributesV2 api update payloadAttributes PayloadV2 true now.

Definition ForkchoiceUpdatedWithWitnessV3 (api : ConsensusAPI) (update : ForkchoiceStateV1)
    (payloadAttributes : option PayloadAttributes) (now : Z)
    : ConsensusAPI * (ForkChoiceResponse * option error) :=
  forkchoiceUpdatedChecked checkAttributesV3 api update payloadAttributes PayloadV3 true now.

End EntryPoints.

(** ** Transition configuration and blobs *)

(** [engine.TransitionConfigurationV1] *)
Record TransitionConfigurationV1 := mkTransition {
  tcTerminalTotalDifficulty : option Z;
  tcTerminalBlockHash : Hash;
  tcTerminalBlockNumber : Z;
}.

(** [engine.BlobAndProofV1] *)
Record BlobAndProofV1 := mkBlobAndProof {
  Blob : bytes;
  Proof : bytes;
}.

(** What the two calls ask of the node besides [Node]:
    [BlockChain().GetCanonicalHash] and [TxPool().GetBlobs], which returns
    the blobs and the proofs it has found, nil where it has none. *)
Class Pool (W : Type) := {
  GetCanonicalHash : W -> Z -> Hash;
  GetBlobs : W -> list Hash -> list (option bytes) * list (option bytes);
}.

Section Exchange.

Context {Payload W : Type} {pool : Pool W}.
Variable chain : params.ChainConfig.

Definition set_lastTransitionUpdate (api : @ConsensusAPI Payload W) (now : Z)
    : @ConsensusAPI Payload W :=
  mkAPI (eth api) (remoteBlocks api) (localBlocks api) (invalidBlocksHits api)
    (invalidTipsets api) now (lastForkchoiceUpdate api) (lastNewPayloadUpdate api).

(** A [*big.Int] as [%v] prints it. *)
Definition bigArg (x : option Z) : fmtArg :=
  match x with
  | Some x => ArgNum x
  | None => ArgText "<nil>"
  end.

(** [ExchangeTransitionConfigurationV1]; [now] is what [time.Now()]
    returns during the call. *)
Definition ExchangeTransitionConfigurationV1 (api : @ConsensusAPI Payload W)
    (config : TransitionConfigurationV1) (now : Z)
    : @ConsensusAPI Payload W * (option TransitionConfigurationV1 * option error) :=
  match tcTerminalTotalDifficulty config with
  | None => (api, (None, Some (errors_New "invalid terminal total difficulty")))
  | Some configTTD =>
      let api := set_lastTransitionUpdate api now in
      let ttd := params.TerminalTotalDifficulty chain in
      if match ttd with
         | None => true
         | Some ttd => negb (ttd =? configTTD)
         end then
        (api, (None, Some (fmt_Errorf "invalid ttd: execution %v consensus %v"
                             [bigArg ttd; ArgNum configTTD])))
      else if negb (bool_decide (tcTerminalBlockHash config = zeroHash)) then
        if bool_decide (GetCanonicalHash (eth api) (wrap64 (tcTerminalBlockNumber config))
                        = tcTerminalBlockHash config) then
          (api, (Some (mkTransition ttd (tcTerminalBlockHash config)
                         (tcTerminalBlockNumber config)), None))
        else (api, (None, Some (errors_New "invalid terminal block hash")))
      else (api, (Some (mkTransition ttd zeroHash 0), None))
  end.

(** The loop of [GetBlobsV1] from index [i] on, over what is left of the
    blobs.  Nothing is returned when the loop stops on an index out of
    range or on a nil proof. *)
Fixpoint blobsLoop (i : nat) (blobs : list (option bytes)) (proofs : list (option bytes))
    (res : list (option BlobAndProofV1)) : option (list (option BlobAndProofV1)) :=
  match blobs with
  | [] => Some res
  | None :: rest => blobsLoop (S i) rest proofs res
  | Some blob :: rest =>
      match proofs !! i with
      | Some (Some proof) =>
          if decide (i < length res)%nat then
            blobsLoop (S i) rest proofs (<[i := Some (mkBlobAndProof blob proof)]> res)
          else None
      | _ => None
      end
  end.

(** [GetBlobsV1]; [None] is a run that stops in the loop. *)
Definition GetBlobsV1 (api : @ConsensusAPI Payload W) (hashes : list Hash)
    : option (list (option BlobAndProofV1) + error) :=
  if (128 <? length hashes)%nat then
    Some (inr (With TooLargeRequest
                 (fmt_Errorf "requested blob count too large: %v"
                    [ArgNum (Z.of_nat (length hashes))])))
  else
    let res := replicate (length hashes) None in
    let '(blobs, proofs) := GetBlobs (eth api) hashes in
    inl <$> blobsLoop 0 blobs proofs res.

End Exchange.

(** Payload attributes for a block at time 40, before Shanghai on
    [opChain]: no withdrawals, no beacon root. *)
Definition attributesParis : @PayloadAttributes N :=
  mkAttributes 40 0 0 None None [] true (Some 30000000) [].

(** A small pool: it has the blobs of the even hashes, each with a proof. *)
Definition simBlob (hash : N) : option (list N) :=
  if N.even hash then Some [hash; hash] else None.
Definition simProof (hash : N) : option (list N) :=
  if N.even hash then Some [hash] else None.

#[global] Instance simPool : Pool SimNode :=
  {| GetCanonicalHash := simCanonicalHash;
     GetBlobs w hashes := (simBlob <$> hashes, simProof <$> hashes) |}.

(** * The node ([eth/backend.go]) and the pool's gas limit
      ([core/txpool/validation.go]) *)

(** What [SyncMode] reads of the node besides its current block: the snap
    sync flag of the handler, the last pivot number of the database, and
    whether the chain has the state of a root.  [Root] is the state root
    of a header, a field the engine API does not read. *)
Class Backend (W : Type) := {
  snapSync : W -> bool;
  ReadLastPivotNumber : W -> option Z;
  Root : Header -> Hash;
  HasState : W -> Hash -> bool;
}.

Module backend.

Section Backend.

Context {Tx Wd Payload Envelope Proofs StatelessWitness W : Type}.
Context {node : @Node Tx Wd Payload Envelope Proofs StatelessWitness W}.
Context {ethereum : Backend W}.

(** [Ethereum.SyncMode] *)
Definition SyncMode (s : W) : SyncMode :=
  if snapSync s then SnapSync
  else
    let head := CurrentBlock s in
    if match ReadLastPivotNumber s with
       | Some pivot => Uint64 (Number head) <? pivot
       | None => false
       end then SnapSync
    else if negb (HasState s (Root head)) then SnapSync
    else FullSync.

End Backend.

End backend.

Module txpool.

(** [l1InfoGasOverhead] *)
Definition l1InfoGasOverhead : Z := 70000.

(** [EffectiveGasLimit]; the subtraction is guarded and does not wrap. *)
Definition EffectiveGasLimit (chainConfig : params.ChainConfig)
    (gasLimit effectiveLimit : Z) : Z :=
  let gasLimit :=
    if negb (effectiveLimit =? 0) && (effectiveLimit <? gasLimit)
    then effectiveLimit else gasLimit in
  if negb (bool_decide (params.Optimism chainConfig = None)) then
    if l1InfoGasOverhead <? gasLimit then gasLimit - l1InfoGasOverhead else 0
  else gasLimit.

End txpool.

(** The small node during a snap sync whose pivot is block 5: the flag of
    the handler is off, and the head, block 2, is below the pivot. *)
#[global] Instance simBackend : Backend SimNode :=
  {| snapSync w := false;
     ReadLastPivotNumber w := Some 5;
     Root h := hHash h;
     HasState w root := true |}.

Definition snapChain : SimNode :=
  mkSim [blockB; blockA; genesisBlock]
    [(0, 100%N); (1, 101%N); (2, 102%N)] headerB None None false SnapSync [666%N].

Definition snapAPI : @ConsensusAPI (@BuildPayloadArgs (list N) N) SimNode :=
  newConsensusAPI snapChain.

(** * Executing messages ([core/types/interoptypes/interop.go]) *)

Module interoptypes.

(** Errors of this package: a message, or a format with its arguments, of
    which one may be the error it wraps. *)
Inductive error :=
  | errors_New (msg : string)
  | fmt_Errorf (format : string) (args : list arg)
with arg :=
  | Num (n : Z)
  | Topic (h : Hash)
  | Wraps (err : error).

(** [Identifier]; the origin is an address of 20 bytes, the chain ID a
    [uint256.Int]. *)
Record Identifier := mkIdentifier {
  Origin : bytes;
  BlockNumber : Z;
  LogIndex : Z;
  Timestamp : Z;
  ChainID : Z;
}.

(** [Message] *)
Record Message := mkMessage {
  msgIdentifier : Identifier;
  PayloadHash : Hash;
}.

(** The zero value of [Message]. *)
Definition zeroMessage : Message :=
  mkMessage (mkIdentifier (replicate 20 0%N) 0 0 0 0) 0%N.

(** The fields of [types.Log] the package reads. *)
Record Log := mkLog {
  Address : bytes;
  Topics : list Hash;
  Data : bytes;
}.

(** [binary.BigEndian.Uint64], [Uint32] and [SetBytes32]: the number the
    bytes spell, the first byte the highest. *)
Definition bigEndian (b : bytes) : Z :=
  foldl (fun acc x => acc * 256 + Z.of_N x) 0 b.

(** The loop of [takeZeroes] finds no byte that is not zero. *)
Definition allZero (b : bytes) : bool := forallb (N.eqb 0) b.

Definition set_Origin (m : Message) (origin : bytes) : Message :=
  mkMessage (mkIdentifier origin (BlockNumber (msgIdentifier m))
               (LogIndex (msgIdentifier m)) (Timestamp (msgIdentifier m))
               (ChainID (msgIdentifier m))) (PayloadHash m).
Definition set_BlockNumber (m : Message) (number : Z) : Message :=
  mkMessage (mkIdentifier (Origin (msgIdentifier m)) number
               (LogIndex (msgIdentifier m)) (Timestamp (msgIdentifier m))
               (ChainID (msgIdentifier m))) (PayloadHash m).
Definition set_LogIndex (m : Message) (index : Z) : Message :=
  mkMessage (mkIdentifier (Origin (msgIdentifier m)) (BlockNumber (msgIdentifier m))
               index (Timestamp (msgIdentifier m))
               (ChainID (msgIdentifier m))) (PayloadHash m).
Definition set_Timestamp (m : Message) (time : Z) : Message :=
  mkMessage (mkIdentifier (Origin (msgIdentifier m)) (BlockNumber (msgIdentifier m))
               (LogIndex (msgIdentifier m)) time
               (ChainID (msgIdentifier m))) (PayloadHash m).
Definition set_ChainID (m : Message) (id : Z) : Message :=
  mkMessage (mkIdentifier (Origin (msgIdentifier m)) (BlockNumber (msgIdentifier m))
               (LogIndex (msgIdentifier m)) (Timestamp (msgIdentifier m)) id)
    (PayloadHash m).
Definition set_PayloadHash (m : Message) (hash : Hash) : Message :=
  mkMessage (msgIdentifier m) hash.

Section Interop.

(** The hash of the event signature and the address of the inbox
    ([params.InteropCrossL2InboxAddress]), both fixed outside the
    package. *)
Variable ExecutingMessageEventTopic : Hash.
Variable InteropCrossL2InboxAddress : bytes.

(** [Message.DecodeEvent]: the message as the call leaves it, and the
    error.  [take] cuts the bytes it returns off the data. *)
Definition DecodeEvent (m : Message) (topics : list Hash) (data : bytes)
    : Message * option error :=
  match topics with
  | [topic0; topic1] =>
      if negb (topic0 =? ExecutingMessageEventTopic)%N then
        (m, Some (fmt_Errorf "unexpected event topic %q" [Topic topic0]))
      else if negb (length data =? 32 * 5)%nat then
        (m, Some (fmt_Errorf "unexpected identifier data length: %d"
                    [Num (Z.of_nat (length data))]))
      else if negb (allZero (take 12 data)) then
        (m, Some (fmt_Errorf "invalid address padding: %w"
                    [Wraps (errors_New "expected zero")]))
      else
        let data := drop 12 data in
        let m := set_Origin m (take 20 data) in
        let data := drop 20 data in
        if negb (allZero (take (32 - 8) data)) then
          (m, Some (fmt_Errorf "invalid block number padding: %w"
                      [Wraps (errors_New "expected zero")]))
        else
          let data := drop (32 - 8) data in
          let m := set_BlockNumber m (bigEndian (take 8 data)) in
          let data := drop 8 data in
          if negb (allZero (take (32 - 4) data)) then
            (m, Some (fmt_Errorf "invalid log index padding: %w"
                        [Wraps (errors_New "expected zero")]))
          else
            let data := drop (32 - 4) data in
            let m := set_LogIndex m (bigEndian (take 4 data)) in
            let data := drop 4 data in
            if negb (allZero (take (32 - 8) data)) then
              (m, Some (fmt_Errorf "invalid timestamp padding: %w"
                          [Wraps (errors_New "expected zero")]))
            else
              let data := drop (32 - 8) data in
              let m := set_Timestamp m (bigEndian (take 8 data)) in
              let data := drop 8 data in
              let m := set_ChainID m (bigEndian (take 32 data)) in
              (set_PayloadHash m topic1, None)
  | _ =>
      (m, Some (fmt_Errorf "unexpected number of event topics: %d"
                  [Num (Z.of_nat (length topics))]))
  end.

(** The loop of [ExecutingMessagesFromLogs] from index [i] on. *)
Fixpoint messagesLoop (i : Z) (logs : list Log) (executingMessages : list Message)
    : list Message + error :=
  match logs with
  | [] => inl executingMessages
  | l :: rest =>
      if bool_decide (Address l = InteropCrossL2InboxAddress) then
        if match Topics l with
           | [] => true
           | topic0 :: _ => negb (topic0 =? ExecutingMessageEventTopic)%N
           end then
          messagesLoop (i + 1) rest executingMessages
        else
          match DecodeEvent zeroMessage (Topics l) (Data l) with
          | (_, Some err) =>
              inr (fmt_Errorf "invalid executing message %d, tx-log %d: %w"
                     [Num (Z.of_nat (length executingMessages)); Num i; Wraps err])
          | (msg, None) => messagesLoop (i + 1) rest (executingMessages ++ [msg])
          end
      else messagesLoop (i + 1) rest executingMessages
  end.

(** [ExecutingMessagesFromLogs] *)
Definition ExecutingMessagesFromLogs (logs : list Log) : list Message + error :=
  messagesLoop 0 logs [].

End Interop.

End interoptypes.

(** ** Notions for the executing messages *)

(** The [n] bytes that spell [x], the first byte the highest. *)
Fixpoint bigEndianBytes (n : nat) (x : Z) : list N :=
  match n with
  | O => []
  | S k => Z.to_N ((x / 256 ^ Z.of_nat k) mod 256) :: bigEndianBytes k x
  end.

(** The data of the event for an identifier: five words of 32 bytes, each
    value padded with zeroes on the left. *)
Definition eventData (id : interoptypes.Identifier) : list N :=
  replicate 12 0%N ++ interoptypes.Origin id
  ++ replicate 24 0%N ++ bigEndianBytes 8 (interoptypes.BlockNumber id)
  ++ replicate 28 0%N ++ bigEndianBytes 4 (interoptypes.LogIndex id)
  ++ replicate 24 0%N ++ bigEndianBytes 8 (interoptypes.Timestamp id)
  ++ bigEndianBytes 32 (interoptypes.ChainID id).

(** Every field of the identifier is within its type. *)
Definition identifierInRange (id : interoptypes.Identifier) : Prop :=
  length (interoptypes.Origin id) = 20%nat /\
  Forall (fun b => (b < 256)%N) (interoptypes.Origin id) /\
  0 <= interoptypes.BlockNumber id < 2 ^ 64 /\
  0 <= interoptypes.LogIndex id < 2 ^ 32 /\
  0 <= interoptypes.Timestamp id < 2 ^ 64 /\
  0 <= interoptypes.ChainID id < 2 ^ 256.

(** The log is an executing-message event of the inbox. *)
Definition inboxEvent (topic : N) (inbox : list N) (l : interoptypes.Log) : Prop :=
  interoptypes.Address l = inbox /\ head (interoptypes.Topics l) = Some topic.

#[global] Instance inboxEvent_dec (topic : N) (inbox : list N) (l : interoptypes.Log) :
  Decision (inboxEvent topic inbox l).
Proof. unfold inboxEvent. apply _. Defined.

(** * Extra data: the node prepares it, the miner takes it
      ([eth/backend.go], [miner/miner.go]) *)

Module miner.

(** The fields of [miner.Config] the setters write. *)
Record Config := mkMinerConfig {
  ExtraData : bytes;
  GasCeil : Z;
  GasPrice : option Z;
  MaxDATxSize : option Z;
  MaxDABlockSize : option Z;
}.

Section Setters.

(** [params.MaximumExtraDataSize], a constant fixed outside the package. *)
Variable MaximumExtraDataSize : Z.

(** [Miner.SetExtra] *)
Definition SetExtra (config : Config) (extra : bytes) : Config * option error :=
  if MaximumExtraDataSize <? Z.of_nat (length extra) then
    (config, Some (fmt_Errorf "extra exceeds max length. %d > %v"
                     [ArgNum (Z.of_nat (length extra)); ArgNum MaximumExtraDataSize]))
  else
    (mkMinerConfig extra (GasCeil config) (GasPrice config) (MaxDATxSize config)
       (MaxDABlockSize config), None).

(** [Miner.SetGasCeil] *)
Definition SetGasCeil (config : Config) (ceil : Z) : Config :=
  mkMinerConfig (ExtraData config) ceil (GasPrice config) (MaxDATxSize config)
    (MaxDABlockSize config).

(** [Miner.SetGasTip] *)
Definition SetGasTip (config : Config) (tip : option Z) : Config * option error :=
  (mkMinerConfig (ExtraData config) (GasCeil config) tip (MaxDATxSize config)
     (MaxDABlockSize config), None).

(** [Miner.SetMaxDASize] *)
Definition SetMaxDASize (config : Config) (maxTxSize maxBlockSize : option Z) : Config :=
  mkMinerConfig (ExtraData config) (GasCeil config) (GasPrice config)
    (match maxTxSize with
     | Some size => if BitLen size =? 0 then None else Some size
     | None => None
     end)
    (match maxBlockSize with
     | Some size => if BitLen size =? 0 then None else Some size
     | None => None
     end).

End Setters.

End miner.

Module eth.

Section ExtraData.

Variable MaximumExtraDataSize : Z.

(** What [makeExtraData] makes for want of extra data: the encoding of the
    version, the name of the client and the runtime. *)
Variable defaultExtraData : bytes.

(** [makeExtraData]; nil is the empty slice. *)
Definition makeExtraData (extra : bytes) : bytes :=
  let extra := if (length extra =? 0)%nat then defaultExtraData else extra in
  if MaximumExtraDataSize <? Z.of_nat (length extra) then [] else extra.

End ExtraData.

End eth.

(** An identifier, and two logs: one of another contract, and the
    executing-message event of the inbox, whose address is taken to be 66
    and whose topic is taken to be 7, for that identifier. *)
Definition simIdentifier : interoptypes.Identifier :=
  interoptypes.mkIdentifier (replicate 20 1%N) 5 2 1700000000 248.

Definition simLogs : list interoptypes.Log :=
  [ interoptypes.mkLog [55%N] [7%N] [1; 2; 3]%N;
    interoptypes.mkLog [66%N] [7; 9]%N (eventData simIdentifier) ].

(** * Properties *)

Section Properties.

Context {Tx Wd Payload Envelope Proofs StatelessWitness W : Type}.
Context {node : @Node Tx Wd Payload Envelope Proofs StatelessWitness W}.

(** ** Integers *)

Lemma Sign_eqb_0 (x : Z) : (Sign x =? 0) = (x =? 0).
Proof. unfold Sign. destruct x; reflexivity. Qed.

Lemma BitLen_eqb_0 (x : Z) : (BitLen x =? 0) = (x =? 0).
Proof.
  unfold BitLen. destruct (Z.abs x =? 0) eqn:E.
  - apply Z.eqb_eq in E. assert (x = 0) as -> by lia. reflexivity.
  - apply Z.eqb_neq in E. assert (x <> 0) as Hx by lia.
    pose proof (Z.log2_nonneg (Z.abs x)).
    rewrite (proj2 (Z.eqb_neq x 0) Hx). apply Z.eqb_neq. lia.
Qed.

Lemma BitLen_pos (x : Z) : (0 <? BitLen x) = negb (x =? 0).
Proof.
  rewrite <- BitLen_eqb_0. unfold BitLen. destruct (Z.abs x =? 0); [reflexivity|].
  pose proof (Z.log2_nonneg (Z.abs x)).
  rewrite (proj2 (Z.ltb_lt _ _)) by lia. symmetry. apply negb_true_iff, Z.eqb_neq. lia.
Qed.

Lemma intIncr_small (n : Z) : - 2 ^ 63 <= n < 2 ^ 63 - 1 -> intIncr n = n + 1.
Proof. intros Hn. unfold intIncr. rewrite Z.mod_small; lia. Qed.

Lemma wrap64_small (z : Z) : 0 <= z < 2 ^ 64 -> wrap64 z = z.
Proof. intros Hz. unfold wrap64. apply Z.mod_small. exact Hz. Qed.

(** ** The capacity loop *)

(** With the size of the map as fuel the loop runs to its end: what it
    keeps is part of the map, and as much of it as fits under the cap. *)
Lemma evictLoop_kept :
  rangeFirst_spec ->
  forall (fuel : nat) (m : gmap Hash Header),
    (size m <= fuel)%nat ->
    evictLoop fuel m ⊆ m /\
    size (evictLoop fuel m) = Nat.min (size m) (invalidTipsetsCap - 1).
Proof.
  intros Hspec fuel. induction fuel as [|fuel IH]; intros m Hfuel; simpl.
  - split; [reflexivity|]. unfold invalidTipsetsCap. lia.
  - destruct (decide (invalidTipsetsCap <= size m)%nat) as [Hfull|Hroom].
    + pose proof (Hspec m) as Hk. destruct (rangeFirst m) as [key|].
      * pose proof (map_size_delete_Some key m Hk) as Hsize.
        destruct (IH (delete key m)) as [Hsub Hkept]; [lia|].
        split.
        -- etrans; [exact Hsub|]. apply delete_subseteq.
        -- rewrite Hkept, Hsize. unfold invalidTipsetsCap in *. lia.
      * subst m. rewrite map_size_empty in Hfull. unfold invalidTipsetsCap in Hfull. lia.
    + split; [reflexivity|]. unfold invalidTipsetsCap in *. lia.
Qed.

Lemma evictTipsets_room (m : gmap Hash Header) :
  (size m < invalidTipsetsCap)%nat -> evictTipsets m = m.
Proof.
  intros Hroom. unfold evictTipsets. destruct (size m) eqn:E; simpl; [reflexivity|].
  rewrite E. destruct (decide _) as [Hfull|_]; [lia|reflexivity].
Qed.

Lemma evictTipsets_full (m : gmap Hash Header) :
  rangeFirst_spec ->
  (invalidTipsetsCap <= size m)%nat ->
  evictTipsets m ⊆ m /\ size (evictTipsets m) = (invalidTipsetsCap - 1)%nat.
Proof.
  intros Hspec Hfull. unfold evictTipsets.
  destruct (evictLoop_kept Hspec (size m) m) as [Hsub Hsize]; [lia|].
  split; [exact Hsub|]. rewrite Hsize. lia.
Qed.

(** ** The purge *)

Lemma purgeTipsets_lookup (badHash : Hash) (tipsets : gmap Hash Header) (k : Hash) :
  purgeTipsets badHash tipsets !! k =
    match tipsets !! k with
    | Some h => if decide (hHash h = badHash) then None else Some h
    | None => None
    end.
Proof.
  unfold purgeTipsets. rewrite map_lookup_filter.
  destruct (tipsets !! k) as [h|]; simpl; [|reflexivity].
  destruct (decide (hHash h = badHash)) as [Heq|Hne].
  - rewrite option_guard_False; [reflexivity|]. intros Hc. apply Hc. exact Heq.
  - rewrite option_guard_True; [reflexivity|]. exact Hne.
Qed.

(** ** C1: checkInvalidAncestor *)

(** C1, as the code has it.  A call [checkInvalidAncestor check head]:
    - when [check] is not a key of the tipset map, returns no rejection and
      leaves the API object as it is;
    - when [check] maps to a bad ancestor, first increments that ancestor's
      hit count; if the incremented count has reached the eviction threshold
      128, the hit-count entry and every tipset entry whose ancestor has that
      hash are deleted and no rejection is returned;
    - otherwise the incremented count is stored, [head] is mapped to the bad
      ancestor when it differs from [check] -- into the map as it is when
      this holds fewer than 512 entries, and else into a part of it with
      511 entries, whatever the iteration order of the map leaves -- and the
      rejection is INVALID, cites the parent of the bad ancestor (the zero
      hash if that parent has a non-zero difficulty) and gives the reason.
    Nothing outside the two tracker maps changes. *)
Theorem checkInvalidAncestor_spec (api : ConsensusAPI) (check head : Hash) :
  rangeFirst_spec ->
  (invalidTipsets api !! check = None ->
     checkInvalidAncestor api check head = (api, None)) /\
  (forall bad : Header,
     invalidTipsets api !! check = Some bad ->
     let count := intIncr (hitCount (invalidBlocksHits api) (hHash bad)) in
     (invalidBlockHitEviction <= count ->
        exists api',
          checkInvalidAncestor api check head = (api', None) /\
          sameOutsideTracker api api' /\
          invalidBlocksHits api' = delete (hHash bad) (invalidBlocksHits api) /\
          forall k : Hash,
            invalidTipsets api' !! k =
              match invalidTipsets api !! k with
              | Some h => if decide (hHash h = hHash bad) then None else Some h
              | None => None
              end) /\
     (count < invalidBlockHitEviction ->
        exists api' res,
          checkInvalidAncestor api check head = (api', Some res) /\
          sameOutsideTracker api api' /\
          invalidBlocksHits api' = <[hHash bad := count]> (invalidBlocksHits api) /\
          (check = head -> invalidTipsets api' = invalidTipsets api) /\
          (check <> head ->
             ((size (invalidTipsets api) < invalidTipsetsCap)%nat ->
                invalidTipsets api' = <[head := bad]> (invalidTipsets api)) /\
             ((invalidTipsetsCap <= size (invalidTipsets api))%nat ->
                exists kept : gmap Hash Header,
                  kept ⊆ invalidTipsets api /\
                  size kept = (invalidTipsetsCap - 1)%nat /\
                  invalidTipsets api' = <[head := bad]> kept)) /\
          Status res = INVALID /\
          LatestValidHash res = Some (lastValidOf (eth api) bad) /\
          ValidationError res = Some "links to previously rejected block"%string)).
Proof.
  intros Hspec. split.
  - intros Hnone. unfold checkInvalidAncestor. rewrite Hnone. reflexivity.
  - intros bad Hbad count. split.
    + intros Hfull. unfold checkInvalidAncestor. rewrite Hbad. fold count.
      rewrite (proj2 (Z.leb_le _ _) Hfull).
      eexists. split; [reflexivity|]. split; [repeat split|].
      split; [reflexivity|]. intros k. simpl. apply purgeTipsets_lookup.
    + intros Hbelow. unfold checkInvalidAncestor. rewrite Hbad. fold count.
      rewrite (proj2 (Z.leb_gt _ _) Hbelow).
      eexists. eexists. split; [reflexivity|]. split; [repeat split|].
      split; [reflexivity|]. simpl. split; [|split].
      * intros Heq. destruct (decide (check <> head)) as [Hne|_]; [contradiction|].
        reflexivity.
      * intros Hne. destruct (decide (check <> head)) as [_|Hn]; [|contradiction].
        split.
        -- intros Hroom. rewrite evictTipsets_room by exact Hroom. reflexivity.
        -- intros Hcap. exists (evictTipsets (invalidTipsets api)).
           destruct (evictTipsets_full (invalidTipsets api) Hspec Hcap) as [Hsub Hsize].
           auto.
      * split; [reflexivity|]. split; [|reflexivity].
        unfold lastValidOf. destruct (GetHeader _ _ _) as [parent|]; [|reflexivity].
        rewrite Sign_eqb_0. destruct (Difficulty parent =? 0); reflexivity.
Qed.

(** ** new-payload: C2, C3, C5 *)

Lemma checkInvalidAncestor_outside (api : ConsensusAPI) (check head : Hash) :
  sameOutsideTracker api (checkInvalidAncestor api check head).1.
Proof.
  unfold checkInvalidAncestor. destruct (invalidTipsets api !! check) as [bad|].
  - destruct (invalidBlockHitEviction <=? _); repeat split.
  - repeat split.
Qed.

Lemma checkInvalidAncestor_rejects (api api' : ConsensusAPI) (check head : Hash)
    (res : PayloadStatusV1) :
  checkInvalidAncestor api check head = (api', Some res) -> Status res = INVALID.
Proof.
  unfold checkInvalidAncestor. destruct (invalidTipsets api !! check) as [bad|].
  - destruct (invalidBlockHitEviction <=? _); intros [= <- <-]; reflexivity.
  - intros [= _ ?].
Qed.

(** The liveness timestamp is of no concern to the tracker. *)
Lemma checkInvalidAncestor_stamp (api : ConsensusAPI) (now : Z) (check head : Hash) :
  checkInvalidAncestor (set_lastNewPayloadUpdate api now) check head =
    (set_lastNewPayloadUpdate (checkInvalidAncestor api check head).1 now,
     (checkInvalidAncestor api check head).2).
Proof.
  unfold checkInvalidAncestor. simpl.
  destruct (invalidTipsets api !! check) as [bad|]; [|reflexivity].
  destruct (invalidBlockHitEviction <=? _); reflexivity.
Qed.

(** The part of [newPayload] that follows the taint check. *)
Lemma newPayload_untainted (api api' : ConsensusAPI) (params : ExecutableData)
    (versionedHashes : option (list Hash)) (beaconRoot : option Hash)
    (requests : option (list bytes)) (witness : bool) (now : Z) (block : Block) :
  decodesTo params versionedHashes beaconRoot requests block ->
  GetBlockByHash (eth api) (edBlockHash params) = None ->
  checkInvalidAncestor api (Block_Hash block) (Block_Hash block) = (api', None) ->
  eth (set_lastNewPayloadUpdate api' now) = eth api /\
  newPayload api params versionedHashes beaconRoot requests witness now =
    let api := set_lastNewPayloadUpdate api' now in
    match GetBlock (eth api) (Block_ParentHash block) (wrap64 (NumberU64 block - 1)) with
    | None =>
        let '(api, res) := delayPayloadImport api block in (api, (res, None))
    | Some parent =>
        if Block_Time block <=? Block_Time parent then
          (api, (invalid (errors_New "invalid timestamp") (Some (bHeader parent)), None))
        else if negb (bool_decide (GetSyncMode (eth api) = FullSync)) then
          let '(api, res) := delayPayloadImport api block in (api, (res, None))
        else if negb (HasBlockAndState (eth api) (Block_ParentHash block)
                        (wrap64 (NumberU64 block - 1))) then
          (set_remoteBlocks api
             (queue_put maxTrackedHeaders (Block_Hash block) (bHeader block)
                (remoteBlocks api)),
           (mkStatus ACCEPTED None None None, None))
        else
          let '(w, (proofs, err)) := InsertBlockWithoutSetHead (eth api) block witness in
          let api := set_eth api w in
          match err with
          | Some err =>
              (set_invalid api
                 (<[Block_Hash block := 1]> (invalidBlocksHits api))
                 (<[Block_Hash block := bHeader block]> (invalidTipsets api)),
               (invalid err (Some (bHeader parent)), None))
          | None =>
              (api, (mkStatus VALID (EncodeToBytes <$> proofs)
                       (Some (Block_Hash block)) None, None))
          end
    end.
Proof.
  intros [Hextra Hdec] Hunknown Hcheck.
  pose proof (checkInvalidAncestor_outside api (Block_Hash block) (Block_Hash block)) as Hout.
  rewrite Hcheck in Hout. destruct Hout as (Heth & _).
  split; [exact Heth|].
  unfold newPayload. rewrite Hextra, Hdec. simpl eth at 1. rewrite Hunknown.
  rewrite checkInvalidAncestor_stamp, Hcheck. simpl. reflexivity.
Qed.

(** A delayed import never answers VALID. *)
Lemma delayPayloadImport_not_valid (api api' : ConsensusAPI) (block : Block)
    (res : PayloadStatusV1) :
  delayPayloadImport api block = (api', res) -> Status res <> VALID.
Proof.
  unfold delayPayloadImport.
  destruct (checkInvalidAncestor api (Block_ParentHash block) (Block_Hash block))
    as [a3 [r|]] eqn:Hc.
  - intros [= _ <-]. apply checkInvalidAncestor_rejects in Hc. congruence.
  - destruct (BeaconExtend _ _ _) as [w2 [e|]]; intros [= _ <-]; discriminate.
Qed.

(** C2.  A new-payload call whose payload decodes to a block whose hash is
    already known locally returns VALID with the hash of the known block as
    latest valid hash; the block is not executed again and the node is left
    as it is: of the API object only the liveness timestamp changes.  Hence
    a second call with the same input after a call that returned VALID
    returns VALID again, by the already-known path -- given that a block
    inserted without error is known afterwards and that the decoder only
    returns blocks that hash to the hash the payload carries. *)
Theorem newPayload_known (api : ConsensusAPI) (params : ExecutableData)
    (versionedHashes : option (list Hash)) (beaconRoot : option Hash)
    (requests : option (list bytes)) (witness : bool) (block : Block) :
  decodesTo params versionedHashes beaconRoot requests block ->
  (forall (now : Z) (known : Block),
     GetBlockByHash (eth api) (edBlockHash params) = Some known ->
     newPayload api params versionedHashes beaconRoot requests witness now =
       (set_lastNewPayloadUpdate api now,
        (mkStatus VALID None (Some (Block_Hash known)) None, None))) /\
  ((forall (w w' : W) (b : Block) (wit : bool) (proofs : option Proofs),
      InsertBlockWithoutSetHead w b wit = (w', (proofs, None)) ->
      is_Some (GetBlockByHash w' (Block_Hash b))) ->
   Block_Hash block = edBlockHash params ->
   forall (now now' : Z) (api1 : ConsensusAPI) (st : PayloadStatusV1) (err : option error),
     newPayload api params versionedHashes beaconRoot requests witness now
       = (api1, (st, err)) ->
     Status st = VALID ->
     exists known : Block,
       GetBlockByHash (eth api1) (edBlockHash params) = Some known /\
       newPayload api1 params versionedHashes beaconRoot requests witness now' =
         (set_lastNewPayloadUpdate api1 now',
          (mkStatus VALID None (Some (Block_Hash known)) None, None))).
Proof.
  intros Hdec.
  assert (Hknown : forall (a : ConsensusAPI) (now : Z) (known : Block),
     GetBlockByHash (eth a) (edBlockHash params) = Some known ->
     newPayload a params versionedHashes beaconRoot requests witness now =
       (set_lastNewPayloadUpdate a now,
        (mkStatus VALID None (Some (Block_Hash known)) None, None))).
  { intros a now known Hk. destruct Hdec as [Hextra Hd].
    unfold newPayload. rewrite Hextra, Hd. simpl eth. rewrite Hk. reflexivity. }
  split; [apply Hknown|].
  intros Hinsert Hhash now now' api1 st err Hcall Hvalid.
  destruct (GetBlockByHash (eth api) (edBlockHash params)) as [known|] eqn:Hk.
  - rewrite (Hknown api now known Hk) in Hcall. injection Hcall as <- _ _.
    exists known. split; [exact Hk|]. apply Hknown. exact Hk.
  - destruct (checkInvalidAncestor api (Block_Hash block) (Block_Hash block))
      as [api' [res|]] eqn:Hcheck.
    + exfalso. destruct Hdec as [Hextra Hd].
      unfold newPayload in Hcall. rewrite Hextra, Hd in Hcall. simpl eth in Hcall.
      rewrite Hk, checkInvalidAncestor_stamp, Hcheck in Hcall. simpl in Hcall.
      injection Hcall as _ <- _.
      apply checkInvalidAncestor_rejects in Hcheck. congruence.
    + destruct (newPayload_untainted api api' params versionedHashes beaconRoot
                  requests witness now block Hdec Hk Hcheck) as [Heth Hrest].
      rewrite Hrest in Hcall. clear Hrest. cbv zeta in Hcall.
      set (a := set_lastNewPayloadUpdate api' now) in *.
      destruct (GetBlock (eth a) _ _) as [parent|].
      * destruct (Block_Time block <=? Block_Time parent).
        { injection Hcall as _ <- _. discriminate. }
        destruct (negb (bool_decide (GetSyncMode (eth a) = FullSync))).
        { destruct (delayPayloadImport a block) as [a2 r] eqn:Hd2.
          injection Hcall as _ <- _. exfalso. exact (delayPayloadImport_not_valid _ _ _ _ Hd2 Hvalid). }
        destruct (negb (HasBlockAndState _ _ _)).
        { injection Hcall as _ <- _. discriminate. }
        destruct (InsertBlockWithoutSetHead (eth a) block witness)
          as [w2 [proofs [e|]]] eqn:Hins.
        { injection Hcall as _ <- _. discriminate. }
        injection Hcall as <- _ _.
        destruct (Hinsert _ _ _ _ _ Hins) as [known Hk2].
        rewrite Hhash in Hk2. exists known.
        split; [exact Hk2|]. apply Hknown. exact Hk2.
      * destruct (delayPayloadImport a block) as [a2 r] eqn:Hd2.
        injection Hcall as _ <- _. exfalso. exact (delayPayloadImport_not_valid _ _ _ _ Hd2 Hvalid).
Qed.

(** C3.  A new-payload call whose payload decodes to a block that is not
    known yet and not rejected by the taint check, whose parent is known and
    whose timestamp is not after the parent's, returns INVALID with the
    parent as latest valid block: the parent's hash, or the zero hash when
    the parent has a non-zero difficulty.  Nothing else of the block is
    looked at, and the node is left as it is. *)
Theorem newPayload_timestamp (api api' : ConsensusAPI) (params : ExecutableData)
    (versionedHashes : option (list Hash)) (beaconRoot : option Hash)
    (requests : option (list bytes)) (witness : bool) (now : Z)
    (block parent : Block) :
  decodesTo params versionedHashes beaconRoot requests block ->
  GetBlockByHash (eth api) (edBlockHash params) = None ->
  checkInvalidAncestor api (Block_Hash block) (Block_Hash block) = (api', None) ->
  GetBlock (eth api) (Block_ParentHash block) (wrap64 (NumberU64 block - 1))
    = Some parent ->
  Block_Time block <= Block_Time parent ->
  exists st : PayloadStatusV1,
    newPayload api params versionedHashes beaconRoot requests witness now
      = (set_lastNewPayloadUpdate api' now, (st, None)) /\
    eth api' = eth api /\
    Status st = INVALID /\
    LatestValidHash st =
      Some (if Block_Difficulty parent =? 0 then Block_Hash parent else zeroHash) /\
    ValidationError st = Some (Error (errors_New "invalid timestamp")).
Proof.
  intros Hdec Hunknown Hcheck Hparent Htime.
  destruct (newPayload_untainted api api' params versionedHashes beaconRoot
              requests witness now block Hdec Hunknown Hcheck) as [Heth Hrest].
  rewrite Hrest. cbv zeta. rewrite Heth, Hparent.
  rewrite (proj2 (Z.leb_le _ _) Htime).
  eexists. split; [reflexivity|]. split; [exact Heth|]. split; [reflexivity|].
  split; [|reflexivity]. simpl. rewrite BitLen_eqb_0.
  unfold Block_Difficulty, Block_Hash. destruct (Difficulty (bHeader parent) =? 0); reflexivity.
Qed.

(** C5.  A new-payload call that reaches the execution of the block (the
    payload decodes, the block is neither known nor rejected by the taint
    check, its parent is known with an earlier timestamp, the node is in
    full sync and has the parent's state) and whose insertion fails leaves
    the tracker with hit count 1 for the block's hash and with a tipset
    entry from the block's hash to the block's own header, and returns
    INVALID with the parent's hash as latest valid hash -- the zero hash if
    the parent's difficulty is not zero -- and the text of the execution
    error as validation error. *)
Theorem newPayload_insert_failed (api api' : ConsensusAPI) (params : ExecutableData)
    (versionedHashes : option (list Hash)) (beaconRoot : option Hash)
    (requests : option (list bytes)) (witness : bool) (now : Z)
    (block parent : Block) (w' : W) (proofs : option Proofs) (err : error) :
  decodesTo params versionedHashes beaconRoot requests block ->
  GetBlockByHash (eth api) (edBlockHash params) = None ->
  checkInvalidAncestor api (Block_Hash block) (Block_Hash block) = (api', None) ->
  GetBlock (eth api) (Block_ParentHash block) (wrap64 (NumberU64 block - 1))
    = Some parent ->
  Block_Time parent < Block_Time block ->
  GetSyncMode (eth api) = FullSync ->
  HasBlockAndState (eth api) (Block_ParentHash block) (wrap64 (NumberU64 block - 1))
    = true ->
  InsertBlockWithoutSetHead (eth api) block witness = (w', (proofs, Some err)) ->
  exists (api2 : ConsensusAPI) (st : PayloadStatusV1),
    newPayload api params versionedHashes beaconRoot requests witness now
      = (api2, (st, None)) /\
    invalidBlocksHits api2 !! Block_Hash block = Some 1 /\
    invalidTipsets api2 !! Block_Hash block = Some (bHeader block) /\
    Status st = INVALID /\
    LatestValidHash st =
      Some (if Block_Difficulty parent =? 0 then Block_Hash parent else zeroHash) /\
    ValidationError st = Some (Error err).
Proof.
  intros Hdec Hunknown Hcheck Hparent Htime Hmode Hstate Hins.
  destruct (newPayload_untainted api api' params versionedHashes beaconRoot
              requests witness now block Hdec Hunknown Hcheck) as [Heth Hrest].
  rewrite Hrest. cbv zeta. rewrite Heth, Hparent.
  rewrite (proj2 (Z.leb_gt _ _) Htime), Hmode, Hstate, Hins.
  rewrite bool_decide_eq_true_2 by reflexivity. simpl.
  eexists. eexists. split; [reflexivity|]. simpl.
  split; [apply lookup_insert_eq|]. split; [apply lookup_insert_eq|].
  split; [reflexivity|]. split; [|reflexivity].
  rewrite BitLen_eqb_0. unfold Block_Difficulty, Block_Hash.
  destruct (Difficulty (bHeader parent) =? 0); reflexivity.
Qed.

(** ** fork-choice-update: C4, C6 *)

(** C6.  A fork-choice-update whose head hash is the zero hash returns
    INVALID without an error and has no effect at all: the API object, and
    with it the node behind it, is returned as it came -- no liveness
    timestamp, no pointer, no cache or tracker entry, no sync. *)
Theorem forkchoiceUpdated_zero_head (api : ConsensusAPI) (update : ForkchoiceStateV1)
    (payloadAttributes : option PayloadAttributes) (payloadVersion : PayloadVersion)
    (payloadWitness : bool) (now : Z) :
  HeadBlockHash update = zeroHash ->
  exists res : ForkChoiceResponse,
    forkchoiceUpdated api update payloadAttributes payloadVersion payloadWitness now
      = (api, (res, None)) /\
    Status (fcStatus res) = INVALID /\
    LatestValidHash (fcStatus res) = None /\
    PayloadID res = None.
Proof.
  intros Hzero. unfold forkchoiceUpdated.
  rewrite bool_decide_eq_true_2 by exact Hzero.
  exists STATUS_INVALID. repeat split.
Qed.

(** The decoding loop returns the transactions when every one of them
    decodes, and stops at the first that does not, naming its index. *)
Lemma decodeTransactions_all (i : Z) (otxs : list bytes) (txs : list Tx) :
  Forall2 (fun otx tx => UnmarshalBinary otx = inl tx) otxs txs ->
  decodeTransactions i otxs = inl txs.
Proof.
  intros Hall. revert i.
  induction Hall as [|otx tx otxs txs Hotx _ IH]; intros i; [reflexivity|].
  simpl. rewrite Hotx, IH. reflexivity.
Qed.

Lemma decodeTransactions_stops (i : Z) (pre : list bytes) (otx : bytes)
    (post : list bytes) (txs : list Tx) (err : error) :
  Forall2 (fun otx tx => UnmarshalBinary otx = inl tx) pre txs ->
  UnmarshalBinary otx = inr err ->
  decodeTransactions i (pre ++ otx :: post)
    = inr (fmt_Errorf "transaction %d is not valid: %v"
             [ArgNum (i + Z.of_nat (length pre)); ArgText (Error err)]).
Proof.
  intros Hall Hotx. revert i.
  induction Hall as [|otx' tx pre txs Hotx' _ IH]; intros i.
  - simpl app. simpl decodeTransactions. rewrite Hotx.
    change (Z.of_nat (length (@nil bytes))) with 0. rewrite Z.add_0_r. reflexivity.
  - simpl app. simpl decodeTransactions. rewrite Hotx', IH.
    simpl length. rewrite Nat2Z.inj_succ.
    replace (i + 1 + Z.of_nat (length pre)) with (i + Z.succ (Z.of_nat (length pre)))
      by lia.
    reflexivity.
Qed.

(** C4.  The head of a fork-choice-update is known locally, passes the
    check against walking back across the merge, is on the canonical chain
    and is not the current head.

    Without the Optimism config the update is ignored: the call returns at
    once, VALID with the head as latest valid hash, no payload ID and no
    error, whatever attributes came with it; the node and the payload cache
    are as they were, only the liveness timestamp of the API object has
    changed.

    With the Optimism config the call goes on, and whatever it returns, the
    node has been marked synced by [SetSynced].  A finalized hash in the
    update must name a known block of the canonical chain, else the call
    fails with INVALID and an InvalidForkChoiceState error; the block is
    then made the finalized one by [SetFinalized].  Likewise the safe hash,
    on the node that results, with [SetSafe].  On the node [pointed] that
    results payload generation runs.  With no attributes the answer is VALID
    with no payload ID.  Attributes without a gas limit, with EIP-1559
    parameters that are refused after Holocene or present before it, or
    with a transaction that does not decode, fail the call with INVALID.
    Else the build arguments are taken from the update and the attributes:
    a payload whose ID is in the cache is answered VALID with this ID and
    not built again; one whose ID is not there is built by [BuildPayload],
    put in the cache under its ID and answered VALID with this ID; when the
    build fails the answer is VALID with no payload ID, together with an
    InvalidPayloadAttributes error. *)
Theorem forkchoiceUpdated_old_head (api : ConsensusAPI) (update : ForkchoiceStateV1)
    (payloadAttributes : option PayloadAttributes) (payloadVersion : PayloadVersion)
    (payloadWitness : bool) (now : Z) (block : Block) :
  HeadBlockHash update <> zeroHash ->
  GetBlockByHash (eth api) (HeadBlockHash update) = Some block ->
  checkTerminalBlock api block = None ->
  ReadCanonicalHash (eth api) (NumberU64 block) = HeadBlockHash update ->
  hHash (CurrentBlock (eth api)) <> HeadBlockHash update ->
  let call :=
    forkchoiceUpdated api update payloadAttributes payloadVersion payloadWitness now in
  (* the API object after the call: its node, its payload cache, and the
     time of the call as the time of the last fork-choice-update *)
  let after (w : W) (cache : list (bytes * Payload)) :=
    mkAPI w (remoteBlocks api) cache (invalidBlocksHits api) (invalidTipsets api)
      (lastTransitionUpdate api) now (lastNewPayloadUpdate api) in
  let answer (id : option bytes) :=
    mkResponse (mkStatus VALID None (Some (HeadBlockHash update)) None) id in
  let refused := mkResponse (mkStatus INVALID None None None) None in
  let decodes := Forall2 (fun (otx : bytes) (tx : Tx) => UnmarshalBinary otx = inl tx) in
  let synced := SetSynced (eth api) in
  (Optimism Config = None ->
     call = (after (eth api) (localBlocks api), (answer None, None))) /\
  (Optimism Config <> None ->
     (* the finalized block is checked *)
     (FinalizedBlockHash update <> zeroHash ->
        (GetBlockByHash synced (FinalizedBlockHash update) = None ->
           call = (after synced (localBlocks api),
                   (refused,
                    Some (With InvalidForkChoiceState
                            (errors_New "final block not available in database"))))) /\
        (forall finalBlock : Block,
           GetBlockByHash synced (FinalizedBlockHash update) = Some finalBlock ->
           ReadCanonicalHash synced (NumberU64 finalBlock) <> FinalizedBlockHash update ->
           call = (after synced (localBlocks api),
                   (refused,
                    Some (With InvalidForkChoiceState
                            (errors_New "final block not in canonical chain")))))) /\
     (* and set *)
     (forall final : W,
        (FinalizedBlockHash update = zeroHash /\ final = synced) \/
        (exists finalBlock : Block,
           FinalizedBlockHash update <> zeroHash /\
           GetBlockByHash synced (FinalizedBlockHash update) = Some finalBlock /\
           ReadCanonicalHash synced (NumberU64 finalBlock) = FinalizedBlockHash update /\
           final = SetFinalized synced (bHeader finalBlock)) ->
        (* the safe block is checked *)
        (SafeBlockHash update <> zeroHash ->
           (GetBlockByHash final (SafeBlockHash update) = None ->
              call = (after final (localBlocks api),
                      (refused,
                       Some (With InvalidForkChoiceState
                               (errors_New "safe block not available in database"))))) /\
           (forall safeBlock : Block,
              GetBlockByHash final (SafeBlockHash update) = Some safeBlock ->
              ReadCanonicalHash final (NumberU64 safeBlock) <> SafeBlockHash update ->
              call = (after final (localBlocks api),
                      (refused,
                       Some (With InvalidForkChoiceState
                               (errors_New "safe block not in canonical chain")))))) /\
        (* and set *)
        (forall pointed : W,
           (SafeBlockHash update = zeroHash /\ pointed = final) \/
           (exists safeBlock : Block,
              SafeBlockHash update <> zeroHash /\
              GetBlockByHash final (SafeBlockHash update) = Some safeBlock /\
              ReadCanonicalHash final (NumberU64 safeBlock) = SafeBlockHash update /\
              pointed = SetSafe final (bHeader safeBlock)) ->
           (* payload generation *)
           match payloadAttributes with
           | None => call = (after pointed (localBlocks api), (answer None, None))
           | Some pa =>
               (paGasLimit pa = None ->
                  call = (after pointed (localBlocks api),
                          (refused,
                           Some (With InvalidPayloadAttributes
                                   (errors_New "gasLimit parameter is required"))))) /\
               (paGasLimit pa <> None ->
                  (IsHolocene Config (paTimestamp pa) = true ->
                   forall err : error,
                     ValidateHolocene1559Params (paEIP1559Params pa) = Some err ->
                     call = (after pointed (localBlocks api),
                             (refused, Some (With InvalidPayloadAttributes err)))) /\
                  (IsHolocene Config (paTimestamp pa) = false ->
                   length (paEIP1559Params pa) <> 0%nat ->
                   call = (after pointed (localBlocks api),
                           (refused,
                            Some (With InvalidPayloadAttributes
                                    (errors_New
                                       "eip155Params not supported prior to Holocene upgrade"))))) /\
                  (forall eip1559Params : bytes,
                     (IsHolocene Config (paTimestamp pa) = true /\
                      ValidateHolocene1559Params (paEIP1559Params pa) = None /\
                      eip1559Params = paEIP1559Params pa) \/
                     (IsHolocene Config (paTimestamp pa) = false /\
                      length (paEIP1559Params pa) = 0%nat /\
                      eip1559Params = []) ->
                     (forall (pre : list bytes) (otx : bytes) (post : list bytes)
                             (txs : list Tx) (err : error),
                        paTransactions pa = pre ++ otx :: post ->
                        decodes pre txs ->
                        UnmarshalBinary otx = inr err ->
                        call = (after pointed (localBlocks api),
                                (refused,
                                 Some (fmt_Errorf "transaction %d is not valid: %v"
                                         [ArgNum (Z.of_nat (length pre));
                                          ArgText (Error err)])))) /\
                     (forall transactions : list Tx,
                        decodes (paTransactions pa) transactions ->
                        let args :=
                          mkBuildArgs (HeadBlockHash update) (paTimestamp pa)
                            (paSuggestedFeeRecipient pa) (paRandom pa) (paWithdrawals pa)
                            (paBeaconRoot pa) (paNoTxPool pa) transactions (paGasLimit pa)
                            payloadVersion eip1559Params in
                        (queue_has (Id args) (localBlocks api) = true ->
                           call = (after pointed (localBlocks api),
                                   (answer (Some (Id args)), None))) /\
                        (queue_has (Id args) (localBlocks api) = false ->
                         forall (w : W) (built : Payload + error),
                           BuildPayload pointed args payloadWitness = (w, built) ->
                           match built with
                           | inl payload =>
                               call = (after w (queue_put maxTrackedPayloads (Id args)
                                                  payload (localBlocks api)),
                                       (answer (Some (Id args)), None))
                           | inr err =>
                               call = (after w (localBlocks api),
                                       (answer None,
                                        Some (With InvalidPayloadAttributes err)))
                           end))))
           end))).
Proof.
  intros Hhead Hblock Hterm Hcanon Htip call after answer refused decodes synced.
  assert (Hstep : call =
                  if bool_decide (Optimism Config = None)
                  then (after (eth api) (localBlocks api), (answer None, None))
                  else fcuFinalized (after synced (localBlocks api)) update
                         payloadAttributes payloadVersion payloadWitness).
  { subst call. unfold forkchoiceUpdated.
    rewrite bool_decide_eq_false_2 by exact Hhead.
    change (eth (set_lastForkchoiceUpdate api now)) with (eth api).
    rewrite Hblock.
    change (checkTerminalBlock (set_lastForkchoiceUpdate api now) block)
      with (checkTerminalBlock api block).
    rewrite Hterm, Hcanon.
    rewrite bool_decide_eq_true_2 by reflexivity. simpl negb. cbv iota.
    rewrite (bool_decide_eq_false_2 _ Htip). reflexivity. }
  split.
  { intros Hop. rewrite Hstep, bool_decide_eq_true_2 by exact Hop. reflexivity. }
  intros Hop. rewrite Hstep, bool_decide_eq_false_2 by exact Hop.
  clear Hstep. unfold fcuFinalized. change (eth (after synced (localBlocks api))) with synced.
  split.
  { intros Hfin. rewrite (bool_decide_eq_false_2 _ Hfin). simpl negb. cbv iota. split.
    - intros Hnone. rewrite Hnone. reflexivity.
    - intros finalBlock Hfb Hnc. rewrite Hfb, (bool_decide_eq_false_2 _ Hnc). reflexivity. }
  intros final Hfinal.
  assert (Hto : (if negb (bool_decide (FinalizedBlockHash update = zeroHash))
                 then
                   match GetBlockByHash synced (FinalizedBlockHash update) with
                   | Some finalBlock =>
                       if negb (bool_decide
                                  (ReadCanonicalHash synced (NumberU64 finalBlock)
                                   = FinalizedBlockHash update))
                       then (after synced (localBlocks api),
                             (STATUS_INVALID,
                              Some (With InvalidForkChoiceState
                                      (errors_New "final block not in canonical chain"))))
                       else fcuSafe (set_eth (after synced (localBlocks api))
                                       (SetFinalized synced (bHeader finalBlock)))
                              update payloadAttributes payloadVersion payloadWitness
                   | None =>
                       (after synced (localBlocks api),
                        (STATUS_INVALID,
                         Some (With InvalidForkChoiceState
                                 (errors_New "final block not available in database"))))
                   end
                 else fcuSafe (after synced (localBlocks api)) update payloadAttributes
                        payloadVersion payloadWitness)
                = fcuSafe (after final (localBlocks api)) update payloadAttributes
                    payloadVersion payloadWitness).
  { destruct Hfinal as [[Hfin ->] | (finalBlock & Hfin & Hfb & Hfc & ->)].
    - rewrite bool_decide_eq_true_2 by exact Hfin. reflexivity.
    - rewrite (bool_decide_eq_false_2 _ Hfin). simpl negb. cbv iota.
      rewrite Hfb, Hfc. rewrite bool_decide_eq_true_2 by reflexivity. reflexivity. }
  rewrite Hto. clear Hto Hfinal.
  unfold fcuSafe. change (eth (after final (localBlocks api))) with final.
  split.
  { intros Hsafe. rewrite (bool_decide_eq_false_2 _ Hsafe). simpl negb. cbv iota. split.
    - intros Hnone. rewrite Hnone. reflexivity.
    - intros safeBlock Hsb Hnc. rewrite Hsb, (bool_decide_eq_false_2 _ Hnc). reflexivity. }
  intros pointed Hpointed.
  assert (Hto : (if negb (bool_decide (SafeBlockHash update = zeroHash))
                 then
                   match GetBlockByHash final (SafeBlockHash update) with
                   | Some safeBlock =>
                       if negb (bool_decide
                                  (ReadCanonicalHash final (NumberU64 safeBlock)
                                   = SafeBlockHash update))
                       then (after final (localBlocks api),
                             (STATUS_INVALID,
                              Some (With InvalidForkChoiceState
                                      (errors_New "safe block not in canonical chain"))))
                       else fcuBuildPayload (set_eth (after final (localBlocks api))
                                               (SetSafe final (bHeader safeBlock)))
                              update payloadAttributes payloadVersion payloadWitness
                   | None =>
                       (after final (localBlocks api),
                        (STATUS_INVALID,
                         Some (With InvalidForkChoiceState
                                 (errors_New "safe block not available in database"))))
                   end
                 else fcuBuildPayload (after final (localBlocks api)) update
                        payloadAttributes payloadVersion payloadWitness)
                = fcuBuildPayload (after pointed (localBlocks api)) update
                    payloadAttributes payloadVersion payloadWitness).
  { destruct Hpointed as [[Hsafe ->] | (safeBlock & Hsafe & Hsb & Hsc & ->)].
    - rewrite bool_decide_eq_true_2 by exact Hsafe. reflexivity.
    - rewrite (bool_decide_eq_false_2 _ Hsafe). simpl negb. cbv iota.
      rewrite Hsb, Hsc. rewrite bool_decide_eq_true_2 by reflexivity. reflexivity. }
  rewrite Hto. clear Hto Hpointed.
  unfold fcuBuildPayload.
  destruct payloadAttributes as [pa|]; [|reflexivity].
  unfold checkAttributes. rewrite (bool_decide_eq_false_2 _ Hop).
  change (eth (after pointed (localBlocks api))) with pointed.
  change (localBlocks (after pointed (localBlocks api))) with (localBlocks api).
  split.
  { intros Hgas. rewrite bool_decide_eq_true_2 by exact Hgas. reflexivity. }
  intros Hgas. rewrite (bool_decide_eq_false_2 _ Hgas).
  split; [|split].
  { intros Hholo err Herr. rewrite Hholo, Herr. reflexivity. }
  { intros Hholo Hlen. rewrite Hholo.
    destruct (length (paEIP1559Params pa) =? 0)%nat eqn:E.
    - apply Nat.eqb_eq in E. contradiction.
    - reflexivity. }
  intros eip1559Params Hpass.
  assert (Hto : (if IsHolocene Config (paTimestamp pa)
                 then
                   match ValidateHolocene1559Params (paEIP1559Params pa) with
                   | Some err => inr (With InvalidPayloadAttributes err)
                   | None => inl (paEIP1559Params pa)
                   end
                 else
                   if negb (length (paEIP1559Params pa) =? 0)%nat
                   then inr (With InvalidPayloadAttributes
                               (errors_New
                                  "eip155Params not supported prior to Holocene upgrade"))
                   else inl [])
                = (inl eip1559Params : bytes + error)).
  { destruct Hpass as [(Hholo & Hok & ->) | (Hholo & Hlen & ->)]; rewrite Hholo.
    - rewrite Hok. reflexivity.
    - rewrite Hlen. reflexivity. }
  rewrite Hto. clear Hto Hpass.
  split.
  { intros pre otx post txs err Hsplit Hpre Hotx.
    rewrite Hsplit, (decodeTransactions_stops 0 pre otx post txs err Hpre Hotx).
    reflexivity. }
  intros transactions Hdec. cbv zeta.
  rewrite (decodeTransactions_all 0 _ _ Hdec).
  split.
  { intros Hhas. rewrite Hhas. reflexivity. }
  intros Hhas w built Hbuilt. rewrite Hhas, Hbuilt.
  destruct built as [payload|err]; reflexivity.
Qed.

(** ** Payload bodies: C7, C10 *)

Lemma Uint64_range (x : Z) : 0 <= Uint64 x < 2 ^ 64.
Proof.
  unfold Uint64. rewrite Z.land_ones by lia. apply Z.mod_pos_bound. lia.
Qed.

(** The loop appends the bodies of [i], [i+1], ..., [last], in this order,
    provided the counter cannot wrap and the fuel covers the turns. *)
Lemma bodiesLoop_run (api : ConsensusAPI) (last : Z) :
  last < 2 ^ 64 - 1 ->
  forall (fuel : nat) (i : Z) (bodies : list (option ExecutionPayloadBody)),
    0 <= i ->
    (Z.to_nat (last - i + 1) < fuel)%nat ->
    bodiesLoop fuel api i last bodies
      = Some (bodies ++ (bodyAt api <$> seqZ i (last - i + 1))).
Proof.
  intros Hlast fuel. induction fuel as [|fuel IH]; intros i bodies Hi Hfuel; [lia|].
  simpl. destruct (i <=? last) eqn:Hle.
  - apply Z.leb_le in Hle. rewrite wrap64_small by lia.
    rewrite IH by lia. rewrite (seqZ_cons i (last - i + 1)) by lia.
    rewrite fmap_cons, <- app_assoc. simpl.
    replace (Z.succ i) with (i + 1) by lia.
    replace (Z.pred (last - i + 1)) with (last - (i + 1) + 1) by lia.
    reflexivity.
  - apply Z.leb_gt in Hle. rewrite seqZ_nil by lia. rewrite app_nil_r. reflexivity.
Qed.

(** Whatever the loop returns, every entry it adds is the body of some
    block number. *)
Lemma bodiesLoop_entries (api : ConsensusAPI) (last : Z) (fuel : nat) :
  forall (i : Z) (bodies result : list (option ExecutionPayloadBody)),
    bodiesLoop fuel api i last bodies = Some result ->
    Forall (fun entry => exists n : Z, entry = bodyAt api n) bodies ->
    Forall (fun entry => exists n : Z, entry = bodyAt api n) result.
Proof.
  induction fuel as [|fuel IH]; intros i bodies result; simpl; [discriminate|].
  destruct (i <=? last).
  - intros Hrun Hall. apply (IH _ _ _ Hrun).
    apply Forall_app. split; [exact Hall|]. constructor; [|constructor].
    exists i. reflexivity.
  - intros [= <-] Hall. exact Hall.
Qed.

(** C7.  For [start] and [count] in the range of [uint64]:
    - a zero [start] or [count] fails with the invalid-params error;
    - a [count] above 1024 fails with the too-large-request error, so that
      the call with start 1 and count 2000 is rejected, not clipped;
    - otherwise the call returns the bodies of the block numbers from
      [start] to [min (start + count - 1) current], one each and in this
      order, where [current] is the height of the chain (taken at least
      1024 below the largest [uint64], so that no counter wraps). *)
Theorem getBodiesByRange_spec (api : ConsensusAPI) (start count : Z) (fuel : nat) :
  0 <= start < 2 ^ 64 ->
  0 <= count < 2 ^ 64 ->
  (start = 0 \/ count = 0 ->
     getBodiesByRange fuel api start count =
       Some (inr (With InvalidParams
                    (fmt_Errorf "invalid start or count, start: %v count: %v"
                       [ArgNum start; ArgNum count])))) /\
  (start <> 0 -> 1024 < count ->
     getBodiesByRange fuel api start count =
       Some (inr (With TooLargeRequest
                    (fmt_Errorf "requested count too large: %v" [ArgNum count])))) /\
  getBodiesByRange fuel api 1 2000 =
    Some (inr (With TooLargeRequest
                 (fmt_Errorf "requested count too large: %v" [ArgNum 2000]))) /\
  (start <> 0 -> count <> 0 -> count <= 1024 ->
     let current := Uint64 (Number (CurrentBlock (eth api))) in
     current < 2 ^ 64 - 1024 ->
     (Z.to_nat count < fuel)%nat ->
     let last := Z.min (start + count - 1) current in
     getBodiesByRange fuel api start count =
       Some (inl (bodyAt api <$> seqZ start (last - start + 1)))).
Proof.
  intros Hstart Hcount. split; [|split; [|split]].
  - unfold getBodiesByRange.
    intros [-> | ->]; [reflexivity|]. rewrite orb_true_r. reflexivity.
  - intros Hs Hc. unfold getBodiesByRange.
    rewrite (proj2 (Z.eqb_neq start 0) Hs), (proj2 (Z.eqb_neq count 0)) by lia.
    simpl. rewrite (proj2 (Z.ltb_lt _ _) Hc). reflexivity.
  - reflexivity.
  - intros Hs Hc Hmax current Hcur Hfuel last. unfold getBodiesByRange.
    rewrite (proj2 (Z.eqb_neq start 0) Hs), (proj2 (Z.eqb_neq count 0) Hc).
    simpl orb. cbv iota. rewrite (proj2 (Z.ltb_ge _ _) Hmax). fold current.
    pose proof (Uint64_range (Number (CurrentBlock (eth api)))) as Hrange.
    fold current in Hrange.
    destruct (Z_lt_ge_dec (start + count) (2 ^ 64 + 1)) as [Hfit|Hwrap].
    + (* start + count - 1 is a uint64 *)
      assert (wrap64 (wrap64 (start + count) - 1) = start + count - 1) as ->.
      { destruct (Z.eq_dec (start + count) (2 ^ 64)) as [Heq|Hne].
        - rewrite Heq. reflexivity.
        - rewrite (wrap64_small (start + count)) by lia.
          apply wrap64_small. lia. }
      assert ((if current <? start + count - 1 then current else start + count - 1)
              = last) as ->.
      { subst last. destruct (current <? start + count - 1) eqn:E.
        - apply Z.ltb_lt in E. lia.
        - apply Z.ltb_ge in E. lia. }
      rewrite bodiesLoop_run; [reflexivity| subst last; lia | lia | subst last; lia].
    + (* the sum wraps: the loop does not run, and nothing lies between
         [start] and the height *)
      assert (wrap64 (wrap64 (start + count) - 1) = start + count - 1 - 2 ^ 64) as ->.
      { unfold wrap64.
        replace ((start + count) mod 2 ^ 64) with (start + count - 2 ^ 64).
        - rewrite Z.mod_small by lia. lia.
        - apply Z.mod_unique with (q := 1); lia. }
      set (l := if current <? start + count - 1 - 2 ^ 64 then current
                else start + count - 1 - 2 ^ 64).
      assert (l < start) as Hl.
      { subst l. destruct (current <? start + count - 1 - 2 ^ 64); lia. }
      assert (0 <= l) as Hl0.
      { subst l. destruct (current <? start + count - 1 - 2 ^ 64); lia. }
      rewrite bodiesLoop_run; [| lia | lia | lia].
      rewrite (seqZ_nil start (l - start + 1)) by lia.
      rewrite (seqZ_nil start (last - start + 1)) by (subst last; lia).
      reflexivity.
Qed.

(** C10.  The body built from a known block whose header carries a
    withdrawals hash has a withdrawals list that is not nil: it is the
    block's list, and the empty list when the block's list is nil.  The
    result by hash has one entry per hash, built by [getBody] from what the
    chain knows under that hash: an unknown hash gives a nil entry at its
    position.  Every entry of a result by range is built by [getBody]
    too. *)
Theorem getBody_withdrawals (api : ConsensusAPI) :
  (forall block : Block,
     WithdrawalsHash (bHeader block) <> None ->
     exists body : ExecutionPayloadBody,
       getBody (Some block) = Some body /\
       Withdrawals body = Some (default [] (bWithdrawals block)) /\
       (bWithdrawals block = None -> Withdrawals body = Some [])) /\
  (forall hashes : list Hash,
     length (GetPayloadBodiesByHashV1 api hashes) = length hashes /\
     GetPayloadBodiesByHashV2 api hashes = GetPayloadBodiesByHashV1 api hashes /\
     forall (i : nat) (hash : Hash),
       hashes !! i = Some hash ->
       GetPayloadBodiesByHashV1 api hashes !! i
         = Some (getBody (GetBlockByHash (eth api) hash)) /\
       (GetBlockByHash (eth api) hash = None ->
          GetPayloadBodiesByHashV1 api hashes !! i = Some None)) /\
  (forall (fuel : nat) (start count : Z) (bodies : list (option ExecutionPayloadBody)),
     getBodiesByRange fuel api start count = Some (inl bodies) ->
     Forall (fun entry =>
               exists n : Z, entry = getBody (GetBlockByNumber (eth api) n)) bodies).
Proof.
  split; [|split].
  - intros block Hhash. unfold getBody.
    eexists. split; [reflexivity|]. simpl.
    rewrite (bool_decide_eq_false_2 _ Hhash). simpl.
    destruct (bWithdrawals block) as [l|]; simpl.
    + split; [reflexivity|]. discriminate.
    + split; reflexivity.
  - intros hashes. unfold GetPayloadBodiesByHashV1, GetPayloadBodiesByHashV2.
    split; [apply length_fmap|]. split; [reflexivity|].
    intros i hash Hi. rewrite list_lookup_fmap, Hi. simpl.
    split; [reflexivity|]. intros ->. reflexivity.
  - intros fuel start count bodies. unfold getBodiesByRange.
    destruct ((start =? 0) || (count =? 0)); [discriminate|].
    destruct (1024 <? count); [discriminate|].
    destruct (bodiesLoop _ _ _ _ _) as [r|] eqn:Hrun; [|discriminate].
    intros [= <-]. apply (bodiesLoop_entries _ _ _ _ _ _ Hrun). constructor.
Qed.

(** ** get-payload: C8 *)

(** C8, as the code has it.  Each entry point accepts the identifiers of
    the versions it lists and rejects every other identifier with the
    unsupported-fork error: V1 accepts those built as V1, V2 those built as
    V1 or V2, V3 those built as V3, and V4 those built as V3 as well.  An
    accepted identifier is looked up in the cache of local payloads: the
    call returns what is cached under it, and the unknown-payload error
    when nothing is. *)
Theorem getPayload_versions (api : ConsensusAPI) (id : bytes) :
  ((Version id = PayloadV1 ->
      GetPayloadV1 api id =
        match getPayload api id false with
        | inl data => inl (ExecutionPayload data)
        | inr err => inr err
        end) /\
   (Version id <> PayloadV1 -> GetPayloadV1 api id = inr (Bare UnsupportedFork))) /\
  ((Version id = PayloadV1 \/ Version id = PayloadV2 ->
      GetPayloadV2 api id = getPayload api id false) /\
   (Version id <> PayloadV1 -> Version id <> PayloadV2 ->
      GetPayloadV2 api id = inr (Bare UnsupportedFork))) /\
  ((Version id = PayloadV3 -> GetPayloadV3 api id = getPayload api id false) /\
   (Version id <> PayloadV3 -> GetPayloadV3 api id = inr (Bare UnsupportedFork))) /\
  ((Version id = PayloadV3 -> GetPayloadV4 api id = getPayload api id false) /\
   (Version id <> PayloadV3 -> GetPayloadV4 api id = inr (Bare UnsupportedFork))) /\
  (queue_get id (localBlocks api) = None ->
     getPayload api id false = inr (Bare UnknownPayload)) /\
  (forall payload : Payload,
     queue_get id (localBlocks api) = Some payload ->
     getPayload api id false = inl (Resolve payload false)).
Proof.
  unfold GetPayloadV1, GetPayloadV2, GetPayloadV3, GetPayloadV4, Is. simpl existsb.
  repeat split.
  - intros ->. reflexivity.
  - intros Hne. rewrite (proj2 (N.eqb_neq _ _) Hne). reflexivity.
  - intros [-> | ->]; reflexivity.
  - intros Hn1 Hn2.
    rewrite (proj2 (N.eqb_neq _ _) Hn1), (proj2 (N.eqb_neq _ _) Hn2). reflexivity.
  - intros ->. reflexivity.
  - intros Hne. rewrite (proj2 (N.eqb_neq _ _) Hne). reflexivity.
  - intros ->. reflexivity.
  - intros Hne. rewrite (proj2 (N.eqb_neq _ _) Hne). reflexivity.
  - intros Hnone. unfold getPayload, payloadQueue_get. rewrite Hnone. reflexivity.
  - intros payload Hsome. unfold getPayload, payloadQueue_get. rewrite Hsome. reflexivity.
Qed.

(** ** Execution requests: C9 *)

Lemma validateRequestsFrom_None (requests : list bytes) :
  forall prev : option bytes,
    validateRequestsFrom prev requests = None <->
    requestsWellFormed requests /\
    (forall p r : bytes,
       prev = Some p -> head requests = Some r -> (nth 0 p 0 < nth 0 r 0)%N).
Proof.
  induction requests as [|req rest IH]; intros prev; simpl.
  - split; [|reflexivity]. intros _. split; [split|].
    + intros req Hin. inversion Hin.
    + intros i r1 r2 Hi. rewrite lookup_nil in Hi. discriminate.
    + intros p r _ Hr. discriminate.
  - destruct (length req <? 2)%nat eqn:Hlen.
    { split; [discriminate|]. intros [[Hall _] _]. exfalso.
      apply Nat.ltb_lt in Hlen.
      assert (2 <= length req)%nat by (apply Hall; left). lia. }
    apply Nat.ltb_ge in Hlen.
    destruct (match prev with
              | Some p => (nth 0 req 0 <=? nth 0 p 0)%N
              | None => false
              end) eqn:Hord.
    { split; [discriminate|]. intros [_ Hprev]. exfalso.
      destruct prev as [p|]; [|discriminate]. apply N.leb_le in Hord.
      assert (nth 0 p 0 < nth 0 req 0)%N by (apply Hprev; reflexivity). lia. }
    rewrite IH. split.
    + intros [[Hall Hcons] Hnext]. split; [split|].
      * intros r Hin. apply elem_of_cons in Hin as [-> | Hin]; [exact Hlen|].
        apply Hall. exact Hin.
      * intros i r1 r2 H1 H2. destruct i as [|i]; simpl in H1, H2.
        -- injection H1 as <-. apply Hnext; [reflexivity|].
           destruct rest; [discriminate|]. simpl in H2 |- *. exact H2.
        -- apply (Hcons i); assumption.
      * intros p r -> [= <-]. simpl in Hord. apply N.leb_gt in Hord. exact Hord.
    + intros [[Hall Hcons] Hprev]. split; [split|].
      * intros r Hin. apply Hall. right. exact Hin.
      * intros i r1 r2 H1 H2. apply (Hcons (S i)); assumption.
      * intros p r [= <-] Hr. apply (Hcons 0%nat); [reflexivity|].
        destruct rest; [discriminate|]. simpl in Hr |- *. exact Hr.
Qed.

Lemma validateRequests_None (requests : option (list bytes)) :
  validateRequests requests = None <-> requestsWellFormed (default [] requests).
Proof.
  unfold validateRequests. rewrite validateRequestsFrom_None.
  split; [intros [H _]; exact H|]. intros H. split; [exact H|]. discriminate.
Qed.

Lemma checkFieldsV4_pass (method : string) (params : ExecutableData)
    (versionedHashes : option (list Hash)) (beaconRoot : option Hash)
    (executionRequests : option (list bytes)) :
  fieldsPresentV4 params versionedHashes beaconRoot executionRequests ->
  checkFieldsV4 method params versionedHashes beaconRoot executionRequests = None.
Proof.
  intros (Hw & He & Hb & Hv & Hr & Hx & Hf). unfold checkFieldsV4.
  rewrite !bool_decide_eq_false_2 by assumption.
  rewrite bool_decide_eq_true_2 by exact Hf. reflexivity.
Qed.

(** C9.  Once the field-presence checks have passed (for NewPayloadV4 this
    includes the withdrawals root from Isthmus on), NewPayloadV4 and
    NewPayloadWithWitnessV4 validate the execution requests before they hand
    the payload on: well-formed requests go to [newPayload]; any other list
    makes the call return INVALID with the invalid-params error around the
    validation error, and the API object is returned as it came.
    ExecuteStatelessPayloadV4 hands the requests to [executeStatelessPayload]
    whatever they are. *)
Theorem requests_validated_V4 (api : ConsensusAPI) (params : ExecutableData)
    (versionedHashes : option (list Hash)) (beaconRoot : option Hash)
    (executionRequests : option (list bytes)) (opaqueWitness : bytes) (now : Z) :
  fieldsPresentV4 params versionedHashes beaconRoot executionRequests ->
  (validateRequests (convertRequests executionRequests) = None <->
     requestsWellFormed (default [] executionRequests)) /\
  (requestsWellFormed (default [] executionRequests) ->
     (IsIsthmus Config (edTimestamp params) = true -> edWithdrawalsRoot params <> None) ->
     NewPayloadV4 api params versionedHashes beaconRoot executionRequests now
       = newPayload api params versionedHashes beaconRoot executionRequests false now) /\
  (requestsWellFormed (default [] executionRequests) ->
     NewPayloadWithWitnessV4 api params versionedHashes beaconRoot executionRequests now
       = newPayload api params versionedHashes beaconRoot executionRequests true now) /\
  (~ requestsWellFormed (default [] executionRequests) ->
     exists err : error,
       validateRequests (convertRequests executionRequests) = Some err /\
       ((IsIsthmus Config (edTimestamp params) = true ->
           edWithdrawalsRoot params <> None) ->
        NewPayloadV4 api params versionedHashes beaconRoot executionRequests now
          = (api, (mkStatus INVALID None None None, Some (With InvalidParams err)))) /\
       NewPayloadWithWitnessV4 api params versionedHashes beaconRoot executionRequests now
         = (api, (mkStatus INVALID None None None, Some (With InvalidParams err)))) /\
  ExecuteStatelessPayloadV4 api params versionedHashes beaconRoot executionRequests
      opaqueWitness now
    = executeStatelessPayload api params versionedHashes beaconRoot executionRequests
        opaqueWitness now.
Proof.
  intros Hfields.
  assert (Hconv : convertRequests executionRequests = executionRequests)
    by (destruct executionRequests; reflexivity).
  assert (Hroot : (IsIsthmus Config (edTimestamp params) = true ->
                   edWithdrawalsRoot params <> None) ->
                  IsIsthmus Config (edTimestamp params)
                  && bool_decide (edWithdrawalsRoot params = None) = false).
  { intros H. destruct (IsIsthmus Config (edTimestamp params)); [|reflexivity].
    rewrite bool_decide_eq_false_2; [reflexivity|]. apply H. reflexivity. }
  unfold NewPayloadV4, NewPayloadWithWitnessV4, ExecuteStatelessPayloadV4.
  rewrite !(checkFieldsV4_pass _ _ _ _ _ Hfields), Hconv.
  split; [apply validateRequests_None|]. split; [|split; [|split]].
  - intros Hwf Hiso. rewrite (Hroot Hiso).
    rewrite (proj2 (validateRequests_None _) Hwf). reflexivity.
  - intros Hwf. rewrite (proj2 (validateRequests_None _) Hwf). reflexivity.
  - intros Hbad. destruct (validateRequests executionRequests) as [err|] eqn:Hval.
    + exists err. split; [reflexivity|]. split; [|reflexivity].
      intros Hiso. rewrite (Hroot Hiso). reflexivity.
    + exfalso. apply Hbad. apply validateRequests_None. exact Hval.
  - reflexivity.
Qed.

End Properties.

(** * The properties on the small node *)

(** Both iteration orders are iteration orders of a Go map. *)
Lemma firstKey_spec (cfg : ChainConfig) : @rangeFirst_spec _ _ _ _ _ _ _ (simNode cfg firstKey).
Proof.
  intros m. simpl. unfold firstKey.
  destruct (map_to_list m) as [|[k v] l] eqn:Hl; simpl.
  - apply map_to_list_empty_iff. exact Hl.
  - exists v. apply elem_of_map_to_list. rewrite Hl. left.
Qed.

Lemma lastKey_spec (cfg : ChainConfig) : @rangeFirst_spec _ _ _ _ _ _ _ (simNode cfg lastKey).
Proof.
  intros m. simpl. unfold lastKey.
  destruct (last (map_to_list m)) as [[k v]|] eqn:Hl; simpl.
  - exists v. apply elem_of_map_to_list. apply last_Some_elem_of. exact Hl.
  - apply map_to_list_empty_iff. apply last_None. exact Hl.
Qed.

(** C1 on the small node: tip 2 is tracked with a bad ancestor that was hit
    once; checking it on behalf of head 5000 rejects and taints the head. *)
Lemma checkInvalidAncestor_spec_witness :
  @rangeFirst_spec _ _ _ _ _ _ _ (simNode opConfig firstKey) /\
  exists api' res,
    checkInvalidAncestor (node := simNode opConfig firstKey) (tracked 3) 2%N 5000%N
      = (api', Some res) /\
    invalidBlocksHits api' = <[1002%N := 2]> (invalidBlocksHits (tracked 3)) /\
    invalidTipsets api' = <[5000%N := badOf 2]> (invalidTipsets (tracked 3)) /\
    Status res = INVALID /\
    LatestValidHash res = Some 999%N.
Proof.
  split; [apply firstKey_spec|].
  destruct (checkInvalidAncestor_spec (node := simNode opConfig firstKey)
              (tracked 3) 2%N 5000%N (firstKey_spec opConfig)) as [_ Hbad].
  destruct (Hbad (badOf 2) eq_refl) as [_ Hreject].
  destruct Hreject as (api' & res & Hcall & _ & Hhits & _ & Htips & Hstatus & Hlast & _).
  { vm_compute. reflexivity. }
  exists api', res. split; [exact Hcall|]. split; [exact Hhits|].
  destruct Htips as [Hroom _]; [discriminate|].
  split; [apply Hroom; vm_compute; lia|]. split; [exact Hstatus|exact Hlast].
Defined.

(** C1 as the specification words it fails on the small node, in three ways.
    - The threshold: tip 1 is tracked and its bad ancestor has hit count
      127, which is below 128; the check increments the count first, finds
      128 reached, purges the ancestor and rejects nothing.
    - The entry evicted: after 512 reports, for the tips 1 to 512 in this
      order, the map is at its capacity; a check of tip 2 for head 5000
      evicts the entry of tip 510, and the oldest entry, of tip 1, stays.
      Under the other iteration order the same call evicts tip 1 and keeps
      tip 510.
    - The number evicted: after 514 reports the map holds 514 entries, and
      the same check evicts three of them. *)
Lemma checkInvalidAncestor_counterexample :
  (invalidTipsets (reported 127) !! 1%N = Some (badOf 1) /\
   hitCount (invalidBlocksHits (reported 127)) (hHash (badOf 1)) = 127 /\
   127 < invalidBlockHitEviction /\
   let r := checkInvalidAncestor (node := simNode opConfig firstKey)
              (reported 127) 1%N 1%N in
   r.2 = None /\
   invalidBlocksHits r.1 !! hHash (badOf 1) = None /\
   invalidTipsets r.1 !! 1%N = None) /\
  (size (invalidTipsets (tracked 512)) = invalidTipsetsCap /\
   let r := checkInvalidAncestor (node := simNode opConfig firstKey)
              (tracked 512) 2%N 5000%N in
   let r' := checkInvalidAncestor (node := simNode opConfig lastKey)
               (tracked 512) 2%N 5000%N in
   Status <$> r.2 = Some INVALID /\
   invalidTipsets r.1 !! 1%N = Some (badOf 1) /\
   invalidTipsets r.1 !! 510%N = None /\
   invalidTipsets r'.1 !! 1%N = None /\
   invalidTipsets r'.1 !! 510%N = Some (badOf 510)) /\
  (size (invalidTipsets (tracked 514)) = 514%nat /\
   let r := checkInvalidAncestor (node := simNode opConfig firstKey)
              (tracked 514) 2%N 5000%N in
   Status <$> r.2 = Some INVALID /\
   size (invalidTipsets r.1) = 512%nat /\
   invalidTipsets r.1 !! 5000%N = Some (badOf 2)).
Proof. vm_compute. repeat split; reflexivity. Qed.

(** C2 on the small node: the payload of the known block 101 is answered
    VALID with hash 101, and only the liveness timestamp changes. *)
Lemma newPayload_known_witness :
  decodesTo (node := simNode opConfig firstKey) payloadA None None None
    (simDecode payloadA) /\
  newPayload (node := simNode opConfig firstKey) simAPI payloadA None None None false 77
    = (set_lastNewPayloadUpdate simAPI 77,
       (mkStatus VALID None (Some 101%N) None, None)).
Proof.
  assert (Hdec : decodesTo (node := simNode opConfig firstKey) payloadA None None None
                   (simDecode payloadA)) by (split; reflexivity).
  split; [exact Hdec|].
  exact (proj1 (newPayload_known (node := simNode opConfig firstKey)
                  simAPI payloadA None None None false (simDecode payloadA) Hdec)
           77 blockA eq_refl).
Defined.

(** C3 on the small node: a new block on the head with the head's own
    time, 30, is INVALID with the head, 102, as latest valid hash. *)
Lemma newPayload_timestamp_witness :
  decodesTo (node := simNode opConfig firstKey) (payloadOnHead 103 30) None None None
    (simDecode (payloadOnHead 103 30)) /\
  Block_Time (simDecode (payloadOnHead 103 30))
    <= Block_Time blockB /\
  exists st : PayloadStatusV1,
    newPayload (node := simNode opConfig firstKey) simAPI (payloadOnHead 103 30)
      None None None false 77
      = (set_lastNewPayloadUpdate simAPI 77, (st, None)) /\
    Status st = INVALID /\
    LatestValidHash st = Some 102%N.
Proof.
  assert (Hdec : decodesTo (node := simNode opConfig firstKey) (payloadOnHead 103 30)
                   None None None (simDecode (payloadOnHead 103 30)))
    by (split; reflexivity).
  assert (Htime : Block_Time (simDecode (payloadOnHead 103 30))
                  <= Block_Time blockB)
    by (vm_compute; discriminate).
  split; [exact Hdec|]. split; [exact Htime|].
  destruct (newPayload_timestamp (node := simNode opConfig firstKey)
              simAPI simAPI (payloadOnHead 103 30) None None None false 77
              (simDecode (payloadOnHead 103 30)) blockB
              Hdec eq_refl eq_refl eq_refl Htime)
    as (st & Hcall & _ & Hstatus & Hlast & _).
  exists st. split; [exact Hcall|]. split; [exact Hstatus|exact Hlast].
Defined.

(** C5 on the small node: the block with hash 666 on top of the head
    reaches execution, which fails; the tracker then holds it with hit count
    1 under its own header, and the answer is INVALID with the head, 102,
    as latest valid hash and the text of the error. *)
Lemma newPayload_insert_failed_witness :
  decodesTo (node := simNode opConfig firstKey) (payloadOnHead 666 40) None None None
    (simDecode (payloadOnHead 666 40)) /\
  InsertBlockWithoutSetHead (Node := simNode opConfig firstKey) simChain
    (simDecode (payloadOnHead 666 40)) false
    = (simChain, (None, Some (errors_New "invalid block"))) /\
  exists (api2 : ConsensusAPI) (st : PayloadStatusV1),
    newPayload (node := simNode opConfig firstKey) simAPI (payloadOnHead 666 40)
      None None None false 77 = (api2, (st, None)) /\
    invalidBlocksHits api2 !! 666%N = Some 1 /\
    invalidTipsets api2 !! 666%N = Some (bHeader (simDecode (payloadOnHead 666 40))) /\
    Status st = INVALID /\
    LatestValidHash st = Some 102%N /\
    ValidationError st = Some "invalid block"%string.
Proof.
  assert (Hdec : decodesTo (node := simNode opConfig firstKey) (payloadOnHead 666 40)
                   None None None (simDecode (payloadOnHead 666 40)))
    by (split; reflexivity).
  split; [exact Hdec|]. split; [reflexivity|].
  assert (Htime : Block_Time blockB
                  < Block_Time (simDecode (payloadOnHead 666 40)))
    by (vm_compute; reflexivity).
  exact (newPayload_insert_failed (node := simNode opConfig firstKey)
           simAPI simAPI (payloadOnHead 666 40) None None None false 77
           (simDecode (payloadOnHead 666 40)) blockB
           simChain None (errors_New "invalid block")
           Hdec eq_refl eq_refl eq_refl Htime eq_refl eq_refl eq_refl).
Defined.

(** C6 on the small node: an update to the zero hash, even with safe and
    finalized hashes, is INVALID and leaves the API object alone. *)
Lemma forkchoiceUpdated_zero_head_witness :
  HeadBlockHash (mkForkchoice 0 101 100) = zeroHash /\
  forkchoiceUpdated (node := simNode opConfig firstKey) simAPI (mkForkchoice 0 101 100)
    None PayloadV3 false 77
    = (simAPI, (STATUS_INVALID, None)).
Proof.
  split; [reflexivity|].
  destruct (forkchoiceUpdated_zero_head (node := simNode opConfig firstKey) simAPI
              (mkForkchoice 0 101 100) None PayloadV3 false 77 eq_refl)
    as (res & Hcall & Hstatus & Hlast & Hid).
  rewrite Hcall. destruct res as [[status witness latest failure] id].
  simpl in Hstatus, Hlast, Hid. subst status latest id.
  vm_compute in Hcall. injection Hcall as <- <-. reflexivity.
Defined.

(** C4 on the small node: block 101 is canonical and below the head 102,
    and the update to it names the finalized block 100 and the safe block
    101 and comes with attributes for a block at time 40.  Without the
    Optimism config the update is answered VALID at once: nothing is built,
    no pointer is set and the node is not marked synced.  With it the node
    is marked synced, both pointers are set, and the payload is built on
    block 101 with the transaction of the attributes, cached under its ID
    and answered VALID with this ID.  An update without attributes and
    pointers is answered VALID with no ID on the node marked synced, and one
    whose finalized hash 999 is unknown fails on the node marked synced. *)
Lemma forkchoiceUpdated_old_head_witness :
  (HeadBlockHash (mkForkchoice 101 101 100) <> zeroHash /\
   GetBlockByHash (Node := simNode opConfig firstKey) simChain 101%N = Some blockA /\
   checkTerminalBlock (node := simNode opConfig firstKey) simAPI blockA = None /\
   ReadCanonicalHash (Node := simNode opConfig firstKey) simChain (NumberU64 blockA)
     = 101%N /\
   hHash (CurrentBlock (Node := simNode opConfig firstKey) simChain) <> 101%N) /\
  forkchoiceUpdated (node := simNode l1Config firstKey) simAPI (mkForkchoice 101 101 100)
    (Some attributesAt40) PayloadV3 false 77
    = (mkAPI simChain [] [] ∅ ∅ 0 77 0,
       (mkResponse (mkStatus VALID None (Some 101%N) None) None, None)) /\
  forkchoiceUpdated (node := simNode opConfig firstKey) simAPI (mkForkchoice 101 101 100)
    (Some attributesAt40) PayloadV3 false 77
    = (mkAPI
         (mkSim [blockB; blockA; genesisBlock] [(0, 100%N); (1, 101%N); (2, 102%N)]
            headerB (Some genesisHeader) (Some headerA) true FullSync [666%N])
         []
         [([3; 40; 0; 0; 0; 0; 0; 0]%N,
           mkBuildArgs 101%N 40 0%N 0%N (Some []) (Some 9%N) true [[2; 1]%N]
             (Some 30000000) 3%N [])]
         ∅ ∅ 0 77 0,
       (mkResponse (mkStatus VALID None (Some 101%N) None)
          (Some [3; 40; 0; 0; 0; 0; 0; 0]%N),
        None)) /\
  forkchoiceUpdated (node := simNode opConfig firstKey) simAPI (mkForkchoice 101 0 0)
    None PayloadV3 false 77
    = (mkAPI
         (mkSim [blockB; blockA; genesisBlock] [(0, 100%N); (1, 101%N); (2, 102%N)]
            headerB None None true FullSync [666%N])
         [] [] ∅ ∅ 0 77 0,
       (mkResponse (mkStatus VALID None (Some 101%N) None) None, None)) /\
  forkchoiceUpdated (node := simNode opConfig firstKey) simAPI (mkForkchoice 101 101 999)
    (Some attributesAt40) PayloadV3 false 77
    = (mkAPI
         (mkSim [blockB; blockA; genesisBlock] [(0, 100%N); (1, 101%N); (2, 102%N)]
            headerB None None true FullSync [666%N])
         [] [] ∅ ∅ 0 77 0,
       (mkResponse (mkStatus INVALID None None None) None,
        Some (With InvalidForkChoiceState
                (errors_New "final block not available in database")))).
Proof.
  assert (Hhead : forall safe final : N,
            HeadBlockHash (mkForkchoice 101 safe final) <> zeroHash)
    by (intros; discriminate).
  assert (Htip : 102%N <> 101%N) by discriminate.
  assert (H100 : 100%N <> zeroHash) by discriminate.
  assert (H101 : 101%N <> zeroHash) by discriminate.
  assert (H999 : 999%N <> zeroHash) by discriminate.
  assert (Hop : Optimism opConfig <> None) by discriminate.
  assert (Hgas : Some 30000000 <> @None Z) by discriminate.
  assert (Htxs : Forall2 (fun otx tx : list N =>
                            UnmarshalBinary (Node := simNode opConfig firstKey) otx
                              = inl tx)
                   [[2; 1]%N] [[2; 1]%N])
    by (constructor; [reflexivity | constructor]).
  split; [repeat split; [apply Hhead | exact Htip]|].
  split; [|split; [|split]].
  - exact (proj1 (forkchoiceUpdated_old_head (node := simNode l1Config firstKey) simAPI
                    (mkForkchoice 101 101 100) (Some attributesAt40) PayloadV3 false 77
                    blockA (Hhead _ _) eq_refl eq_refl eq_refl Htip) eq_refl).
  - destruct (forkchoiceUpdated_old_head (node := simNode opConfig firstKey) simAPI
                (mkForkchoice 101 101 100) (Some attributesAt40) PayloadV3 false 77
                blockA (Hhead _ _) eq_refl eq_refl eq_refl Htip) as [_ Hgoes].
    destruct (Hgoes Hop) as [_ Hfinal].
    destruct (Hfinal _ (or_intror (ex_intro _ genesisBlock
                                     (conj H100 (conj eq_refl (conj eq_refl eq_refl))))))
      as [_ Hsafe].
    destruct (Hsafe _ (or_intror (ex_intro _ blockA
                                    (conj H101 (conj eq_refl (conj eq_refl eq_refl))))))
      as [_ Hbuild].
    destruct (Hbuild Hgas) as (_ & _ & Hpass).
    destruct (Hpass [] (or_intror (conj eq_refl (conj eq_refl eq_refl)))) as [_ Hdecoded].
    destruct (Hdecoded [[2; 1]%N] Htxs) as [_ Hfresh].
    exact (Hfresh eq_refl _ _ eq_refl).
  - destruct (forkchoiceUpdated_old_head (node := simNode opConfig firstKey) simAPI
                (mkForkchoice 101 0 0) None PayloadV3 false 77
                blockA (Hhead _ _) eq_refl eq_refl eq_refl Htip) as [_ Hgoes].
    destruct (Hgoes Hop) as [_ Hfinal].
    destruct (Hfinal _ (or_introl (conj eq_refl eq_refl))) as [_ Hsafe].
    exact (Hsafe _ (or_introl (conj eq_refl eq_refl))).
  - destruct (forkchoiceUpdated_old_head (node := simNode opConfig firstKey) simAPI
                (mkForkchoice 101 101 999) (Some attributesAt40) PayloadV3 false 77
                blockA (Hhead _ _) eq_refl eq_refl eq_refl Htip) as [_ Hgoes].
    destruct (Hgoes Hop) as [Hcheck _].
    exact (proj1 (Hcheck H999) eq_refl).
Defined.

(** C7 on the small node, whose head has number 2: a range of five from 1
    is clipped to the blocks 1 and 2; a zero count and a count of 2000 are
    refused. *)
Lemma getBodiesByRange_spec_witness :
  (0 <= 1 < 2 ^ 64 /\ 0 <= 5 < 2 ^ 64) /\
  getBodiesByRange (node := simNode opConfig firstKey) 10 simAPI 1 5
    = Some (inl [Some (mkBody [] (Some [5%N])); Some (mkBody [[2; 1]%N] (Some []))]) /\
  getBodiesByRange (node := simNode opConfig firstKey) 10 simAPI 1 0
    = Some (inr (With InvalidParams
                   (fmt_Errorf "invalid start or count, start: %v count: %v"
                      [ArgNum 1; ArgNum 0]))) /\
  getBodiesByRange (node := simNode opConfig firstKey) 10 simAPI 1 2000
    = Some (inr (With TooLargeRequest
                   (fmt_Errorf "requested count too large: %v" [ArgNum 2000]))).
Proof.
  assert (Hstart : 0 <= 1 < 2 ^ 64) by lia.
  assert (Hcount : forall c : Z, 0 <= c <= 2000 -> 0 <= c < 2 ^ 64) by (intros; lia).
  split; [split; [exact Hstart | apply Hcount; lia]|].
  split; [|split].
  - destruct (getBodiesByRange_spec (node := simNode opConfig firstKey) simAPI 1 5 10
                Hstart (Hcount 5 ltac:(lia))) as (_ & _ & _ & Hrange).
    rewrite Hrange; [reflexivity | lia | lia | lia | vm_compute; reflexivity | vm_compute; lia].
  - destruct (getBodiesByRange_spec (node := simNode opConfig firstKey) simAPI 1 0 10
                Hstart (Hcount 0 ltac:(lia))) as (Hzero & _).
    apply Hzero. right. reflexivity.
  - destruct (getBodiesByRange_spec (node := simNode opConfig firstKey) simAPI 1 2000 10
                Hstart (Hcount 2000 ltac:(lia))) as (_ & Hlarge & _).
    apply Hlarge; lia.
Defined.

(** C8 on the small node: the cache holds a payload built as V1 and one
    built as V3.  The V1 identifier is served by V1 and V2 and refused by
    V3 and V4; the V3 identifier is served by V3 and V4; a V3 identifier
    that is not cached is unknown. *)
Lemma getPayload_versions_witness :
  GetPayloadV1 (node := simNode opConfig firstKey) cachedAPI [1; 40; 0; 0; 0; 0; 0; 0]%N
    = inl (simEnvelope (argsOf 1)) /\
  GetPayloadV2 (node := simNode opConfig firstKey) cachedAPI [1; 40; 0; 0; 0; 0; 0; 0]%N
    = inl (argsOf 1) /\
  GetPayloadV3 (node := simNode opConfig firstKey) cachedAPI [1; 40; 0; 0; 0; 0; 0; 0]%N
    = inr (Bare UnsupportedFork) /\
  GetPayloadV4 (node := simNode opConfig firstKey) cachedAPI [1; 40; 0; 0; 0; 0; 0; 0]%N
    = inr (Bare UnsupportedFork) /\
  GetPayloadV3 (node := simNode opConfig firstKey) cachedAPI [3; 40; 0; 0; 0; 0; 0; 0]%N
    = inl (argsOf 3) /\
  GetPayloadV4 (node := simNode opConfig firstKey) cachedAPI [3; 40; 0; 0; 0; 0; 0; 0]%N
    = inl (argsOf 3) /\
  GetPayloadV4 (node := simNode opConfig firstKey) cachedAPI [3; 41; 0; 0; 0; 0; 0; 0]%N
    = inr (Bare UnknownPayload).
Proof.
  pose proof (getPayload_versions (node := simNode opConfig firstKey) cachedAPI
                [1; 40; 0; 0; 0; 0; 0; 0]%N) as (H1 & H2 & H3 & H4 & _ & Hhit1).
  pose proof (getPayload_versions (node := simNode opConfig firstKey) cachedAPI
                [3; 40; 0; 0; 0; 0; 0; 0]%N) as (_ & _ & G3 & G4 & _ & Hhit3).
  pose proof (getPayload_versions (node := simNode opConfig firstKey) cachedAPI
                [3; 41; 0; 0; 0; 0; 0; 0]%N) as (_ & _ & _ & F4 & Hmiss & _).
  split_and!.
  - rewrite (proj1 H1 eq_refl), (Hhit1 (argsOf 1) eq_refl). reflexivity.
  - rewrite (proj1 H2 (or_introl eq_refl)). exact (Hhit1 (argsOf 1) eq_refl).
  - apply (proj2 H3). discriminate.
  - apply (proj2 H4). discriminate.
  - rewrite (proj1 G3 eq_refl). exact (Hhit3 (argsOf 3) eq_refl).
  - rewrite (proj1 G4 eq_refl). exact (Hhit3 (argsOf 3) eq_refl).
  - rewrite (proj1 F4 eq_refl). exact (Hmiss eq_refl).
Defined.

(** C8 as the specification words it fails on the small node: the identifier built
    as V1 -- its version is not V2 -- is in the cache, and GetPayloadV2
    serves it instead of refusing it; the identifier built as V3 is served
    by GetPayloadV4, which refuses the identifier whose version byte is 4,
    cached or not. *)
Lemma getPayload_versions_counterexample :
  (Version [1; 40; 0; 0; 0; 0; 0; 0]%N = PayloadV1 /\
   Version [1; 40; 0; 0; 0; 0; 0; 0]%N <> PayloadV2 /\
   GetPayloadV2 (node := simNode opConfig firstKey) cachedAPI [1; 40; 0; 0; 0; 0; 0; 0]%N
     = inl (argsOf 1)) /\
  (Version [3; 40; 0; 0; 0; 0; 0; 0]%N = PayloadV3 /\
   GetPayloadV4 (node := simNode opConfig firstKey) cachedAPI [3; 40; 0; 0; 0; 0; 0; 0]%N
     = inl (argsOf 3)) /\
  (Version [4; 40; 0; 0; 0; 0; 0; 0]%N = 4%N /\
   GetPayloadV4 (node := simNode opConfig firstKey)
     (set_localBlocks simAPI [([4; 40; 0; 0; 0; 0; 0; 0]%N, argsOf 4)])
     [4; 40; 0; 0; 0; 0; 0; 0]%N
     = inr (Bare UnsupportedFork)).
Proof. split_and!; first [reflexivity | discriminate]. Qed.

(** C9 on the small node: with all fields present, requests out of order
    stop NewPayloadV4 and NewPayloadWithWitnessV4 with the invalid-params
    error, requests in order are handed to [newPayload], and
    ExecuteStatelessPayloadV4 executes with the requests out of order. *)
Lemma requests_validated_V4_witness :
  fieldsPresentV4 (node := simNode opConfig firstKey) (payloadOnHead 103 40)
    (Some []) (Some 1%N) (Some [[1; 2]; [0; 1]]%N) /\
  NewPayloadV4 (node := simNode opConfig firstKey) simAPI (payloadOnHead 103 40)
    (Some []) (Some 1%N) (Some [[1; 2]; [0; 1]]%N) 77
    = (simAPI, (mkStatus INVALID None None None,
                Some (With InvalidParams
                        (fmt_Errorf "invalid request order: %v" [ArgBytes [0; 1]%N])))) /\
  NewPayloadWithWitnessV4 (node := simNode opConfig firstKey) simAPI (payloadOnHead 103 40)
    (Some []) (Some 1%N) (Some [[1; 2]; [0; 1]]%N) 77
    = (simAPI, (mkStatus INVALID None None None,
                Some (With InvalidParams
                        (fmt_Errorf "invalid request order: %v" [ArgBytes [0; 1]%N])))) /\
  NewPayloadV4 (node := simNode opConfig firstKey) simAPI (payloadOnHead 103 40)
    (Some []) (Some 1%N) (Some [[0; 1]; [1; 2]]%N) 77
    = newPayload (node := simNode opConfig firstKey) simAPI (payloadOnHead 103 40)
        (Some []) (Some 1%N) (Some [[0; 1]; [1; 2]]%N) false 77 /\
  slStatus (ExecuteStatelessPayloadV4 (node := simNode opConfig firstKey) simAPI
            (payloadOnHead 103 40) (Some []) (Some 1%N) (Some [[1; 2]; [0; 1]]%N)
            [] 77).2.1 = VALID.
Proof.
  assert (Hfields : forall requests : list (list N),
            fieldsPresentV4 (node := simNode opConfig firstKey) (payloadOnHead 103 40)
              (Some []) (Some 1%N) (Some requests))
    by (intros; split_and!; first [discriminate | reflexivity]).
  assert (Hbad : ~ requestsWellFormed (default [] (Some [[1; 2]; [0; 1]]%N))).
  { intros [_ Horder]. specialize (Horder 0%nat [1; 2]%N [0; 1]%N eq_refl eq_refl).
    vm_compute in Horder. discriminate. }
  assert (Hgood : requestsWellFormed (default [] (Some [[0; 1]; [1; 2]]%N))).
  { apply (validateRequests_None (Some [[0; 1]; [1; 2]]%N)). reflexivity. }
  assert (Hroot : IsIsthmus (Config (Node := simNode opConfig firstKey))
                    (edTimestamp (payloadOnHead 103 40)) = true ->
                  edWithdrawalsRoot (payloadOnHead 103 40) <> None)
    by discriminate.
  split; [apply Hfields|].
  destruct (requests_validated_V4 (node := simNode opConfig firstKey) simAPI
              (payloadOnHead 103 40) (Some []) (Some 1%N) (Some [[1; 2]; [0; 1]]%N)
              [] 77 (Hfields _)) as (_ & _ & _ & Hinvalid & Hstateless).
  destruct (Hinvalid Hbad) as (err & Hval & Hv4 & Hw4).
  vm_compute in Hval. injection Hval as <-.
  split; [exact (Hv4 Hroot)|]. split; [exact Hw4|]. split.
  - destruct (requests_validated_V4 (node := simNode opConfig firstKey) simAPI
                (payloadOnHead 103 40) (Some []) (Some 1%N) (Some [[0; 1]; [1; 2]]%N)
                [] 77 (Hfields _)) as (_ & Hvalid & _).
    exact (Hvalid Hgood Hroot).
  - rewrite Hstateless. reflexivity.
Defined.

(** C10 on the small node: the head block has a withdrawals hash and no
    withdrawals list, and its body has the empty list; of the hashes 101 and
    555 the second is unknown, and the result has a nil entry there; every
    entry of a range is a body built from a block number. *)
Lemma getBody_withdrawals_witness :
  (WithdrawalsHash (bHeader blockB) <> None /\ bWithdrawals blockB = None /\
   exists body : ExecutionPayloadBody,
     getBody (node := simNode opConfig firstKey) (Some blockB) = Some body /\
     Withdrawals body = Some []) /\
  GetPayloadBodiesByHashV1 (node := simNode opConfig firstKey) simAPI [101; 555]%N !! 1%nat
    = Some None /\
  Forall (fun entry =>
            exists n : Z,
              entry = getBody (node := simNode opConfig firstKey)
                        (GetBlockByNumber (Node := simNode opConfig firstKey) simChain n))
    [Some (mkBody [] (Some [5%N])); Some (mkBody [[2; 1]%N] (Some []))].
Proof.
  destruct (getBody_withdrawals (node := simNode opConfig firstKey) simAPI)
    as (Hbody & Hhash & Hrange).
  assert (Hwh : WithdrawalsHash (bHeader blockB) <> None) by discriminate.
  split; [split; [exact Hwh | split; [reflexivity|]]|].
  - destruct (Hbody blockB Hwh) as (body & Hget & _ & Hnil).
    exists body. split; [exact Hget | exact (Hnil eq_refl)].
  - split.
    + destruct (Hhash [101; 555]%N) as (_ & _ & Hentry).
      exact (proj2 (Hentry 1%nat 555%N eq_refl) eq_refl).
    + exact (Hrange 10%nat 1 5 _ eq_refl).
Defined.

(** * Further properties of the engine API *)

Section TrackerProperties.

Context {Tx Wd Payload Envelope Proofs StatelessWitness W : Type}.
Context {node : @Node Tx Wd Payload Envelope Proofs StatelessWitness W}.

Lemma evictLoop_subseteq (fuel : nat) :
  forall m : gmap N Header, evictLoop fuel m ⊆ m.
Proof.
  induction fuel as [|fuel IH]; intros m; simpl; [reflexivity|].
  destruct (decide (invalidTipsetsCap <= size m)%nat); [|reflexivity].
  destruct (rangeFirst m) as [key|]; [|reflexivity].
  etrans; [apply IH|]. apply delete_subseteq.
Qed.

Lemma trackerConsistent_same (api api' : @ConsensusAPI Payload W) :
  invalidBlocksHits api' = invalidBlocksHits api ->
  invalidTipsets api' = invalidTipsets api ->
  trackerConsistent api -> trackerConsistent api'.
Proof.
  intros Hh Ht Hc tip bad. rewrite Hh, Ht. apply Hc.
Qed.

Lemma trackerConsistent_record (api : @ConsensusAPI Payload W) (count : Z)
    (tip : N) (bad : Header) (kept : gmap N Header) :
  kept ⊆ invalidTipsets api ->
  trackerConsistent api ->
  trackerConsistent
    (set_invalid api (<[hHash bad := count]> (invalidBlocksHits api))
       (<[tip := bad]> kept)).
Proof.
  intros Hkept Hc t b. simpl. intros Hlook.
  apply lookup_insert_is_Some.
  destruct (decide (hHash bad = hHash b)) as [Heq|Hne]; [left; exact Heq|].
  right. split; [exact Hne|].
  apply lookup_insert_Some in Hlook as [[_ <-]|[_ Hold]]; [contradiction|].
  apply (Hc t). eapply lookup_weaken; eassumption.
Qed.

Lemma trackerConsistent_count (api : @ConsensusAPI Payload W) (count : Z) (hash : N) :
  trackerConsistent api ->
  trackerConsistent
    (set_invalid api (<[hash := count]> (invalidBlocksHits api)) (invalidTipsets api)).
Proof.
  intros Hc t b. simpl. intros Hlook. apply lookup_insert_is_Some.
  destruct (decide (hash = hHash b)) as [Heq|Hne]; [left; exact Heq|].
  right. split; [exact Hne|]. apply (Hc t). exact Hlook.
Qed.

Lemma checkInvalidAncestor_consistent (api : ConsensusAPI) (check head : N) :
  trackerConsistent api -> trackerConsistent (checkInvalidAncestor api check head).1.
Proof.
  intros Hc. unfold checkInvalidAncestor.
  destruct (invalidTipsets api !! check) as [bad|] eqn:Hbad; [|exact Hc].
  destruct (invalidBlockHitEviction <=? _); simpl.
  - intros t b. simpl. rewrite purgeTipsets_lookup.
    destruct (invalidTipsets api !! t) as [h|] eqn:Ht; [|discriminate].
    destruct (decide (hHash h = hHash bad)) as [|Hne]; [discriminate|].
    intros [= <-]. rewrite lookup_delete_ne by congruence. apply (Hc t). exact Ht.
  - destruct (decide (check <> head)).
    + apply trackerConsistent_record; [apply evictLoop_subseteq | exact Hc].
    + apply trackerConsistent_count. exact Hc.
Qed.

Lemma delayPayloadImport_consistent (api : ConsensusAPI) (block : Block) :
  trackerConsistent api -> trackerConsistent (delayPayloadImport api block).1.
Proof.
  intros Hc. unfold delayPayloadImport.
  pose proof (checkInvalidAncestor_consistent api (Block_ParentHash block)
                (Block_Hash block) Hc) as Hc'.
  destruct (checkInvalidAncestor api (Block_ParentHash block) (Block_Hash block))
    as [a [res|]]; simpl in Hc' |- *; [exact Hc'|].
  destruct (BeaconExtend _ _ _) as [w [e|]]; simpl; exact Hc'.
Qed.

Lemma fcuBuildPayload_tracker (api : ConsensusAPI) (update : ForkchoiceStateV1)
    (pa : option PayloadAttributes) (version : N) (witness : bool) :
  invalidBlocksHits (fcuBuildPayload api update pa version witness).1
    = invalidBlocksHits api /\
  invalidTipsets (fcuBuildPayload api update pa version witness).1
    = invalidTipsets api.
Proof.
  unfold fcuBuildPayload. destruct pa as [pa|]; [|split; reflexivity].
  destruct (checkAttributes pa); [|split; reflexivity].
  destruct (decodeTransactions 0 (paTransactions pa)); [|split; reflexivity].
  destruct (queue_has _ _); [split; reflexivity|].
  destruct (BuildPayload _ _ _) as [w [payload|err]]; split; reflexivity.
Qed.

Lemma fcuSafe_tracker (api : ConsensusAPI) (update : ForkchoiceStateV1)
    (pa : option PayloadAttributes) (version : N) (witness : bool) :
  invalidBlocksHits (fcuSafe api update pa version witness).1 = invalidBlocksHits api /\
  invalidTipsets (fcuSafe api update pa version witness).1 = invalidTipsets api.
Proof.
  unfold fcuSafe. destruct (negb _); [|apply fcuBuildPayload_tracker].
  destruct (GetBlockByHash _ _) as [safeBlock|]; [|split; reflexivity].
  destruct (negb _); [split; reflexivity|].
  apply (fcuBuildPayload_tracker (set_eth api _)).
Qed.

Lemma fcuFinalized_tracker (api : ConsensusAPI) (update : ForkchoiceStateV1)
    (pa : option PayloadAttributes) (version : N) (witness : bool) :
  invalidBlocksHits (fcuFinalized api update pa version witness).1
    = invalidBlocksHits api /\
  invalidTipsets (fcuFinalized api update pa version witness).1 = invalidTipsets api.
Proof.
  unfold fcuFinalized. destruct (negb _); [|apply fcuSafe_tracker].
  destruct (GetBlockByHash _ _) as [finalBlock|]; [|split; reflexivity].
  destruct (negb _); [split; reflexivity|].
  apply (fcuSafe_tracker (set_eth api _)).
Qed.

(** X1.  The tracker stays consistent: when every tipset has a hit count
    for its bad ancestor, this still holds after the downloader's report of
    a bad block, after a check of a tip, and after any new-payload or
    fork-choice-update call, whatever its outcome. *)
Theorem tracker_stays_consistent (api : ConsensusAPI) :
  trackerConsistent api ->
  (forall invalid origin : Header,
     trackerConsistent (setInvalidAncestor api invalid origin)) /\
  (forall check head : N,
     trackerConsistent (checkInvalidAncestor api check head).1) /\
  (forall (params : ExecutableData) (versionedHashes : option (list N))
          (beaconRoot : option N) (requests : option (list (list N)))
          (witness : bool) (now : Z),
     trackerConsistent
       (newPayload api params versionedHashes beaconRoot requests witness now).1) /\
  (forall (update : ForkchoiceStateV1) (pa : option PayloadAttributes)
          (version : N) (witness : bool) (now : Z),
     trackerConsistent (forkchoiceUpdated api update pa version witness now).1).
Proof.
  intros Hc. split; [|split; [|split]].
  - intros invalid origin. unfold setInvalidAncestor.
    apply trackerConsistent_record; [reflexivity | exact Hc].
  - intros check head. apply checkInvalidAncestor_consistent. exact Hc.
  - intros params versionedHashes beaconRoot requests witness now.
    unfold newPayload.
    destruct (checkExtraData params); [exact Hc|].
    destruct (ExecutableDataToBlock _ _ _ _ _) as [block|err]; [|exact Hc].
    assert (Hs : trackerConsistent (set_lastNewPayloadUpdate api now)) by exact Hc.
    revert Hs. generalize (set_lastNewPayloadUpdate api now). intros a Ha.
    destruct (GetBlockByHash (eth a) _); [exact Ha|].
    pose proof (checkInvalidAncestor_consistent a (Block_Hash block)
                  (Block_Hash block) Ha) as Ha'.
    destruct (checkInvalidAncestor a (Block_Hash block) (Block_Hash block))
      as [a' [res|]]; simpl in Ha'; [exact Ha'|].
    assert (Hdelay : trackerConsistent
              (let '(api0, res) := delayPayloadImport a' block in
               (api0, (res, @None error))).1).
    { pose proof (delayPayloadImport_consistent a' block Ha') as Hd.
      destruct (delayPayloadImport a' block). exact Hd. }
    destruct (GetBlock _ _ _) as [parent|]; [|exact Hdelay].
    destruct (Block_Time block <=? Block_Time parent); [exact Ha'|].
    destruct (negb (bool_decide _)); [exact Hdelay|].
    destruct (negb (HasBlockAndState _ _ _)); [exact Ha'|].
    destruct (InsertBlockWithoutSetHead _ _ _) as [w [proofs [err|]]]; simpl.
    + apply (trackerConsistent_record (set_eth a' w) 1 (Block_Hash block)
               (bHeader block)); [reflexivity | exact Ha'].
    + exact Ha'.
  - intros update pa version witness now. unfold forkchoiceUpdated.
    destruct (bool_decide _); [exact Hc|].
    assert (Hs : trackerConsistent (set_lastForkchoiceUpdate api now)) by exact Hc.
    revert Hs. generalize (set_lastForkchoiceUpdate api now). intros a Ha.
    assert (Hsynced : forall a0 : ConsensusAPI,
              trackerConsistent a0 ->
              trackerConsistent (fcuSynced a0 update pa version witness).1).
    { intros a0 Ha0. unfold fcuSynced.
      destruct (fcuFinalized_tracker (set_eth a0 (SetSynced (eth a0))) update pa
                  version witness) as [Hh Ht].
      exact (trackerConsistent_same _ _ Hh Ht Ha0). }
    destruct (GetBlockByHash (eth a) _) as [block|].
    + destruct (checkTerminalBlock a block); [exact Ha|].
      destruct (negb (bool_decide _)).
      * destruct (SetCanonical _ _) as [w [latest [err|]]]; [exact Ha|].
        apply (Hsynced (set_eth a w)). exact Ha.
      * destruct (bool_decide _); [apply Hsynced; exact Ha|].
        destruct (bool_decide _); [exact Ha | apply Hsynced; exact Ha].
    + unfold fcuUnknownHead.
      pose proof (checkInvalidAncestor_consistent a (HeadBlockHash update)
                    (HeadBlockHash update) Ha) as Ha'.
      destruct (checkInvalidAncestor a (HeadBlockHash update) (HeadBlockHash update))
        as [a' [res|]]; simpl in Ha'; [exact Ha'|].
      destruct (queue_get _ _); [|exact Ha'].
      destruct (BeaconSync _ _ _ _) as [w err]. exact Ha'.
Qed.

End TrackerProperties.

(** X1 on the small node: the empty tracker is consistent, and so is the
    tracker after a report. *)
Lemma tracker_stays_consistent_witness :
  trackerConsistent simAPI /\
  trackerConsistent (setInvalidAncestor simAPI (badOf 1) (originOf 1)) /\
  trackerConsistent
    (checkInvalidAncestor (node := simNode opConfig firstKey)
       (setInvalidAncestor simAPI (badOf 1) (originOf 1)) 1%N 9%N).1.
Proof.
  assert (Hempty : trackerConsistent simAPI).
  { intros tip bad Hlook. vm_compute in Hlook. discriminate. }
  pose proof (proj1 (tracker_stays_consistent (node := simNode opConfig firstKey)
                       simAPI Hempty) (badOf 1) (originOf 1)) as Hreport.
  split; [exact Hempty|]. split; [exact Hreport|].
  exact (proj1 (proj2 (tracker_stays_consistent (node := simNode opConfig firstKey)
                         _ Hreport)) 1%N 9%N).
Defined.

Section TrackerBounds.

Context {Tx Wd Payload Envelope Proofs StatelessWitness W : Type}.
Context {node : @Node Tx Wd Payload Envelope Proofs StatelessWitness W}.

(** X2.  A check never lets the tipset map outgrow its cap: afterwards the
    map holds at most 512 entries, or at most as many as before when it held
    more. *)
Theorem checkInvalidAncestor_size (api : ConsensusAPI) (check head : N) :
  rangeFirst_spec ->
  (size (invalidTipsets (checkInvalidAncestor api check head).1)
   <= Nat.max (size (invalidTipsets api)) invalidTipsetsCap)%nat.
Proof.
  intros Hspec. unfold checkInvalidAncestor.
  destruct (invalidTipsets api !! check) as [bad|]; [|simpl; lia].
  destruct (invalidBlockHitEviction <=? _); simpl.
  - pose proof (map_subseteq_size _ _
                  (map_filter_subseteq (fun kv : N * Header => hHash kv.2 <> hHash bad)
                     (invalidTipsets api))) as Hle.
    unfold purgeTipsets. lia.
  - destruct (decide (check <> head)); [|lia].
    destruct (evictLoop_kept Hspec (size (invalidTipsets api)) (invalidTipsets api))
      as [_ Hsize]; [lia|].
    unfold evictTipsets. rewrite map_size_insert.
    destruct (evictLoop _ _ !! head); unfold id, invalidTipsetsCap in *; lia.
Qed.

(** X3.  A check that returns no rejection has settled the tip: the tip is
    not tracked afterwards, and checking it again, on behalf of whatever
    head, returns no rejection and changes nothing. *)
Theorem checkInvalidAncestor_settled (api api' : ConsensusAPI) (check head : N) :
  checkInvalidAncestor api check head = (api', None) ->
  invalidTipsets api' !! check = None /\
  forall head' : N, checkInvalidAncestor api' check head' = (api', None).
Proof.
  intros Hcall.
  assert (Hgone : invalidTipsets api' !! check = None).
  { unfold checkInvalidAncestor in Hcall.
    destruct (invalidTipsets api !! check) as [bad|] eqn:Hbad.
    - destruct (invalidBlockHitEviction <=? _); [|discriminate].
      injection Hcall as <-. simpl. rewrite purgeTipsets_lookup, Hbad.
      destruct (decide (hHash bad = hHash bad)); [reflexivity | contradiction].
    - injection Hcall as <-. exact Hbad. }
  split; [exact Hgone|].
  intros head'. unfold checkInvalidAncestor. rewrite Hgone. reflexivity.
Qed.

(** One more check of a tip whose bad ancestor stays below the threshold:
    the count goes up by one, and nothing else changes. *)
Lemma checkInvalidAncestor_own (api : ConsensusAPI) (tip : N) (bad : Header) :
  invalidTipsets api !! tip = Some bad ->
  let count := intIncr (hitCount (invalidBlocksHits api) (hHash bad)) in
  count < invalidBlockHitEviction ->
  (checkInvalidAncestor api tip tip).1
    = set_invalid api (<[hHash bad := count]> (invalidBlocksHits api))
        (invalidTipsets api) /\
  exists res : PayloadStatusV1,
    (checkInvalidAncestor api tip tip).2 = Some res /\ Status res = INVALID.
Proof.
  intros Hbad count Hlow. unfold checkInvalidAncestor. rewrite Hbad. fold count.
  rewrite (proj2 (Z.leb_gt _ _) Hlow).
  destruct (decide (tip <> tip)) as [Hne|_]; [contradiction|]. simpl.
  split; [reflexivity|]. eexists. split; reflexivity.
Qed.

(** X4.  A tracked tip is rejected until the hit count of its bad ancestor
    reaches 128, and then forgotten.  With a count [c] to begin with, [n]
    checks of the tip leave the tipsets alone and the count at [c + n], as
    long as this stays below 128; the next check rejects when it brings the
    count to less than 128, and when it brings it to 128 that check returns
    no rejection and drops the tip. *)
Theorem rejected_until_threshold (api : ConsensusAPI) (tip : N) (bad : Header) (n : nat) :
  invalidTipsets api !! tip = Some bad ->
  let c := hitCount (invalidBlocksHits api) (hHash bad) in
  0 <= c ->
  c + Z.of_nat n < invalidBlockHitEviction ->
  let after := checkedTimes n api tip in
  invalidTipsets after = invalidTipsets api /\
  hitCount (invalidBlocksHits after) (hHash bad) = c + Z.of_nat n /\
  eth after = eth api /\
  (c + Z.of_nat n + 1 < invalidBlockHitEviction ->
     exists res : PayloadStatusV1,
       (checkInvalidAncestor after tip tip).2 = Some res /\ Status res = INVALID) /\
  (c + Z.of_nat n + 1 = invalidBlockHitEviction ->
     (checkInvalidAncestor after tip tip).2 = None /\
     invalidTipsets (checkInvalidAncestor after tip tip).1 !! tip = None /\
     invalidBlocksHits (checkInvalidAncestor after tip tip).1 !! hHash bad = None).
Proof.
  intros Hbad c Hc Hn after. unfold invalidBlockHitEviction in *.
  assert (Hstate : forall k : nat,
            c + Z.of_nat k < 128 ->
            invalidTipsets (checkedTimes k api tip) = invalidTipsets api /\
            hitCount (invalidBlocksHits (checkedTimes k api tip)) (hHash bad)
              = c + Z.of_nat k /\
            eth (checkedTimes k api tip) = eth api).
  { induction k as [|k IH]; intros Hk.
    - simpl. split; [reflexivity|]. split; [fold c; lia | reflexivity].
    - destruct IH as (Ht & Hh & He); [lia|].
      unfold checkedTimes in *. simpl.
      set (prev := Nat.iter k _ api) in *.
      destruct (checkInvalidAncestor_own prev tip bad) as [Hnext _].
      { rewrite Ht. exact Hbad. }
      { rewrite Hh, intIncr_small by lia. unfold invalidBlockHitEviction. lia. }
      rewrite Hnext. simpl. split; [exact Ht|]. split; [|exact He].
      unfold hitCount. rewrite lookup_insert_eq. simpl.
      fold (hitCount (invalidBlocksHits prev) (hHash bad)).
      rewrite Hh, intIncr_small by lia. lia. }
  destruct (Hstate n Hn) as (Ht & Hh & He).
  fold after in Ht, Hh, He.
  split; [exact Ht|]. split; [exact Hh|]. split; [exact He|]. split.
  - intros Hlow. apply (checkInvalidAncestor_own after tip bad).
    + rewrite Ht. exact Hbad.
    + rewrite Hh, intIncr_small by lia. unfold invalidBlockHitEviction. lia.
  - intros Hfull. unfold checkInvalidAncestor. rewrite Ht, Hbad, Hh.
    rewrite intIncr_small by lia.
    replace (c + Z.of_nat n + 1) with 128 by lia. simpl.
    split; [reflexivity|]. split.
    + rewrite purgeTipsets_lookup, Hbad.
      destruct (decide (hHash bad = hHash bad)); [reflexivity | contradiction].
    + apply lookup_delete_eq.
Qed.

(** X5.  A tip the downloader has reported is rejected by the next check:
    after [setInvalidAncestor invalid origin] on a tracker where the bad
    block has a count below 126, the check of the origin's hash returns
    INVALID and cites the parent of the bad block (the zero hash when that
    parent has a non-zero difficulty); the count has gone up by two. *)
Theorem reported_tip_rejected (api : ConsensusAPI) (invalid origin : Header) :
  let c := hitCount (invalidBlocksHits api) (hHash invalid) in
  0 <= c < 126 ->
  exists (api' : ConsensusAPI) (res : PayloadStatusV1),
    checkInvalidAncestor (setInvalidAncestor api invalid origin)
      (hHash origin) (hHash origin) = (api', Some res) /\
    Status res = INVALID /\
    LatestValidHash res = Some (lastValidOf (eth api) invalid) /\
    invalidBlocksHits api' !! hHash invalid = Some (c + 2) /\
    invalidTipsets api' !! hHash origin = Some invalid.
Proof.
  intros c Hc.
  assert (Hcount : hitCount (<[hHash invalid := intIncr c]> (invalidBlocksHits api))
                     (hHash invalid) = c + 1).
  { unfold hitCount. rewrite lookup_insert_eq. simpl. apply intIncr_small. lia. }
  unfold checkInvalidAncestor, setInvalidAncestor. simpl.
  rewrite lookup_insert_eq. fold c. rewrite Hcount.
  rewrite (intIncr_small (c + 1)) by lia.
  rewrite (proj2 (Z.leb_gt _ _)) by (unfold invalidBlockHitEviction; lia).
  destruct (decide (hHash origin <> hHash origin)) as [Hne|_]; [contradiction|].
  eexists. eexists. split; [reflexivity|]. simpl. split; [reflexivity|]. split.
  - unfold lastValidOf. destruct (GetHeader _ _ _) as [parent|]; [|reflexivity].
    rewrite Sign_eqb_0. destruct (Difficulty parent =? 0); reflexivity.
  - split; [|apply lookup_insert_eq]. rewrite lookup_insert_eq. f_equal. lia.
Qed.

End TrackerBounds.

(** X2 on the small node: three tipsets and one more stay within the cap. *)
Lemma checkInvalidAncestor_size_witness :
  @rangeFirst_spec _ _ _ _ _ _ _ (simNode opConfig firstKey) /\
  (size (invalidTipsets
           (checkInvalidAncestor (node := simNode opConfig firstKey)
              (tracked 3) 2%N 5000%N).1) <= 512)%nat.
Proof.
  split; [apply firstKey_spec|].
  exact (checkInvalidAncestor_size (node := simNode opConfig firstKey)
           (tracked 3) 2%N 5000%N (firstKey_spec opConfig)).
Defined.

(** X3 on the small node: the check that finds count 128 reached returns
    no rejection, and the tip is settled. *)
Lemma checkInvalidAncestor_settled_witness :
  (checkInvalidAncestor (node := simNode opConfig firstKey) (reported 127) 1%N 1%N).2
    = None /\
  forall head' : N,
    (checkInvalidAncestor (node := simNode opConfig firstKey)
       (checkInvalidAncestor (node := simNode opConfig firstKey)
          (reported 127) 1%N 1%N).1 1%N head').2 = None.
Proof.
  assert (Hnone : (checkInvalidAncestor (node := simNode opConfig firstKey)
                     (reported 127) 1%N 1%N).2 = None)
    by (vm_compute; reflexivity).
  split; [exact Hnone|]. intros head'.
  destruct (checkInvalidAncestor (node := simNode opConfig firstKey)
              (reported 127) 1%N 1%N) as [api' res] eqn:Hcall.
  simpl in Hnone. subst res. cbn [fst].
  rewrite (proj2 (checkInvalidAncestor_settled (node := simNode opConfig firstKey)
                    _ _ _ _ Hcall) head').
  reflexivity.
Defined.

(** X4 on the small node: after one report the count is 1; 126 checks
    bring it to 127, and the check after them forgets the tip. *)
Lemma rejected_until_threshold_witness :
  invalidTipsets (reported 1) !! 1%N = Some (badOf 1) /\
  hitCount (invalidBlocksHits (checkedTimes (node := simNode opConfig firstKey)
                                 126 (reported 1) 1%N)) (hHash (badOf 1)) = 127 /\
  (checkInvalidAncestor (node := simNode opConfig firstKey)
     (checkedTimes (node := simNode opConfig firstKey) 126 (reported 1) 1%N)
     1%N 1%N).2 = None.
Proof.
  assert (Hbad : invalidTipsets (reported 1) !! 1%N = Some (badOf 1))
    by (vm_compute; reflexivity).
  split; [exact Hbad|].
  destruct (rejected_until_threshold (node := simNode opConfig firstKey)
              (reported 1) 1%N (badOf 1) 126 Hbad)
    as (_ & Hcount & _ & _ & Hforget).
  - vm_compute. discriminate.
  - vm_compute. reflexivity.
  - split; [exact Hcount|]. apply Hforget. vm_compute. reflexivity.
Defined.

(** X5 on the small node: the tip reported first is rejected at once, with
    the parent 999 of the bad block as latest valid hash. *)
Lemma reported_tip_rejected_witness :
  0 <= hitCount (invalidBlocksHits simAPI) (hHash (badOf 1)) < 126 /\
  exists (api' : ConsensusAPI) (res : PayloadStatusV1),
    checkInvalidAncestor (node := simNode opConfig firstKey)
      (setInvalidAncestor simAPI (badOf 1) (originOf 1)) 1%N 1%N = (api', Some res) /\
    Status res = INVALID /\
    LatestValidHash res = Some 999%N /\
    invalidBlocksHits api' !! 1001%N = Some 2.
Proof.
  assert (Hc : 0 <= hitCount (invalidBlocksHits simAPI) (hHash (badOf 1)) < 126)
    by (vm_compute; split; [discriminate | reflexivity]).
  split; [exact Hc|].
  destruct (reported_tip_rejected (node := simNode opConfig firstKey) simAPI
              (badOf 1) (originOf 1) Hc)
    as (api' & res & Hcall & Hstatus & Hlast & Hcount & _).
  exists api', res. split; [exact Hcall|]. split; [exact Hstatus|].
  split; [exact Hlast | exact Hcount].
Defined.

Section CacheProperties.

Context {K V : Type} `{EqDecision K}.

Lemma queue_get_put (capacity : nat) (k : K) (v : V) (q : list (K * V)) :
  (0 < capacity)%nat -> queue_get k (queue_put capacity k v q) = Some v.
Proof.
  intros Hcap. unfold queue_put. destruct capacity as [|capacity]; [lia|].
  simpl. destruct (decide (k = k)); [reflexivity | contradiction].
Qed.

Lemma queue_has_put (capacity : nat) (k : K) (v : V) (q : list (K * V)) :
  (0 < capacity)%nat -> queue_has k (queue_put capacity k v q) = true.
Proof.
  intros Hcap. unfold queue_has. rewrite queue_get_put by exact Hcap.
  apply bool_decide_eq_true_2. eexists. reflexivity.
Qed.

End CacheProperties.

Section ImportProperties.

Context {Tx Wd Payload Envelope Proofs StatelessWitness W : Type}.
Context {node : @Node Tx Wd Payload Envelope Proofs StatelessWitness W}.

(** X6.  A delayed import has two outcomes.  Either the parent is tainted:
    the answer is the INVALID rejection of the tracker, the block is not
    cached and the node is not asked anything.  Or the answer is SYNCING,
    and the header of the block is then found in the cache of remote
    headers under the block's hash (the cache holding at least one
    entry). *)
Theorem delayPayloadImport_outcome (api : ConsensusAPI) (block : Block) :
  (Status (delayPayloadImport api block).2 = INVALID /\
   remoteBlocks (delayPayloadImport api block).1 = remoteBlocks api /\
   eth (delayPayloadImport api block).1 = eth api) \/
  (delayPayloadImport api block).2 = mkStatus SYNCING None None None /\
  ((0 < maxTrackedHeaders)%nat ->
   queue_get (Block_Hash block) (remoteBlocks (delayPayloadImport api block).1)
     = Some (bHeader block)).
Proof.
  unfold delayPayloadImport.
  pose proof (checkInvalidAncestor_outside api (Block_ParentHash block)
                (Block_Hash block)) as Hout.
  destruct (checkInvalidAncestor api (Block_ParentHash block) (Block_Hash block))
    as [a [res|]] eqn:Hcheck.
  - left. destruct Hout as (He & Hr & _). simpl in *.
    split; [exact (checkInvalidAncestor_rejects _ _ _ _ _ Hcheck)|].
    split; assumption.
  - right. destruct (BeaconExtend _ _ _) as [w [e|]]; simpl;
      (split; [reflexivity|]); intros Hcap; apply queue_get_put; exact Hcap.
Qed.

(** X7.  The way to a sync.  The head of a fork-choice update is not the
    zero hash, is not known locally and is not tracked as bad.  As long as
    the cache of remote headers does not have it, the update answers
    SYNCING without an error and only stamps the liveness time.  Once a
    new-payload call for a block with that hash, unknown and with an
    untracked parent that is missing, has been delayed, the call has
    answered SYNCING, and the same update, the block still unknown, hands
    the header of that block to the downloader and answers SYNCING with
    whatever error the downloader returns. *)
Theorem delayed_block_syncs (api : ConsensusAPI) (params : ExecutableData)
    (versionedHashes : option (list N)) (beaconRoot : option N)
    (requests : option (list (list N))) (witness : bool) (block : Block)
    (update : ForkchoiceStateV1) (pa : option PayloadAttributes) (version : N)
    (payloadWitness : bool) (now now' : Z) :
  HeadBlockHash update <> zeroHash ->
  HeadBlockHash update = Block_Hash block ->
  GetBlockByHash (eth api) (HeadBlockHash update) = None ->
  invalidTipsets api !! Block_Hash block = None ->
  (queue_get (HeadBlockHash update) (remoteBlocks api) = None ->
   forkchoiceUpdated api update pa version payloadWitness now
     = (set_lastForkchoiceUpdate api now, (STATUS_SYNCING, None))) /\
  (decodesTo params versionedHashes beaconRoot requests block ->
   GetBlockByHash (eth api) (edBlockHash params) = None ->
   invalidTipsets api !! Block_ParentHash block = None ->
   GetBlock (eth api) (Block_ParentHash block) (wrap64 (NumberU64 block - 1)) = None ->
   (0 < maxTrackedHeaders)%nat ->
   let delayed :=
     newPayload api params versionedHashes beaconRoot requests witness now in
   delayed.2 = (mkStatus SYNCING None None None, None) /\
   (GetBlockByHash (eth delayed.1) (HeadBlockHash update) = None ->
    forkchoiceUpdated delayed.1 update pa version payloadWitness now'
      = let sync :=
          BeaconSync (eth delayed.1) (GetSyncMode (eth delayed.1)) (bHeader block)
            (queue_get (FinalizedBlockHash update) (remoteBlocks delayed.1)) in
        (set_eth (set_lastForkchoiceUpdate delayed.1 now') sync.1,
         (STATUS_SYNCING, sync.2)))).
Proof.
  intros Hhead Hhash Hunknown Htip.
  assert (Hfcu : forall (a : ConsensusAPI) (t : Z),
            GetBlockByHash (eth a) (HeadBlockHash update) = None ->
            invalidTipsets a !! Block_Hash block = None ->
            forkchoiceUpdated a update pa version payloadWitness t
              = match queue_get (HeadBlockHash update) (remoteBlocks a) with
                | None => (set_lastForkchoiceUpdate a t, (STATUS_SYNCING, None))
                | Some header =>
                    let sync :=
                      BeaconSync (eth a) (GetSyncMode (eth a)) header
                        (queue_get (FinalizedBlockHash update) (remoteBlocks a)) in
                    (set_eth (set_lastForkchoiceUpdate a t) sync.1,
                     (STATUS_SYNCING, sync.2))
                end).
  { intros a t Hu Ht. unfold forkchoiceUpdated.
    rewrite (bool_decide_eq_false_2 _ Hhead). simpl eth. rewrite Hu.
    unfold fcuUnknownHead, checkInvalidAncestor. simpl invalidTipsets.
    rewrite Hhash, Ht. simpl remoteBlocks. rewrite <- Hhash.
    destruct (queue_get (HeadBlockHash update) (remoteBlocks a)); [|reflexivity].
    simpl eth. destruct (BeaconSync _ _ _ _). reflexivity. }
  split.
  - intros Hmiss. rewrite (Hfcu api now Hunknown Htip), Hmiss. reflexivity.
  - intros Hdec Hnew Hparent Hnoparent Hcap delayed.
    assert (Hcheck : checkInvalidAncestor api (Block_Hash block) (Block_Hash block)
                     = (api, None)).
    { unfold checkInvalidAncestor. rewrite Htip. reflexivity. }
    destruct (newPayload_untainted api api params versionedHashes beaconRoot
                requests witness now block Hdec Hnew Hcheck) as [_ Hrest].
    cbv zeta in Hrest. simpl eth in Hrest. rewrite Hnoparent in Hrest.
    unfold delayPayloadImport, checkInvalidAncestor in Hrest.
    simpl invalidTipsets in Hrest. rewrite Hparent in Hrest.
    destruct (BeaconExtend (eth (set_remoteBlocks (set_lastNewPayloadUpdate api now) _))
                _ _) as [w e] eqn:Hext.
    assert (Hdelayed : delayed
              = (set_eth (set_remoteBlocks (set_lastNewPayloadUpdate api now)
                            (queue_put maxTrackedHeaders (Block_Hash block)
                               (bHeader block) (remoteBlocks api))) w,
                 (mkStatus SYNCING None None None, None))).
    { unfold delayed. rewrite Hrest. destruct e; reflexivity. }
    rewrite Hdelayed. split; [reflexivity|]. cbn [fst]. intros Hstill.
    rewrite (Hfcu _ now' Hstill Htip). simpl remoteBlocks.
    rewrite Hhash, queue_get_put by exact Hcap. reflexivity.
Qed.

End ImportProperties.

(** X7 on the small node: the head 500 is unknown, and the update to it
    answers SYNCING; the block 500, whose parent 400 is missing, is
    delayed, and the update to it then goes to the downloader. *)
Lemma delayed_block_syncs_witness :
  forkchoiceUpdated (node := simNode opConfig firstKey) simAPI (mkForkchoice 500 0 0)
    None PayloadV3 false 78
    = (set_lastForkchoiceUpdate simAPI 78, (STATUS_SYNCING, None)) /\
  (newPayload (node := simNode opConfig firstKey) simAPI payloadOrphan
     None None None false 78).2 = (mkStatus SYNCING None None None, None) /\
  queue_get 500%N
    (remoteBlocks (newPayload (node := simNode opConfig firstKey) simAPI payloadOrphan
                     None None None false 78).1)
    = Some (bHeader (simDecode payloadOrphan)) /\
  (forkchoiceUpdated (node := simNode opConfig firstKey)
     (newPayload (node := simNode opConfig firstKey) simAPI payloadOrphan
        None None None false 78).1
     (mkForkchoice 500 0 0) None PayloadV3 false 79).2 = (STATUS_SYNCING, None).
Proof.
  assert (Hhead : HeadBlockHash (mkForkchoice 500 0 0) <> zeroHash) by discriminate.
  destruct (delayed_block_syncs (node := simNode opConfig firstKey) simAPI payloadOrphan
              None None None false (simDecode payloadOrphan) (mkForkchoice 500 0 0)
              None PayloadV3 false 78 79 Hhead eq_refl eq_refl eq_refl)
    as [Hfirst Hthen].
  split; [exact (Hfirst eq_refl)|].
  destruct Hthen as [Hdelayed Hsync];
    [split; reflexivity | reflexivity | reflexivity | reflexivity
     | simpl; lia |].
  split; [exact Hdelayed|]. split; [vm_compute; reflexivity|].
  rewrite (Hsync eq_refl). reflexivity.
Defined.

Section ForkchoiceProperties.

Context {Tx Wd Payload Envelope Proofs StatelessWitness W : Type}.
Context {node : @Node Tx Wd Payload Envelope Proofs StatelessWitness W}.

(** X8.  The pointers of a fork-choice update are checked one after the
    other, each when the steps before it have been taken.  For an update
    whose head is the current canonical head: when the finalized hash is
    not zero and names no canonical block, the update is refused with the
    invalid-forkchoice-state error, the node marked synced and no pointer
    moved; when the finalized block is fine but the safe hash is not zero
    and names no canonical block, the update is refused with the same
    error, and the finalized pointer has been set all the same. *)
Theorem forkchoiceUpdated_pointers (api : ConsensusAPI) (update : ForkchoiceStateV1)
    (payloadAttributes : option PayloadAttributes) (payloadVersion : N)
    (payloadWitness : bool) (now : Z) (block : Block) :
  HeadBlockHash update <> zeroHash ->
  GetBlockByHash (eth api) (HeadBlockHash update) = Some block ->
  checkTerminalBlock api block = None ->
  ReadCanonicalHash (eth api) (NumberU64 block) = HeadBlockHash update ->
  hHash (CurrentBlock (eth api)) = HeadBlockHash update ->
  let synced := set_eth (set_lastForkchoiceUpdate api now) (SetSynced (eth api)) in
  (FinalizedBlockHash update <> zeroHash ->
   (forall b : Block,
      GetBlockByHash (eth synced) (FinalizedBlockHash update) = Some b ->
      ReadCanonicalHash (eth synced) (NumberU64 b) <> FinalizedBlockHash update) ->
   exists err : error,
     forkchoiceUpdated api update payloadAttributes payloadVersion payloadWitness now
       = (synced, (STATUS_INVALID, Some (With InvalidForkChoiceState err)))) /\
  (forall finalBlock : Block,
     FinalizedBlockHash update <> zeroHash ->
     GetBlockByHash (eth synced) (FinalizedBlockHash update) = Some finalBlock ->
     ReadCanonicalHash (eth synced) (NumberU64 finalBlock) = FinalizedBlockHash update ->
     let finalized := set_eth synced (SetFinalized (eth synced) (bHeader finalBlock)) in
     SafeBlockHash update <> zeroHash ->
     (forall b : Block,
        GetBlockByHash (eth finalized) (SafeBlockHash update) = Some b ->
        ReadCanonicalHash (eth finalized) (NumberU64 b) <> SafeBlockHash update) ->
     exists err : error,
       forkchoiceUpdated api update payloadAttributes payloadVersion payloadWitness now
         = (finalized, (STATUS_INVALID, Some (With InvalidForkChoiceState err)))).
Proof.
  intros Hhead Hblock Hterminal Hcanon Htip synced.
  assert (Hcall : forkchoiceUpdated api update payloadAttributes payloadVersion
                    payloadWitness now
                  = fcuFinalized synced update payloadAttributes payloadVersion
                      payloadWitness).
  { unfold forkchoiceUpdated. rewrite (bool_decide_eq_false_2 _ Hhead).
    cbv zeta. simpl eth. rewrite Hblock.
    replace (checkTerminalBlock (set_lastForkchoiceUpdate api now) block)
      with (checkTerminalBlock api block) by reflexivity.
    rewrite Hterminal, (bool_decide_eq_true_2 _ Hcanon), (bool_decide_eq_true_2 _ Htip).
    reflexivity. }
  rewrite Hcall. split.
  - intros Hfinal Hbad. unfold fcuFinalized.
    rewrite (bool_decide_eq_false_2 _ Hfinal). simpl negb. cbv iota.
    destruct (GetBlockByHash (eth synced) (FinalizedBlockHash update)) as [b|] eqn:Hb.
    + rewrite (bool_decide_eq_false_2 _ (Hbad b eq_refl)). eexists. reflexivity.
    + eexists. reflexivity.
  - intros finalBlock Hfinal Hb Hcan finalized Hsafe Hbad. unfold fcuFinalized.
    rewrite (bool_decide_eq_false_2 _ Hfinal). simpl negb. cbv iota.
    rewrite Hb, (bool_decide_eq_true_2 _ Hcan). simpl negb. cbv iota.
    fold finalized. unfold fcuSafe.
    rewrite (bool_decide_eq_false_2 _ Hsafe). simpl negb. cbv iota.
    destruct (GetBlockByHash (eth finalized) (SafeBlockHash update)) as [b|] eqn:Hs.
    + rewrite (bool_decide_eq_false_2 _ (Hbad b eq_refl)). eexists. reflexivity.
    + eexists. reflexivity.
Qed.

(** X9.  A payload is built once.  When the payload-building part of a
    fork-choice update has answered VALID with a payload id, the cache of
    built payloads holding at least one entry, get-payload finds a payload
    under that id, and the same request made again, with or without a
    witness, returns that id without another call to the builder and
    without a change of the API object. *)
Theorem payload_built_once (api api' : ConsensusAPI) (update : ForkchoiceStateV1)
    (pa : PayloadAttributes) (payloadVersion : N) (payloadWitness : bool)
    (id : list N) :
  (0 < maxTrackedPayloads)%nat ->
  fcuBuildPayload api update (Some pa) payloadVersion payloadWitness
    = (api', (valid update (Some id), None)) ->
  (exists payload : Payload,
     forall full : bool, getPayload api' id full = inl (Resolve payload full)) /\
  forall payloadWitness' : bool,
    fcuBuildPayload api' update (Some pa) payloadVersion payloadWitness'
      = (api', (valid update (Some id), None)).
Proof.
  intros Hcap. unfold fcuBuildPayload.
  destruct (checkAttributes pa) as [eip1559Params|err]; [|discriminate].
  destruct (decodeTransactions 0 (paTransactions pa)) as [transactions|err];
    [|discriminate].
  cbv zeta.
  set (args := mkBuildArgs (HeadBlockHash update) (paTimestamp pa)
                 (paSuggestedFeeRecipient pa) (paRandom pa) (paWithdrawals pa)
                 (paBeaconRoot pa) (paNoTxPool pa) transactions (paGasLimit pa)
                 payloadVersion eip1559Params).
  assert (Hfound : forall a : ConsensusAPI,
            queue_has (Id args) (localBlocks a) = true ->
            exists payload : Payload,
              forall full : bool, getPayload a (Id args) full = inl (Resolve payload full)).
  { intros a Hhas. unfold queue_has in Hhas. apply bool_decide_eq_true_1 in Hhas.
    destruct Hhas as [payload Hget]. exists payload. intros full.
    unfold getPayload, payloadQueue_get. rewrite Hget. reflexivity. }
  destruct (queue_has (Id args) (localBlocks api)) eqn:Hhas.
  - intros [= <- <-]. split; [exact (Hfound api Hhas)|].
    intros payloadWitness'. rewrite Hhas. reflexivity.
  - destruct (BuildPayload (eth api) args payloadWitness) as [w [payload|err]];
      [|discriminate].
    intros [= <- <-].
    assert (Hnow : forall q : list (list N * Payload),
              queue_has (Id args)
                (localBlocks
                   (set_localBlocks (set_eth api w)
                      (queue_put maxTrackedPayloads (Id args) payload q))) = true)
      by (intros q; simpl localBlocks; apply queue_has_put; exact Hcap).
    split; [exact (Hfound _ (Hnow _))|].
    intros payloadWitness'. rewrite Hnow. reflexivity.
Qed.

(** X10.  The transactions of payload attributes are decoded in order.
    The decoding succeeds exactly when every transaction decodes, and then
    gives the decoded transactions in the order of the attributes; it
    fails exactly with the error of the first transaction that does not
    decode, under the index of that transaction. *)
Theorem decodeTransactions_spec (otxs : list (list N)) :
  (forall txs : list Tx,
     decodeTransactions 0 otxs = inl txs <->
     Forall2 (fun otx tx => UnmarshalBinary otx = inl tx) otxs txs) /\
  (forall err : error,
     decodeTransactions 0 otxs = inr err <->
     exists (i : nat) (otx : list N) (e : error),
       otxs !! i = Some otx /\
       UnmarshalBinary otx = inr e /\
       (forall (j : nat) (o : list N),
          (j < i)%nat -> otxs !! j = Some o -> exists tx : Tx, UnmarshalBinary o = inl tx) /\
       err = fmt_Errorf "transaction %d is not valid: %v"
               [ArgNum (Z.of_nat i); ArgText (Error e)]).
Proof.
  assert (Hgen : forall (l : list (list N)) (start : Z),
            (forall txs : list Tx,
               decodeTransactions start l = inl txs <->
               Forall2 (fun otx tx => UnmarshalBinary otx = inl tx) l txs) /\
            (forall err : error,
               decodeTransactions start l = inr err <->
               exists (i : nat) (otx : list N) (e : error),
                 l !! i = Some otx /\
                 UnmarshalBinary otx = inr e /\
                 (forall (j : nat) (o : list N),
                    (j < i)%nat -> l !! j = Some o ->
                    exists tx : Tx, UnmarshalBinary o = inl tx) /\
                 err = fmt_Errorf "transaction %d is not valid: %v"
                         [ArgNum (start + Z.of_nat i); ArgText (Error e)])).
  { induction l as [|otx rest IH]; intros start.
    - split.
      + intros txs. simpl. split.
        * intros [= <-]. constructor.
        * intros H. inversion H. reflexivity.
      + intros err. simpl. split; [discriminate|].
        intros (i & o & e & Hi & _). rewrite lookup_nil in Hi. discriminate.
    - destruct (IH (start + 1)) as [IHok IHerr]. simpl.
      destruct (UnmarshalBinary otx) as [tx|e] eqn:Hotx.
      + split.
        * intros txs. destruct (decodeTransactions (start + 1) rest) as [txs'|err'] eqn:Hrest.
          -- split.
             ++ intros [= <-]. constructor; [exact Hotx|]. apply IHok. reflexivity.
             ++ intros H. inversion H as [|? tx0 ? txs0 Hhd Htl]; subst.
                rewrite Hotx in Hhd. injection Hhd as <-.
                apply IHok in Htl. injection Htl as <-. reflexivity.
          -- split; [discriminate|].
             intros H. inversion H as [|? tx0 ? txs0 Hhd Htl]; subst.
             apply IHok in Htl. discriminate.
        * intros err. destruct (decodeTransactions (start + 1) rest) as [txs'|err'] eqn:Hrest.
          -- split; [discriminate|].
             intros (i & o & e & Hi & Ho & Hbefore & ->).
             destruct i as [|i].
             ++ simpl in Hi. injection Hi as <-. congruence.
             ++ simpl in Hi.
                assert (Hex : inl txs' = inr (fmt_Errorf "transaction %d is not valid: %v"
                                  [ArgNum (start + 1 + Z.of_nat i); ArgText (Error e)])
                              :> (list Tx + error)).
                { apply IHerr. exists i, o, e. split; [exact Hi|]. split; [exact Ho|].
                  split; [|reflexivity]. intros j o' Hj Ho'.
                  apply (Hbefore (S j) o'); [lia | exact Ho']. }
                discriminate.
          -- split.
             ++ intros [= <-]. destruct (proj1 (IHerr err') eq_refl)
                  as (i & o & e & Hi & Ho & Hbefore & ->).
                exists (S i), o, e. split; [exact Hi|]. split; [exact Ho|]. split.
                ** intros [|j] o' Hj Ho'.
                   --- simpl in Ho'. injection Ho' as <-. exists tx. exact Hotx.
                   --- simpl in Ho'. apply (Hbefore j o'); [lia | exact Ho'].
                ** replace (start + Z.of_nat (S i)) with (start + 1 + Z.of_nat i) by lia.
                   reflexivity.
             ++ intros (i & o & e & Hi & Ho & Hbefore & ->).
                destruct i as [|i].
                ** simpl in Hi. injection Hi as <-. congruence.
                ** simpl in Hi.
                   assert (Hex : inr err' = inr (fmt_Errorf "transaction %d is not valid: %v"
                                     [ArgNum (start + 1 + Z.of_nat i); ArgText (Error e)])
                                 :> (list Tx + error)).
                   { apply IHerr. exists i, o, e. split; [exact Hi|]. split; [exact Ho|].
                     split; [|reflexivity]. intros j o' Hj Ho'.
                     apply (Hbefore (S j) o'); [lia | exact Ho']. }
                   injection Hex as ->.
                   replace (start + Z.of_nat (S i)) with (start + 1 + Z.of_nat i) by lia.
                   reflexivity.
      + split.
        * intros txs. split; [discriminate|].
          intros H. inversion H as [|? tx0 ? txs0 Hhd Htl]; subst. congruence.
        * intros err. split.
          -- intros [= <-]. exists 0%nat, otx, e. split; [reflexivity|].
             split; [exact Hotx|]. split; [intros j o Hj; lia|].
             replace (start + Z.of_nat 0) with start by lia. reflexivity.
          -- intros (i & o & e' & Hi & Ho & Hbefore & ->).
             destruct i as [|i].
             ++ simpl in Hi. injection Hi as <-. rewrite Hotx in Ho.
                injection Ho as <-.
                replace (start + Z.of_nat 0) with start by lia. reflexivity.
             ++ destruct (Hbefore 0%nat otx) as [tx Htx]; [lia | reflexivity |].
                congruence. }
  destruct (Hgen otxs 0) as [Hok Herr]. split; [exact Hok|].
  intros err. rewrite Herr. reflexivity.
Qed.

End ForkchoiceProperties.

Section ResendProperties.

Context {Tx Wd Payload Envelope Proofs StatelessWitness W : Type}.
Context {node : @Node Tx Wd Payload Envelope Proofs StatelessWitness W}.

(** X11.  A block that failed to execute is not executed again.  After a
    new-payload call in which the insertion of the block failed, the same
    payload sent again -- the block still unknown to the node -- is
    answered by the tracker: INVALID, with the reason of the tracker and
    the latest valid hash it derives from the block's parent, the hit
    count of the block at 2, and the node as the failed insertion left
    it. *)
Theorem failed_block_stays_rejected (api api' : ConsensusAPI) (params : ExecutableData)
    (versionedHashes : option (list N)) (beaconRoot : option N)
    (requests : option (list (list N))) (witness witness' : bool) (now now' : Z)
    (block parent : Block) (w' : W) (proofs : option Proofs) (err : error) :
  decodesTo params versionedHashes beaconRoot requests block ->
  GetBlockByHash (eth api) (edBlockHash params) = None ->
  checkInvalidAncestor api (Block_Hash block) (Block_Hash block) = (api', None) ->
  GetBlock (eth api) (Block_ParentHash block) (wrap64 (NumberU64 block - 1))
    = Some parent ->
  Block_Time parent < Block_Time block ->
  GetSyncMode (eth api) = FullSync ->
  HasBlockAndState (eth api) (Block_ParentHash block) (wrap64 (NumberU64 block - 1))
    = true ->
  InsertBlockWithoutSetHead (eth api) block witness = (w', (proofs, Some err)) ->
  GetBlockByHash w' (edBlockHash params) = None ->
  let failed :=
    (newPayload api params versionedHashes beaconRoot requests witness now).1 in
  exists (api2 : ConsensusAPI) (st : PayloadStatusV1),
    newPayload failed params versionedHashes beaconRoot requests witness' now'
      = (api2, (st, None)) /\
    eth api2 = w' /\
    invalidBlocksHits api2 !! Block_Hash block = Some 2 /\
    invalidTipsets api2 = invalidTipsets failed /\
    Status st = INVALID /\
    LatestValidHash st = Some (lastValidOf w' (bHeader block)) /\
    ValidationError st = Some "links to previously rejected block"%string.
Proof.
  intros Hdec Hunknown Hcheck Hparent Htime Hmode Hstate Hins Hstill failed.
  destruct (newPayload_untainted api api' params versionedHashes beaconRoot
              requests witness now block Hdec Hunknown Hcheck) as [Heth Hrest].
  assert (Hfailed : failed
            = set_invalid (set_eth (set_lastNewPayloadUpdate api' now) w')
                (<[Block_Hash block := 1]> (invalidBlocksHits api'))
                (<[Block_Hash block := bHeader block]> (invalidTipsets api'))).
  { unfold failed. rewrite Hrest. cbv zeta. rewrite Heth, Hparent.
    rewrite (proj2 (Z.leb_gt _ _) Htime), Hmode, Hstate, Hins.
    rewrite bool_decide_eq_true_2 by reflexivity. reflexivity. }
  destruct Hdec as [Hextra Hblock].
  unfold newPayload. rewrite Hextra, Hblock. cbv zeta.
  rewrite Hfailed. simpl eth. rewrite Hstill.
  unfold checkInvalidAncestor. simpl invalidTipsets. simpl invalidBlocksHits.
  rewrite lookup_insert_eq. cbv zeta.
  replace (hHash (bHeader block)) with (Block_Hash block) by reflexivity.
  unfold hitCount. rewrite lookup_insert_eq. simpl default.
  replace (invalidBlockHitEviction <=? intIncr 1) with false by reflexivity.
  destruct (decide (Block_Hash block <> Block_Hash block)) as [Hne|_]; [contradiction|].
  eexists. eexists. split; [reflexivity|]. simpl.
  split; [reflexivity|]. split; [apply lookup_insert_eq|]. split; [reflexivity|].
  split; [reflexivity|]. split; [|reflexivity].
  unfold lastValidOf. destruct (GetHeader w' _ _) as [ph|]; [|reflexivity].
  rewrite Sign_eqb_0. destruct (Difficulty ph =? 0); reflexivity.
Qed.

(** X12.  Stateless execution leaves the node and the caches alone.  A
    call never returns an error; it answers VALID or INVALID, an INVALID
    answer carries a validation error and zero roots, and the one thing
    that may change in the API object is the liveness time of the last
    new-payload call, which is set whenever payload and witness decode. *)
Theorem executeStatelessPayload_pure (api : ConsensusAPI) (params : ExecutableData)
    (versionedHashes : option (list N)) (beaconRoot : option N)
    (requests : option (list (list N))) (opaqueWitness : list N) (now : Z) :
  let call :=
    executeStatelessPayload api params versionedHashes beaconRoot requests
      opaqueWitness now in
  call.2.2 = None /\
  (call.1 = api \/ call.1 = set_lastNewPayloadUpdate api now) /\
  (forall (block : Block) (witness : StatelessWitness),
     ExecutableDataToBlockNoHash params versionedHashes beaconRoot requests Config
       = inl block ->
     DecodeBytes opaqueWitness = inl witness ->
     call.1 = set_lastNewPayloadUpdate api now) /\
  (slStatus call.2.1 = VALID \/
   slStatus call.2.1 = INVALID /\
   slValidationError call.2.1 <> None /\
   slStateRoot call.2.1 = zeroHash /\
   slReceiptsRoot call.2.1 = zeroHash).
Proof.
  unfold executeStatelessPayload.
  destruct (ExecutableDataToBlockNoHash _ _ _ _ _) as [block|err].
  - destruct (DecodeBytes opaqueWitness) as [witness|err].
    + cbv zeta. destruct (ExecuteStateless Config block witness) as [[s r]|err]; simpl.
      * split; [reflexivity|]. split; [right; reflexivity|].
        split; [reflexivity|]. left. reflexivity.
      * split; [reflexivity|]. split; [right; reflexivity|].
        split; [reflexivity|]. right. repeat split. discriminate.
    + simpl. split; [reflexivity|]. split; [left; reflexivity|].
      split; [discriminate|]. right. repeat split. discriminate.
  - simpl. split; [reflexivity|]. split; [left; reflexivity|].
    split; [discriminate|]. right. repeat split. discriminate.
Qed.

End ResendProperties.

(** X8 on the small node, whose head is 102: with the unknown finalized
    hash 555 the update is refused and the node only marked synced; with
    the finalized block 100 and the unknown safe hash 555 it is refused
    with block 100 finalized. *)
Lemma forkchoiceUpdated_pointers_witness :
  (exists err : error,
     forkchoiceUpdated (node := simNode opConfig firstKey) simAPI (mkForkchoice 102 0 555)
       None PayloadV3 false 77
       = (set_eth (set_lastForkchoiceUpdate simAPI 77)
            (mkSim [blockB; blockA; genesisBlock] [(0, 100%N); (1, 101%N); (2, 102%N)]
               headerB None None true FullSync [666%N]),
          (STATUS_INVALID, Some (With InvalidForkChoiceState err)))) /\
  (exists err : error,
     forkchoiceUpdated (node := simNode opConfig firstKey) simAPI
       (mkForkchoice 102 555 100) None PayloadV3 false 77
       = (set_eth (set_lastForkchoiceUpdate simAPI 77)
            (mkSim [blockB; blockA; genesisBlock] [(0, 100%N); (1, 101%N); (2, 102%N)]
               headerB (Some genesisHeader) None true FullSync [666%N]),
          (STATUS_INVALID, Some (With InvalidForkChoiceState err)))).
Proof.
  assert (Hhead : forall safe final : N,
            HeadBlockHash (mkForkchoice 102 safe final) <> zeroHash)
    by (intros; discriminate).
  assert (H555 : 555%N <> zeroHash) by discriminate.
  assert (H100 : 100%N <> zeroHash) by discriminate.
  split.
  - destruct (forkchoiceUpdated_pointers (node := simNode opConfig firstKey) simAPI
                (mkForkchoice 102 0 555) None PayloadV3 false 77 blockB
                (Hhead _ _) eq_refl eq_refl eq_refl eq_refl) as [Hfinal _].
    apply Hfinal; [exact H555|]. intros b Hb. discriminate Hb.
  - destruct (forkchoiceUpdated_pointers (node := simNode opConfig firstKey) simAPI
                (mkForkchoice 102 555 100) None PayloadV3 false 77 blockB
                (Hhead _ _) eq_refl eq_refl eq_refl eq_refl) as [_ Hsafe].
    apply (Hsafe genesisBlock H100 eq_refl eq_refl H555). intros b Hb. discriminate Hb.
Defined.

(** X9 on the small node: the update with attributes builds the payload
    with id 3, 40; it is found under the id, and the update made again
    gives the same id and the same API object. *)
Lemma payload_built_once_witness :
  (0 < maxTrackedPayloads (Node := simNode opConfig firstKey))%nat /\
  exists api' : ConsensusAPI,
    fcuBuildPayload (node := simNode opConfig firstKey) simAPI (mkForkchoice 102 0 0)
      (Some attributesAt40) PayloadV3 false
      = (api', (valid (mkForkchoice 102 0 0) (Some [3; 40; 0; 0; 0; 0; 0; 0]%N), None)) /\
    is_Some (queue_get [3; 40; 0; 0; 0; 0; 0; 0]%N (localBlocks api')) /\
    fcuBuildPayload (node := simNode opConfig firstKey) api' (mkForkchoice 102 0 0)
      (Some attributesAt40) PayloadV3 true
      = (api', (valid (mkForkchoice 102 0 0) (Some [3; 40; 0; 0; 0; 0; 0; 0]%N), None)).
Proof.
  assert (Hcap : (0 < maxTrackedPayloads (Node := simNode opConfig firstKey))%nat)
    by (simpl; lia).
  split; [exact Hcap|].
  eexists. split; [vm_compute; reflexivity|].
  split; [eexists; vm_compute; reflexivity|].
  refine (proj2 (payload_built_once (node := simNode opConfig firstKey) simAPI _
                   (mkForkchoice 102 0 0) attributesAt40 PayloadV3 false
                   [3; 40; 0; 0; 0; 0; 0; 0]%N Hcap _) true).
  vm_compute. reflexivity.
Defined.

(** X11 on the small node: the block 666 fails to execute; sent again it
    is rejected by the tracker with the head, 102, as latest valid hash,
    and the hit count is 2. *)
Lemma failed_block_stays_rejected_witness :
  decodesTo (node := simNode opConfig firstKey) (payloadOnHead 666 40) None None None
    (simDecode (payloadOnHead 666 40)) /\
  exists (api2 : ConsensusAPI) (st : PayloadStatusV1),
    newPayload (node := simNode opConfig firstKey)
      (newPayload (node := simNode opConfig firstKey) simAPI (payloadOnHead 666 40)
         None None None false 77).1
      (payloadOnHead 666 40) None None None false 78 = (api2, (st, None)) /\
    eth api2 = simChain /\
    invalidBlocksHits api2 !! 666%N = Some 2 /\
    Status st = INVALID /\
    LatestValidHash st = Some 102%N.
Proof.
  assert (Hdec : decodesTo (node := simNode opConfig firstKey) (payloadOnHead 666 40)
                   None None None (simDecode (payloadOnHead 666 40)))
    by (split; reflexivity).
  split; [exact Hdec|].
  assert (Htime : Block_Time blockB
                  < Block_Time (simDecode (payloadOnHead 666 40)))
    by (vm_compute; reflexivity).
  destruct (failed_block_stays_rejected (node := simNode opConfig firstKey)
              simAPI simAPI (payloadOnHead 666 40) None None None false false 77 78
              (simDecode (payloadOnHead 666 40)) blockB
              simChain None (errors_New "invalid block")
              Hdec eq_refl eq_refl eq_refl Htime eq_refl eq_refl eq_refl eq_refl)
    as (api2 & st & Hcall & Heth & Hcount & _ & Hstatus & Hlast & _).
  exists api2, st. split; [exact Hcall|]. split; [exact Heth|].
  split; [exact Hcount|]. split; [exact Hstatus|]. rewrite Hlast. reflexivity.
Defined.

(** * Properties of the chain configuration *)

Section ConfigProperties.

Lemma isTimestampForked_mono (s : option Z) (t t' : Z) :
  t <= t' -> params.isTimestampForked s t = true -> params.isTimestampForked s t' = true.
Proof.
  intros Hle. destruct s as [s|]; simpl; [|discriminate].
  intros H. apply Z.leb_le in H. apply Z.leb_le. lia.
Qed.

(** X13.  [LatestFork] never goes back in time: the fork of a later time
    is the fork of an earlier time or one after it.  And the time forks
    stand on the London block: on a chain with no London block the latest
    fork is Paris at all times, whatever times the forks are set to. *)
Theorem LatestFork_monotone (c : params.ChainConfig) :
  (forall t t' : Z,
     t <= t' -> (forkRank (params.LatestFork c t) <= forkRank (params.LatestFork c t'))%nat) /\
  (params.LondonBlock c = None -> forall t : Z, params.LatestFork c t = params.Paris).
Proof.
  split.
  - intros t t' Hle. unfold params.LatestFork. cbv zeta.
    unfold params.IsOsaka, params.IsPrague, params.IsCancun, params.IsShanghai.
    destruct (params.IsLondon c (params.LondonBlock c)); simpl; [|lia].
    pose proof (isTimestampForked_mono (params.OsakaTime c) t t' Hle) as Ho.
    pose proof (isTimestampForked_mono (params.PragueTime c) t t' Hle) as Hp.
    pose proof (isTimestampForked_mono (params.CancunTime c) t t' Hle) as Hc.
    pose proof (isTimestampForked_mono (params.ShanghaiTime c) t t' Hle) as Hs.
    destruct (params.isTimestampForked (params.OsakaTime c) t);
      [rewrite (Ho eq_refl); simpl; lia|].
    destruct (params.isTimestampForked (params.PragueTime c) t).
    { rewrite (Hp eq_refl).
      destruct (params.isTimestampForked (params.OsakaTime c) t'); simpl; lia. }
    destruct (params.isTimestampForked (params.CancunTime c) t).
    { rewrite (Hc eq_refl).
      destruct (params.isTimestampForked (params.OsakaTime c) t');
        destruct (params.isTimestampForked (params.PragueTime c) t'); simpl; lia. }
    destruct (params.isTimestampForked (params.ShanghaiTime c) t).
    { rewrite (Hs eq_refl).
      destruct (params.isTimestampForked (params.OsakaTime c) t');
        destruct (params.isTimestampForked (params.PragueTime c) t');
        destruct (params.isTimestampForked (params.CancunTime c) t'); simpl; lia. }
    simpl. lia.
  - intros Hlondon t. unfold params.LatestFork. cbv zeta.
    unfold params.IsOsaka, params.IsPrague, params.IsCancun, params.IsShanghai,
      params.IsLondon.
    rewrite Hlondon. reflexivity.
Qed.

Lemma feeZeroLoop_app (l : list Z) (s time : Z) :
  params.feeZeroLoop (reverse (l ++ [s])) time
    = if s <=? time then Nat.even (length l) else params.feeZeroLoop (reverse l) time.
Proof.
  rewrite reverse_app. simpl. rewrite length_reverse. reflexivity.
Qed.

Lemma strictlyIncreasing_snoc (l : list Z) (s : Z) :
  strictlyIncreasing (l ++ [s]) ->
  strictlyIncreasing l /\ forall x : Z, x ∈ l -> x < s.
Proof.
  revert s. induction l as [|a l IH] using rev_ind; intros s.
  - intros _. split.
    + intros i s1 s2 H. rewrite lookup_nil in H. discriminate.
    + intros x Hx. inversion Hx.
  - intros Hinc.
    assert (Hl : strictlyIncreasing (l ++ [a])).
    { intros i s1 s2 H1 H2. apply (Hinc i s1 s2).
      - rewrite lookup_app_l; [exact H1|]. apply lookup_lt_Some in H1. exact H1.
      - rewrite lookup_app_l; [exact H2|]. apply lookup_lt_Some in H2. exact H2. }
    split; [exact Hl|].
    assert (Has : a < s).
    { apply (Hinc (length l) a s).
      - rewrite <- app_assoc. rewrite lookup_app_r by lia.
        replace (length l - length l)%nat with 0%nat by lia. reflexivity.
      - rewrite lookup_app_r by (rewrite length_app; simpl; lia).
        rewrite length_app. simpl.
        replace (S (length l) - (length l + 1))%nat with 0%nat by lia. reflexivity. }
    destruct (IH a Hl) as [_ Hbelow].
    intros x Hx. apply elem_of_app in Hx. destruct Hx as [Hx|Hx].
    + specialize (Hbelow x Hx). lia.
    + apply list_elem_of_singleton in Hx. subst x. exact Has.
Qed.

(** X14.  With zero-fee times that increase strictly, fees are zero at a
    time exactly when an odd number of the times has been reached: the
    first time switches zero fees on, the second off, and so on.  Before
    the first time, and without any times, fees are not zero. *)
Theorem IsFeeZero_parity (c : params.ChainConfig) (time : Z) :
  strictlyIncreasing (params.ZeroFeeTimes c) ->
  params.IsFeeZero c time = Nat.odd (switchesUpTo (params.ZeroFeeTimes c) time).
Proof.
  unfold params.IsFeeZero, switchesUpTo. generalize (params.ZeroFeeTimes c).
  intros times. induction times as [|s l IH] using rev_ind; intros Hinc.
  - reflexivity.
  - destruct (strictlyIncreasing_snoc l s Hinc) as [Hl Hbelow].
    rewrite feeZeroLoop_app, filter_app, length_app.
    destruct (s <=? time) eqn:Hs.
    + apply Z.leb_le in Hs.
      assert (Hall : filter (fun x => x <= time) l = l).
      { clear IH Hinc Hl. induction l as [|a l IHl]; [reflexivity|].
        rewrite filter_cons_True.
        - f_equal. apply IHl. intros x Hx. apply Hbelow. right. exact Hx.
        - specialize (Hbelow a ltac:(left)). lia. }
      rewrite Hall, filter_cons_True by exact Hs. rewrite filter_nil. simpl length.
      rewrite Nat.add_1_r, Nat.odd_succ. reflexivity.
    + apply Z.leb_gt in Hs.
      rewrite filter_cons_False by lia. rewrite filter_nil. simpl length.
      rewrite Nat.add_0_r. apply IH. exact Hl.
Qed.

End ConfigProperties.

(** * Properties of the fork-order check *)

Section ForkOrderProperties.

Import forkorder.

Lemma forkLoop_cons (lastFork cur : fork) (rest : list fork) :
  forkLoop lastFork (cur :: rest) = Pass <->
  checkFork lastFork cur = Pass /\ forkLoop (nextLast lastFork cur) rest = Pass.
Proof.
  simpl. destruct (checkFork lastFork cur); split.
  - intros H. split; [reflexivity | exact H].
  - intros [_ H]. exact H.
  - discriminate.
  - intros [H _]. discriminate.
  - discriminate.
  - intros [H _]. discriminate.
Qed.

Lemma forkLoop_app (l1 l2 : list fork) (lastFork : fork) :
  forkLoop lastFork (l1 ++ l2) = Pass <->
  forkLoop lastFork l1 = Pass /\ forkLoop (lastOf lastFork l1) l2 = Pass.
Proof.
  revert lastFork. induction l1 as [|cur rest IH]; intros lastFork.
  - simpl. split; [intros H; split; [reflexivity | exact H] | intros [_ H]; exact H].
  - rewrite <- app_comm_cons, !forkLoop_cons, IH. unfold lastOf. simpl. tauto.
Qed.

Lemma nextLast_cases (lastFork cur : fork) :
  nextLast lastFork cur = cur \/
  nextLast lastFork cur = lastFork /\ optional cur = true /\
  block cur = None /\ timestamp cur = None.
Proof.
  unfold nextLast, isNil. destruct (optional cur); simpl; [|left; reflexivity].
  destruct (block cur) as [b|]; [left; reflexivity|].
  destruct (timestamp cur) as [t|]; [left; reflexivity|].
  right. repeat split.
Qed.

Lemma lastOf_single (l : list fork) (lastFork : fork) :
  single lastFork -> Forall single l -> single (lastOf lastFork l).
Proof.
  revert lastFork. induction l as [|cur rest IH]; intros lastFork Hlast Hl.
  - exact Hlast.
  - inversion Hl as [|? ? Hcur Hrest]; subst. unfold lastOf. simpl. apply IH; [|exact Hrest].
    destruct (nextLast_cases lastFork cur) as [-> | [-> _]]; assumption.
Qed.

Lemma lastOf_no_time (l : list fork) (lastFork : fork) :
  timestamp lastFork = None -> Forall (fun f => timestamp f = None) l ->
  timestamp (lastOf lastFork l) = None.
Proof.
  revert lastFork. induction l as [|cur rest IH]; intros lastFork Hlast Hl.
  - exact Hlast.
  - inversion Hl as [|? ? Hcur Hrest]; subst. unfold lastOf. simpl. apply IH; [|exact Hrest].
    destruct (nextLast_cases lastFork cur) as [-> | [-> _]]; assumption.
Qed.

(** What a passing turn of the loop has checked. *)
Lemma checkFork_Pass (lastFork cur : fork) :
  single lastFork -> single cur -> checkFork lastFork cur = Pass ->
  (~ enabled lastFork -> ~ enabled cur) /\
  (forall x y : Z, block lastFork = Some x -> block cur = Some y -> x <= y) /\
  (forall x y : Z, timestamp lastFork = Some x -> timestamp cur = Some y -> x <= y).
Proof.
  intros [Hname Hlast] [_ Hcur]. unfold checkFork, checkSequence, setAndAfter, isNil, enabled.
  rewrite (proj2 (String.eqb_neq _ _) Hname). simpl negb. cbv iota.
  destruct (block lastFork) as [lb|], (timestamp lastFork) as [lt|];
    destruct (block cur) as [cb|], (timestamp cur) as [ct|];
    try (destruct Hlast; discriminate); try (destruct Hcur; discriminate); simpl;
    try discriminate;
    repeat match goal with
           | |- context [?a <? ?b] => destruct (Z.ltb_spec a b); simpl; try discriminate
           end;
    intros _; (split; [|split]); try (intros ? ? [= <-] [= <-]; lia);
    try (intros ? ? H; discriminate H); try (intros ? ? _ H; discriminate H);
    try (intros Hn; exfalso; apply Hn; first [left; discriminate | right; discriminate]);
    try (intros _ [H|H]; apply H; reflexivity).
Qed.

Lemma checkFork_no_stop (lastFork cur : fork) :
  lastFork = noFork \/ single lastFork -> single cur -> checkFork lastFork cur <> Panics.
Proof.
  intros [->|[Hname Hlast]] [_ Hcur]; [discriminate|].
  unfold checkFork, checkSequence, setAndAfter, isNil.
  rewrite (proj2 (String.eqb_neq _ _) Hname). simpl negb. cbv iota.
  destruct (block lastFork) as [lb|], (timestamp lastFork) as [lt|];
    destruct (block cur) as [cb|], (timestamp cur) as [ct|];
    try (destruct Hlast; discriminate); try (destruct Hcur; discriminate); simpl;
    try discriminate;
    repeat match goal with
           | |- context [?a <? ?b] => destruct (Z.ltb_spec a b); simpl; try discriminate
           end.
Qed.

Lemma forkLoop_no_stop (l : list fork) (lastFork : fork) :
  lastFork = noFork \/ single lastFork -> Forall single l -> forkLoop lastFork l <> Panics.
Proof.
  revert lastFork. induction l as [|cur rest IH]; intros lastFork Hlast Hl.
  - discriminate.
  - inversion Hl as [|? ? Hcur Hrest]; subst. simpl.
    pose proof (checkFork_no_stop lastFork cur Hlast Hcur) as Hno.
    destruct (checkFork lastFork cur); [|discriminate|contradiction].
    apply IH; [|exact Hrest].
    destruct (nextLast_cases lastFork cur) as [-> | [-> _]]; [right; exact Hcur | exact Hlast].
Qed.

(** After a fork that is not enabled, nothing is enabled. *)
Lemma forkLoop_not_enabled (l : list fork) (lastFork : fork) :
  single lastFork -> ~ enabled lastFork -> Forall single l ->
  forkLoop lastFork l = Pass -> Forall (fun f => ~ enabled f) l.
Proof.
  revert lastFork. induction l as [|cur rest IH]; intros lastFork Hlast Hoff Hl Hpass.
  - constructor.
  - inversion Hl as [|? ? Hcur Hrest]; subst.
    apply forkLoop_cons in Hpass. destruct Hpass as [Hcheck Hloop].
    destruct (checkFork_Pass lastFork cur Hlast Hcur Hcheck) as (Hcuroff & _).
    specialize (Hcuroff Hoff). constructor; [exact Hcuroff|].
    destruct (nextLast_cases lastFork cur) as [Heq | [Heq _]]; rewrite Heq in Hloop.
    + exact (IH cur Hcur Hcuroff Hrest Hloop).
    + exact (IH lastFork Hlast Hoff Hrest Hloop).
Qed.

Lemma omap_step (p : fork -> option Z) (f : fork) (l : list fork) :
  omap p (f :: l)
    = match p f with
      | Some y => y :: omap p l
      | None => omap p l
      end.
Proof. reflexivity. Qed.

Lemma omap_not_enabled (p : fork -> option Z) (l : list fork) :
  (forall f : fork, ~ enabled f -> p f = None) ->
  Forall (fun f => ~ enabled f) l -> omap p l = [].
Proof.
  intros Hp Hl. induction Hl as [|f l Hf Hl IH]; [reflexivity|].
  rewrite omap_step, (Hp f Hf). exact IH.
Qed.

Lemma not_enabled_block (f : fork) : ~ enabled f -> block f = None.
Proof.
  unfold enabled. intros H. destruct (block f); [|reflexivity].
  exfalso. apply H. left. discriminate.
Qed.

Lemma not_enabled_time (f : fork) : ~ enabled f -> timestamp f = None.
Proof.
  unfold enabled. intros H. destruct (timestamp f); [|reflexivity].
  exfalso. apply H. right. discriminate.
Qed.

(** The times of a run of time forks that passes are in order. *)
Lemma forkLoop_times (l : list fork) (lastFork : fork) :
  single lastFork -> Forall single l -> Forall (fun f => block f = None) l ->
  forkLoop lastFork l = Pass ->
  StronglySorted Z.le (omap timestamp l) /\
  forall lt : Z, timestamp lastFork = Some lt -> Forall (Z.le lt) (omap timestamp l).
Proof.
  revert lastFork. induction l as [|cur rest IH]; intros lastFork Hlast Hl Hkind Hpass.
  - simpl. split; [constructor | intros; constructor].
  - inversion Hl as [|? ? Hcur Hrest]; subst.
    inversion Hkind as [|? ? Hcb Hkrest]; subst.
    apply forkLoop_cons in Hpass. destruct Hpass as [Hcheck Hloop].
    destruct (checkFork_Pass lastFork cur Hlast Hcur Hcheck) as (Hoff & _ & Htime).
    rewrite omap_step. destruct (timestamp cur) as [ct|] eqn:Hct.
    + assert (Hnext : nextLast lastFork cur = cur).
      { destruct (nextLast_cases lastFork cur) as [H | (_ & _ & _ & H)];
          [exact H | congruence]. }
      rewrite Hnext in Hloop.
      destruct (IH cur Hcur Hrest Hkrest Hloop) as [Hsorted Hbound].
      specialize (Hbound ct Hct). split.
      * constructor; assumption.
      * intros lt Hlt. specialize (Htime lt ct Hlt eq_refl). constructor; [exact Htime|].
        eapply Forall_impl; [exact Hbound|]. intros z Hz. simpl in Hz. lia.
    + destruct (nextLast_cases lastFork cur) as [Heq | [Heq _]]; rewrite Heq in Hloop.
      * assert (Hcuroff : ~ enabled cur) by (intros [H|H]; congruence).
        pose proof (forkLoop_not_enabled rest cur Hcur Hcuroff Hrest Hloop) as Hall.
        rewrite (omap_not_enabled timestamp rest not_enabled_time Hall).
        split; [constructor | intros; constructor].
      * exact (IH lastFork Hlast Hrest Hkrest Hloop).
Qed.

(** The blocks of a run of block forks that passes are in order. *)
Lemma forkLoop_blocks (l : list fork) (lastFork : fork) :
  single lastFork -> Forall single l -> Forall (fun f => timestamp f = None) l ->
  forkLoop lastFork l = Pass ->
  StronglySorted Z.le (omap block l) /\
  forall lb : Z, block lastFork = Some lb -> Forall (Z.le lb) (omap block l).
Proof.
  revert lastFork. induction l as [|cur rest IH]; intros lastFork Hlast Hl Hkind Hpass.
  - simpl. split; [constructor | intros; constructor].
  - inversion Hl as [|? ? Hcur Hrest]; subst.
    inversion Hkind as [|? ? Hcb Hkrest]; subst.
    apply forkLoop_cons in Hpass. destruct Hpass as [Hcheck Hloop].
    destruct (checkFork_Pass lastFork cur Hlast Hcur Hcheck) as (Hoff & Hblock & _).
    rewrite omap_step. destruct (block cur) as [cb|] eqn:Hct.
    + assert (Hnext : nextLast lastFork cur = cur).
      { destruct (nextLast_cases lastFork cur) as [H | (_ & _ & H & _)];
          [exact H | congruence]. }
      rewrite Hnext in Hloop.
      destruct (IH cur Hcur Hrest Hkrest Hloop) as [Hsorted Hbound].
      specialize (Hbound cb Hct). split.
      * constructor; assumption.
      * intros lb Hlb. specialize (Hblock lb cb Hlb eq_refl). constructor; [exact Hblock|].
        eapply Forall_impl; [exact Hbound|]. intros z Hz. simpl in Hz. lia.
    + destruct (nextLast_cases lastFork cur) as [Heq | [Heq _]]; rewrite Heq in Hloop.
      * assert (Hcuroff : ~ enabled cur) by (intros [H|H]; congruence).
        pose proof (forkLoop_not_enabled rest cur Hcur Hcuroff Hrest Hloop) as Hall.
        rewrite (omap_not_enabled block rest not_enabled_block Hall).
        split; [constructor | intros; constructor].
      * exact (IH lastFork Hlast Hrest Hkrest Hloop).
Qed.

(** Nothing is enabled after a required fork that is not. *)
Lemma forkLoop_required (l : list fork) (lastFork : fork) :
  lastFork = noFork \/ single lastFork -> Forall single l ->
  forkLoop lastFork l = Pass ->
  forall (i j : nat) (f g : fork),
    (i < j)%nat -> l !! i = Some f -> l !! j = Some g ->
    optional f = false -> enabled g -> enabled f.
Proof.
  revert lastFork. induction l as [|cur rest IH]; intros lastFork Hlast Hl Hpass i j f g Hij Hf Hg.
  - rewrite lookup_nil in Hf. discriminate.
  - inversion Hl as [|? ? Hcur Hrest]; subst.
    apply forkLoop_cons in Hpass. destruct Hpass as [Hcheck Hloop].
    destruct j as [|j]; [lia|]. simpl in Hg.
    destruct i as [|i].
    + simpl in Hf. injection Hf as <-. intros Hreq Hon.
      destruct (block cur) as [cb|] eqn:Hcb; [left; congruence|].
      destruct (timestamp cur) as [ct|] eqn:Hct; [right; congruence|].
      exfalso.
      assert (Hcuroff : ~ enabled cur) by (intros [H|H]; congruence).
      assert (Hnext : nextLast lastFork cur = cur).
      { destruct (nextLast_cases lastFork cur) as [H | (_ & H & _)];
          [exact H | congruence]. }
      rewrite Hnext in Hloop.
      pose proof (forkLoop_not_enabled rest cur Hcur Hcuroff Hrest Hloop) as Hall.
      rewrite Forall_forall in Hall. apply (Hall g); [|exact Hon].
      apply list_elem_of_lookup. exists j. exact Hg.
    + simpl in Hf. apply (IH (nextLast lastFork cur)) with (i := i) (j := j); try assumption.
      * destruct (nextLast_cases lastFork cur) as [-> | [-> _]];
          [right; exact Hcur | exact Hlast].
      * lia.
Qed.

Lemma zeroFeeLoop_no_stop (times : list Z) (i : Z) (prev : option Z) :
  zeroFeeLoop i prev times <> Panics.
Proof.
  revert i prev. induction times as [|cur rest IH]; intros i prev; simpl; [discriminate|].
  destruct prev as [prev|]; [|apply IH].
  destruct (cur <=? prev); [discriminate | apply IH].
Qed.

Lemma zeroFeeLoop_Pass (times : list Z) (i : Z) (prev : option Z) :
  zeroFeeLoop i prev times = Pass ->
  strictlyIncreasing times /\
  forall (p s : Z), prev = Some p -> times !! 0%nat = Some s -> p < s.
Proof.
  revert i prev. induction times as [|cur rest IH]; intros i prev; simpl.
  - intros _. split.
    + intros k s1 s2 H. rewrite lookup_nil in H. discriminate.
    + intros p s _ H. discriminate.
  - intros Hpass.
    assert (Hrest : zeroFeeLoop (i + 1) (Some cur) rest = Pass /\
                    forall p : Z, prev = Some p -> p < cur).
    { destruct prev as [p|].
      - destruct (Z.leb_spec cur p); [discriminate|]. split; [exact Hpass|].
        intros p' [= <-]. lia.
      - split; [exact Hpass | discriminate]. }
    destruct Hrest as [Hloop Hprev]. destruct (IH _ _ Hloop) as [Hinc Hfirst]. split.
    + intros [|k] s1 s2 H1 H2; simpl in H1, H2.
      * injection H1 as <-. exact (Hfirst cur s2 eq_refl H2).
      * exact (Hinc k s1 s2 H1 H2).
    + intros p s Hp [= <-]. exact (Hprev p Hp).
Qed.

Lemma checkBlobFork_no_stop (forkName : string) (time : option Z)
    (config : option params.BlobConfig) :
  checkBlobFork forkName time config <> Panics.
Proof.
  unfold checkBlobFork.
  destruct (match config with Some config0 => validate config0 | None => None end);
    [discriminate|].
  destruct (negb (isNil time) && bool_decide (config = None)); discriminate.
Qed.

Lemma forkList_single (c : params.ChainConfig) : Forall single (forkList c).
Proof.
  unfold forkList.
  repeat (constructor; [split; [discriminate | first [right; reflexivity | left; reflexivity]]|]).
  constructor.
Qed.

(** X15.  The fork-order check never stops on a nil pointer: for every
    chain configuration it passes or returns an error. *)
Theorem CheckConfigForkOrder_total (c : params.ChainConfig) :
  CheckConfigForkOrder c <> Panics.
Proof.
  unfold CheckConfigForkOrder.
  pose proof (forkLoop_no_stop (forkList c) noFork (or_introl eq_refl) (forkList_single c))
    as Hloop.
  destruct (forkLoop noFork (forkList c)); [|discriminate|contradiction].
  pose proof (zeroFeeLoop_no_stop (params.ZeroFeeTimes c) 0 None) as Hzero.
  destruct (zeroFeeLoop 0 None (params.ZeroFeeTimes c)); [|discriminate|contradiction].
  destruct (params.IsOptimism c).
  - destruct (bool_decide _); discriminate.
  - cbv zeta.
    set (bsc := default (params.mkBlobSchedule None None None None) (params.BlobSchedule c)).
    pose proof (checkBlobFork_no_stop "cancun" (params.CancunTime c) (params.bsCancun bsc)).
    pose proof (checkBlobFork_no_stop "prague" (params.PragueTime c) (params.bsPrague bsc)).
    pose proof (checkBlobFork_no_stop "osaka" (params.OsakaTime c) (params.bsOsaka bsc)).
    destruct (checkBlobFork "cancun" _ _); [|discriminate|contradiction].
    destruct (checkBlobFork "prague" _ _); [|discriminate|contradiction].
    assumption.
Qed.

End ForkOrderProperties.

Section ForkOrderTheorems.

Import forkorder.

Lemma omap_none (p : fork -> option Z) (l : list fork) :
  Forall (fun f => p f = None) l -> omap p l = [].
Proof.
  intros Hl. induction Hl as [|f l Hf Hl IH]; [reflexivity|].
  rewrite omap_step, Hf. exact IH.
Qed.

(** The list of the forks: Homestead, the other block forks, the time
    forks. *)
Lemma forkList_parts (c : params.ChainConfig) :
  exists (h : fork) (B T : list fork),
    forkList c = h :: B ++ T /\
    optional h = false /\ single h /\ timestamp h = None /\
    Forall single B /\ Forall (fun f => timestamp f = None) B /\
    Forall single T /\ Forall (fun f => block f = None) T.
Proof.
  exists (mkFork "homesteadBlock" (params.HomesteadBlock c) None false),
    (take 14 (drop 1 (forkList c))), (drop 15 (forkList c)).
  split; [reflexivity|]. split; [reflexivity|].
  split; [split; [discriminate | right; reflexivity]|]. split; [reflexivity|].
  unfold forkList. simpl.
  split; [repeat (constructor; [split; [discriminate | right; reflexivity]|]); constructor|].
  split; [repeat (constructor; [reflexivity|]); constructor|].
  split; [repeat (constructor; [split; [discriminate | left; reflexivity]|]); constructor|].
  repeat (constructor; [reflexivity|]); constructor.
Qed.

Lemma forkOrder_blocks (c : params.ChainConfig) :
  forkLoop noFork (forkList c) = Pass -> StronglySorted Z.le (setBlocks c).
Proof.
  intros Hloop. unfold setBlocks.
  destruct (forkList_parts c) as (h & B & T & Hlist & Hreq & Hh & Hht & HB & HBt & HT & HTb).
  rewrite Hlist in Hloop |- *.
  apply forkLoop_cons in Hloop. destruct Hloop as [_ Hloop].
  assert (Hnext : nextLast noFork h = h) by (unfold nextLast; rewrite Hreq; reflexivity).
  rewrite Hnext in Hloop. apply forkLoop_app in Hloop. destruct Hloop as [HloopB _].
  destruct (forkLoop_blocks B h Hh HB HBt HloopB) as [Hsorted Hbound].
  rewrite omap_step, omap_app, (omap_none block T HTb), app_nil_r.
  destruct (block h) as [hb|]; [|exact Hsorted].
  constructor; [exact Hsorted | exact (Hbound hb eq_refl)].
Qed.

Lemma forkOrder_times (c : params.ChainConfig) :
  forkLoop noFork (forkList c) = Pass -> StronglySorted Z.le (setTimes c).
Proof.
  intros Hloop. unfold setTimes.
  destruct (forkList_parts c) as (h & B & T & Hlist & Hreq & Hh & Hht & HB & HBt & HT & HTb).
  rewrite Hlist in Hloop |- *.
  apply forkLoop_cons in Hloop. destruct Hloop as [_ Hloop].
  assert (Hnext : nextLast noFork h = h) by (unfold nextLast; rewrite Hreq; reflexivity).
  rewrite Hnext in Hloop. apply forkLoop_app in Hloop. destruct Hloop as [_ HloopT].
  destruct (forkLoop_times T (lastOf h B) (lastOf_single B h Hh HB) HT HTb HloopT)
    as [Hsorted _].
  rewrite omap_step, Hht, omap_app, (omap_none timestamp B HBt). exact Hsorted.
Qed.

Lemma CheckConfigForkOrder_loops (c : params.ChainConfig) :
  CheckConfigForkOrder c = Pass ->
  forkLoop noFork (forkList c) = Pass /\
  zeroFeeLoop 0 None (params.ZeroFeeTimes c) = Pass.
Proof.
  unfold CheckConfigForkOrder.
  destruct (forkLoop noFork (forkList c)); [|discriminate|discriminate].
  destruct (zeroFeeLoop 0 None (params.ZeroFeeTimes c)); [|discriminate|discriminate].
  intros _. split; reflexivity.
Qed.

(** X16.  What a chain configuration that passes the fork-order check is
    sure of: the blocks of the block forks that are set do not decrease in
    the order of the forks, nor do the times of the time forks that are
    set; no fork is enabled after a fork that is not optional and not
    enabled; and the zero-fee times increase strictly. *)
Theorem CheckConfigForkOrder_order (c : params.ChainConfig) :
  CheckConfigForkOrder c = Pass ->
  StronglySorted Z.le (setBlocks c) /\
  StronglySorted Z.le (setTimes c) /\
  (forall (i j : nat) (f g : fork),
     (i < j)%nat -> forkList c !! i = Some f -> forkList c !! j = Some g ->
     optional f = false -> enabled g -> enabled f) /\
  strictlyIncreasing (params.ZeroFeeTimes c).
Proof.
  intros Hpass. destruct (CheckConfigForkOrder_loops c Hpass) as [Hloop Hzero].
  split; [exact (forkOrder_blocks c Hloop)|].
  split; [exact (forkOrder_times c Hloop)|].
  split.
  - exact (forkLoop_required (forkList c) noFork (or_introl eq_refl)
             (forkList_single c) Hloop).
  - exact (proj1 (zeroFeeLoop_Pass _ _ _ Hzero)).
Qed.

Lemma setTimes_eq (c : params.ChainConfig) :
  setTimes c
    = omap id [params.ShanghaiTime c; params.CancunTime c; params.PragueTime c;
               params.OsakaTime c; params.VerkleTime c].
Proof.
  unfold setTimes, forkList.
  destruct (params.ShanghaiTime c), (params.CancunTime c), (params.PragueTime c),
    (params.OsakaTime c), (params.VerkleTime c); reflexivity.
Qed.

(** The order in which the time forks of a checked configuration come
    into force. *)
Lemma forks_in_order (c : params.ChainConfig) (time : Z) :
  CheckConfigForkOrder c = Pass ->
  let london := params.LondonBlock c in
  (params.LatestFork c time <> params.Paris -> params.IsShanghai c london time = true) /\
  (params.IsPrague c london time = true -> params.CancunTime c <> None ->
   params.IsCancun c london time = true) /\
  (params.IsOsaka c london time = true -> params.PragueTime c <> None ->
   params.IsPrague c london time = true).
Proof.
  intros Hpass london. destruct (CheckConfigForkOrder_loops c Hpass) as [Hloop _].
  pose proof (forkOrder_times c Hloop) as Hsorted.
  pose proof (forkLoop_required (forkList c) noFork (or_introl eq_refl)
                (forkList_single c) Hloop) as Hreq.
  assert (Hshanghai : forall (j : nat) (g : fork),
            (15 < j)%nat -> forkList c !! j = Some g -> enabled g ->
            params.ShanghaiTime c <> None).
  { intros j g Hj Hg Hon.
    destruct (Hreq 15%nat j _ g Hj eq_refl Hg eq_refl Hon) as [H|H]; [|exact H].
    exfalso. apply H. reflexivity. }
  assert (Hcancun : params.CancunTime c <> None -> params.ShanghaiTime c <> None).
  { intros H. apply (Hshanghai 16%nat _ ltac:(lia) eq_refl). right. exact H. }
  assert (Hprague : params.PragueTime c <> None -> params.ShanghaiTime c <> None).
  { intros H. apply (Hshanghai 17%nat _ ltac:(lia) eq_refl). right. exact H. }
  assert (Hosaka : params.OsakaTime c <> None -> params.ShanghaiTime c <> None).
  { intros H. apply (Hshanghai 18%nat _ ltac:(lia) eq_refl). right. exact H. }
  clear Hshanghai Hreq Hloop Hpass.
  rewrite setTimes_eq in Hsorted.
  unfold params.LatestFork, params.IsOsaka, params.IsPrague, params.IsCancun,
    params.IsShanghai, params.isTimestampForked.
  cbv zeta. fold london.
  destruct (params.IsLondon c london); simpl;
    [|split; [intros H; contradiction | split; discriminate]].
  destruct (params.ShanghaiTime c) as [s|], (params.CancunTime c) as [ca|],
    (params.PragueTime c) as [p|], (params.OsakaTime c) as [o|],
    (params.VerkleTime c) as [v|];
    try (exfalso; apply Hcancun; [discriminate | reflexivity]);
    try (exfalso; apply Hprague; [discriminate | reflexivity]);
    try (exfalso; apply Hosaka; [discriminate | reflexivity]);
    clear Hcancun Hprague Hosaka; simpl in Hsorted;
    repeat match goal with
           | H : StronglySorted _ (_ :: _) |- _ =>
               apply StronglySorted_inv in H; destruct H
           | H : Forall _ (_ :: _) |- _ =>
               apply Forall_cons in H; destruct H
           | H : StronglySorted _ [] |- _ => clear H
           | H : Forall _ [] |- _ => clear H
           end;
    (split; [|split]);
    repeat match goal with
           | |- context [?a <=? ?b] => destruct (Z.leb_spec a b); simpl
           end;
    try (intros; reflexivity); try (intros; discriminate);
    try (let X := fresh in intros X; exfalso; apply X; reflexivity);
    try (let X := fresh in intros _ X; exfalso; apply X; reflexivity);
    try (intros; lia).
Qed.

(** X17.  On a chain configuration that passes the fork-order check the
    time forks come into force in their order.  At a time whose latest
    fork is not Paris, Shanghai is in force; when Prague is in force, so
    is Cancun if it is set at all; and when Osaka is in force, so is
    Prague if it is set at all. *)
Theorem checked_forks_in_order (c : params.ChainConfig) (time : Z) :
  CheckConfigForkOrder c = Pass ->
  let london := params.LondonBlock c in
  (params.LatestFork c time <> params.Paris -> params.IsShanghai c london time = true) /\
  (params.IsPrague c london time = true -> params.CancunTime c <> None ->
   params.IsCancun c london time = true) /\
  (params.IsOsaka c london time = true -> params.PragueTime c <> None ->
   params.IsPrague c london time = true).
Proof. exact (forks_in_order c time). Qed.

End ForkOrderTheorems.

(** * Properties of the versioned entry points *)

Section EntryPointProperties.

Context {Tx Wd Payload Envelope Proofs StatelessWitness W : Type}.
Context {node : @Node Tx Wd Payload Envelope Proofs StatelessWitness W}.
Variable chain : params.ChainConfig.

(** [newPayload] reports every failure in the status it returns. *)
Lemma newPayload_error (api : ConsensusAPI) (params : ExecutableData)
    (versionedHashes : option (list N)) (beaconRoot : option N)
    (requests : option (list (list N))) (witness : bool) (now : Z) :
  (newPayload api params versionedHashes beaconRoot requests witness now).2.2 = None.
Proof.
  unfold newPayload.
  destruct (checkExtraData params); [reflexivity|].
  destruct (ExecutableDataToBlock _ _ _ _ _) as [block|err]; [|reflexivity].
  cbv zeta. destruct (GetBlockByHash _ _); [reflexivity|].
  destruct (checkInvalidAncestor _ _ _) as [a [res|]]; [reflexivity|].
  destruct (GetBlock _ _ _) as [parent|].
  - destruct (Block_Time block <=? Block_Time parent); [reflexivity|].
    destruct (negb (bool_decide (GetSyncMode (eth a) = FullSync))).
    + destruct (delayPayloadImport a block). reflexivity.
    + destruct (negb (HasBlockAndState _ _ _)); [reflexivity|].
      destruct (InsertBlockWithoutSetHead _ _ _) as [w [proofs [err|]]]; reflexivity.
  - destruct (delayPayloadImport a block). reflexivity.
Qed.

(** X18.  A new-payload entry point returns an error only from its own
    checks of the payload's fields, before anything is done: with an error
    from NewPayloadV1, V2, V3 or V4, with or without witness, the API
    object is the one that came in, the status is a bare INVALID, and the
    error is an invalid-params or an unsupported-fork error.  [newPayload]
    itself never returns an error. *)
Theorem new_payload_errors (api api' : ConsensusAPI) (params : ExecutableData)
    (versionedHashes : option (list N)) (beaconRoot : option N)
    (executionRequests : option (list (list N))) (now : Z)
    (st : PayloadStatusV1) (err : error) :
  NewPayloadV1 api params now = (api', (st, Some err)) \/
  NewPayloadV2 chain api params now = (api', (st, Some err)) \/
  NewPayloadV3 api params versionedHashes beaconRoot now = (api', (st, Some err)) \/
  NewPayloadV4 api params versionedHashes beaconRoot executionRequests now
    = (api', (st, Some err)) \/
  NewPayloadWithWitnessV1 api params now = (api', (st, Some err)) \/
  NewPayloadWithWitnessV2 chain api params now = (api', (st, Some err)) \/
  NewPayloadWithWitnessV3 api params versionedHashes beaconRoot now
    = (api', (st, Some err)) \/
  NewPayloadWithWitnessV4 api params versionedHashes beaconRoot executionRequests now
    = (api', (st, Some err)) ->
  api' = api /\ st = mkStatus INVALID None None None /\
  exists e : error, err = With InvalidParams e \/ err = With UnsupportedFork e.
Proof.
  assert (Hnew : forall vh br rq w,
            newPayload api params vh br rq w now <> (api', (st, Some err))).
  { intros vh br rq w H. pose proof (newPayload_error api params vh br rq w now) as Hn.
    rewrite H in Hn. discriminate. }
  assert (H1 : forall e, checkFieldsV1 params = Some e ->
                 exists e' : error, e = With InvalidParams e' \/ e = With UnsupportedFork e').
  { intros e. unfold checkFieldsV1. destruct (negb _); [|discriminate].
    intros [= <-]. eexists. left. reflexivity. }
  assert (H2 : forall e, checkFieldsV2 chain params = Some e ->
                 exists e' : error, e = With InvalidParams e' \/ e = With UnsupportedFork e').
  { intros e. unfold checkFieldsV2.
    repeat match goal with
           | |- context [if ?b then _ else _] => destruct b
           end;
      try discriminate; intros [= <-]; eexists; left; reflexivity. }
  assert (H3 : forall m e, checkFieldsV3 m params versionedHashes beaconRoot = Some e ->
                 exists e' : error, e = With InvalidParams e' \/ e = With UnsupportedFork e').
  { intros m e. unfold checkFieldsV3.
    repeat match goal with
           | |- context [if ?b then _ else _] => destruct b
           end;
      try discriminate; intros [= <-]; eexists;
      first [left; reflexivity | right; reflexivity]. }
  assert (H4 : forall m e,
            checkFieldsV4 m params versionedHashes beaconRoot executionRequests = Some e ->
            exists e' : error, e = With InvalidParams e' \/ e = With UnsupportedFork e').
  { intros m e. unfold checkFieldsV4.
    repeat match goal with
           | |- context [if ?b then _ else _] => destruct b
           end;
      try discriminate; intros [= <-]; eexists;
      first [left; reflexivity | right; reflexivity]. }
  unfold NewPayloadV1, NewPayloadV2, NewPayloadV3, NewPayloadV4,
    NewPayloadWithWitnessV1, NewPayloadWithWitnessV2, NewPayloadWithWitnessV3,
    NewPayloadWithWitnessV4.
  intros [H|[H|[H|[H|[H|[H|[H|H]]]]]]]; revert H.
  - destruct (checkFieldsV1 params) as [e|] eqn:He; [|intros H; destruct (Hnew _ _ _ _ H)].
    intros [= <- <- <-]. split; [reflexivity|]. split; [reflexivity|].
    first [exact (H1 _ He) | exact (H1 _ eq_refl)].
  - destruct (checkFieldsV2 chain params) as [e|] eqn:He;
      [|intros H; destruct (Hnew _ _ _ _ H)].
    intros [= <- <- <-]. split; [reflexivity|]. split; [reflexivity|].
    first [exact (H2 _ He) | exact (H2 _ eq_refl)].
  - destruct (checkFieldsV3 _ params _ _) as [e|] eqn:He;
      [|intros H; destruct (Hnew _ _ _ _ H)].
    intros [= <- <- <-]. split; [reflexivity|]. split; [reflexivity | exact (H3 _ _ He)].
  - destruct (checkFieldsV4 _ params _ _ _) as [e|] eqn:He.
    + intros [= <- <- <-]. split; [reflexivity|]. split; [reflexivity | exact (H4 _ _ He)].
    + destruct (IsIsthmus Config (edTimestamp params) && _).
      * intros [= <- <- <-]. split; [reflexivity|]. split; [reflexivity|].
        eexists. left. reflexivity.
      * cbv zeta. destruct (validateRequests _) as [e|];
          [|intros H; destruct (Hnew _ _ _ _ H)].
        intros [= <- <- <-]. split; [reflexivity|]. split; [reflexivity|].
        eexists. left. reflexivity.
  - destruct (checkFieldsV1 params) as [e|] eqn:He; [|intros H; destruct (Hnew _ _ _ _ H)].
    intros [= <- <- <-]. split; [reflexivity|]. split; [reflexivity|].
    first [exact (H1 _ He) | exact (H1 _ eq_refl)].
  - destruct (checkFieldsV2 chain params) as [e|] eqn:He;
      [|intros H; destruct (Hnew _ _ _ _ H)].
    intros [= <- <- <-]. split; [reflexivity|]. split; [reflexivity|].
    first [exact (H2 _ He) | exact (H2 _ eq_refl)].
  - destruct (checkFieldsV3 _ params _ _) as [e|] eqn:He;
      [|intros H; destruct (Hnew _ _ _ _ H)].
    intros [= <- <- <-]. split; [reflexivity|]. split; [reflexivity | exact (H3 _ _ He)].
  - destruct (checkFieldsV4 _ params _ _ _) as [e|] eqn:He.
    + intros [= <- <- <-]. split; [reflexivity|]. split; [reflexivity | exact (H4 _ _ He)].
    + cbv zeta. destruct (validateRequests _) as [e|];
        [|intros H; destruct (Hnew _ _ _ _ H)].
      intros [= <- <- <-]. split; [reflexivity|]. split; [reflexivity|].
      eexists. left. reflexivity.
Qed.

(** X19.  The versions of new-payload keep apart.  A payload that
    NewPayloadV3 takes without an error gets an error from NewPayloadV1,
    from NewPayloadV2 and from NewPayloadV4, whatever execution requests
    come with it; and a payload that NewPayloadV4 takes without an error
    gets one from V1, V2 and V3. *)
Theorem new_payload_versions_apart (api : ConsensusAPI) (params : ExecutableData)
    (versionedHashes : option (list N)) (beaconRoot : option N) (now : Z) :
  ((NewPayloadV3 api params versionedHashes beaconRoot now).2.2 = None ->
   (NewPayloadV1 api params now).2.2 <> None /\
   (NewPayloadV2 chain api params now).2.2 <> None /\
   forall executionRequests : option (list (list N)),
     (NewPayloadV4 api params versionedHashes beaconRoot executionRequests now).2.2
       <> None) /\
  (forall executionRequests : option (list (list N)),
     (NewPayloadV4 api params versionedHashes beaconRoot executionRequests now).2.2
       = None ->
     (NewPayloadV1 api params now).2.2 <> None /\
     (NewPayloadV2 chain api params now).2.2 <> None /\
     (NewPayloadV3 api params versionedHashes beaconRoot now).2.2 <> None).
Proof.
  unfold NewPayloadV1, NewPayloadV2, NewPayloadV3, NewPayloadV4,
    checkFieldsV1, checkFieldsV2, checkFieldsV3, checkFieldsV4.
  split.
  - destruct (bool_decide (edWithdrawals params = None)); [discriminate|].
    destruct (bool_decide (edExcessBlobGas params = None)); [discriminate|].
    destruct (bool_decide (edBlobGasUsed params = None)); [discriminate|].
    destruct (bool_decide (versionedHashes = None)); [discriminate|].
    destruct (bool_decide (beaconRoot = None)); [discriminate|].
    destruct (bool_decide (LatestFork Config (edTimestamp params) = Cancun)) eqn:Hfork;
      [|discriminate].
    apply bool_decide_eq_true_1 in Hfork. intros _. simpl negb. cbv iota.
    split; [discriminate|]. split.
    + destruct (params.IsCancun chain _ _); [discriminate|].
      destruct (bool_decide (LatestFork Config (edTimestamp params) = Shanghai));
        discriminate.
    + intros executionRequests.
      destruct (bool_decide (executionRequests = None)); [discriminate|].
      rewrite bool_decide_eq_false_2 by (rewrite Hfork; discriminate). discriminate.
  - intros executionRequests.
    destruct (bool_decide (edWithdrawals params = None)); [discriminate|].
    destruct (bool_decide (edExcessBlobGas params = None)); [discriminate|].
    destruct (bool_decide (edBlobGasUsed params = None)); [discriminate|].
    destruct (bool_decide (versionedHashes = None)); [discriminate|].
    destruct (bool_decide (beaconRoot = None)); [discriminate|].
    destruct (bool_decide (executionRequests = None)); [discriminate|].
    destruct (bool_decide (LatestFork Config (edTimestamp params) = Prague)) eqn:Hfork;
      [|discriminate].
    apply bool_decide_eq_true_1 in Hfork. intros _. simpl negb. cbv iota.
    split; [discriminate|]. split.
    + destruct (params.IsCancun chain _ _); [discriminate|].
      destruct (bool_decide (LatestFork Config (edTimestamp params) = Shanghai));
        discriminate.
    + rewrite bool_decide_eq_false_2 by (rewrite Hfork; discriminate). discriminate.
Qed.

Lemma fcuBuildPayload_None (api : ConsensusAPI) (update : ForkchoiceStateV1)
    (v v' : N) (w w' : bool) :
  fcuBuildPayload api update None v w = fcuBuildPayload api update None v' w'.
Proof. reflexivity. Qed.

Lemma forkchoiceUpdated_None (api : ConsensusAPI) (update : ForkchoiceStateV1)
    (v v' : N) (w w' : bool) (now : Z) :
  forkchoiceUpdated api update None v w now = forkchoiceUpdated api update None v' w' now.
Proof.
  assert (Hsafe : forall a, fcuSafe a update None v w = fcuSafe a update None v' w').
  { intros a. unfold fcuSafe. destruct (negb _); [|reflexivity].
    destruct (GetBlockByHash _ _); [|reflexivity].
    destruct (negb _); reflexivity. }
  assert (Hfinal : forall a, fcuFinalized a update None v w = fcuFinalized a update None v' w').
  { intros a. unfold fcuFinalized. destruct (negb _); [|apply Hsafe].
    destruct (GetBlockByHash _ _); [|reflexivity].
    destruct (negb _); [reflexivity | apply Hsafe]. }
  assert (Hsynced : forall a, fcuSynced a update None v w = fcuSynced a update None v' w').
  { intros a. unfold fcuSynced. apply Hfinal. }
  unfold forkchoiceUpdated. destruct (bool_decide _); [reflexivity|]. cbv zeta.
  destruct (GetBlockByHash _ _) as [block|]; [|reflexivity].
  destruct (checkTerminalBlock _ _); [reflexivity|].
  destruct (negb _).
  - destruct (SetCanonical _ _) as [w0 [latestValid [err|]]]; [reflexivity | apply Hsynced].
  - destruct (bool_decide _); [apply Hsynced|].
    destruct (bool_decide _); [reflexivity | apply Hsynced].
Qed.

(** X20.  Without payload attributes the version of a fork-choice update
    is of no account: the six entry points, ForkchoiceUpdatedV1 to V3 and
    their variants with witness, do the same to the API object and return
    the same. *)
Theorem forkchoice_versions_agree (api : ConsensusAPI) (update : ForkchoiceStateV1)
    (now : Z) :
  let call := ForkchoiceUpdatedV1 chain api update None now in
  ForkchoiceUpdatedV2 api update None now = call /\
  ForkchoiceUpdatedV3 api update None now = call /\
  ForkchoiceUpdatedWithWitnessV1 chain api update None now = call /\
  ForkchoiceUpdatedWithWitnessV2 api update None now = call /\
  ForkchoiceUpdatedWithWitnessV3 api update None now = call.
Proof.
  unfold ForkchoiceUpdatedV1, ForkchoiceUpdatedV2, ForkchoiceUpdatedV3,
    ForkchoiceUpdatedWithWitnessV1, ForkchoiceUpdatedWithWitnessV2,
    ForkchoiceUpdatedWithWitnessV3, forkchoiceUpdatedChecked.
  cbv zeta. repeat split; apply forkchoiceUpdated_None.
Qed.

(** X21.  On a chain whose configuration passes the fork-order check,
    ForkchoiceUpdatedV1 lets payload attributes through exactly when
    ForkchoiceUpdatedV2 does and their time is before Shanghai, in Paris;
    and what ForkchoiceUpdatedV3 lets through, V1 and V2 both refuse. *)
Theorem forkchoice_attributes_versions (pa : PayloadAttributes) :
  Config = engineConfig chain ->
  forkorder.CheckConfigForkOrder chain = forkorder.Pass ->
  (checkAttributesV1 chain pa = None <->
   checkAttributesV2 pa = None /\ LatestFork Config (paTimestamp pa) = Paris) /\
  (checkAttributesV3 pa = None ->
   checkAttributesV1 chain pa <> None /\ checkAttributesV2 pa <> None).
Proof.
  intros Hconfig Hpass.
  destruct (forks_in_order chain (paTimestamp pa) Hpass) as [Hshanghai _].
  cbv zeta in Hshanghai.
  assert (Hparis : LatestFork Config (paTimestamp pa) = Paris <->
                   params.LatestFork chain (paTimestamp pa) = params.Paris).
  { rewrite Hconfig. simpl. destruct (params.LatestFork chain (paTimestamp pa));
      simpl; split; intros H; try discriminate H; reflexivity. }
  assert (Hnot : params.IsShanghai chain (params.LondonBlock chain) (paTimestamp pa) = false ->
                 params.LatestFork chain (paTimestamp pa) = params.Paris).
  { intros Hs. destruct (decide (params.LatestFork chain (paTimestamp pa) = params.Paris))
      as [H|H]; [exact H|]. rewrite (Hshanghai H) in Hs. discriminate. }
  assert (Hback : params.LatestFork chain (paTimestamp pa) = params.Paris ->
                  params.IsShanghai chain (params.LondonBlock chain) (paTimestamp pa) = false).
  { unfold params.LatestFork. cbv zeta.
    destruct (params.IsOsaka _ _ _); [discriminate|].
    destruct (params.IsPrague _ _ _); [discriminate|].
    destruct (params.IsCancun _ _ _); [discriminate|].
    destruct (params.IsShanghai _ _ _); [discriminate | reflexivity]. }
  unfold checkAttributesV1, checkAttributesV2, checkAttributesV3. split.
  - destruct (bool_decide (paWithdrawals pa = None)),
      (bool_decide (paBeaconRoot pa = None)); simpl.
    + split.
      * destruct (params.IsShanghai chain _ _) eqn:Hs; [discriminate|]. intros _.
        rewrite (proj2 Hparis (Hnot eq_refl)). split; reflexivity.
      * intros [_ Hp]. rewrite (Hback (proj1 Hparis Hp)). reflexivity.
    + split; [discriminate | intros [H _]; discriminate].
    + split; [discriminate|]. intros [H Hp]. rewrite Hp in H. discriminate.
    + split; [discriminate | intros [H _]; discriminate].
  - destruct (bool_decide (paWithdrawals pa = None)); [discriminate|].
    destruct (bool_decide (paBeaconRoot pa = None)); [discriminate|].
    intros _. simpl. split; discriminate.
Qed.

End EntryPointProperties.

(** * The further properties on the small node and on [opChain] *)

(** X14 on [opChain], whose fees are zero from 50 to 150: they are zero
    at 100 and not at 200. *)
Lemma IsFeeZero_parity_witness :
  strictlyIncreasing (params.ZeroFeeTimes opChain) /\
  params.IsFeeZero opChain 100 = true /\
  params.IsFeeZero opChain 200 = false.
Proof.
  assert (Hinc : strictlyIncreasing (params.ZeroFeeTimes opChain)).
  { intros [|[|i]] s1 s2 H1 H2; simpl in H1, H2; try discriminate.
    injection H1 as <-. injection H2 as <-. lia. }
  split; [exact Hinc|]. split.
  - rewrite (IsFeeZero_parity opChain 100 Hinc). vm_compute. reflexivity.
  - rewrite (IsFeeZero_parity opChain 200 Hinc). vm_compute. reflexivity.
Defined.

(** X16 on [opChain]: the check passes, and the times 100, 200, 300 of
    Shanghai, Cancun and Prague are in order. *)
Lemma CheckConfigForkOrder_order_witness :
  forkorder.CheckConfigForkOrder opChain = forkorder.Pass /\
  StronglySorted Z.le (setTimes opChain) /\
  setTimes opChain = [100; 200; 300] /\
  strictlyIncreasing (params.ZeroFeeTimes opChain).
Proof.
  assert (Hpass : forkorder.CheckConfigForkOrder opChain = forkorder.Pass)
    by (vm_compute; reflexivity).
  split; [exact Hpass|].
  destruct (CheckConfigForkOrder_order opChain Hpass) as (_ & Htimes & _ & Hzero).
  split; [exact Htimes|]. split; [reflexivity | exact Hzero].
Defined.

(** X17 on [opChain]: at time 250 the latest fork is Cancun, and Shanghai
    is in force. *)
Lemma checked_forks_in_order_witness :
  forkorder.CheckConfigForkOrder opChain = forkorder.Pass /\
  params.LatestFork opChain 250 = params.Cancun /\
  params.IsShanghai opChain (params.LondonBlock opChain) 250 = true.
Proof.
  assert (Hpass : forkorder.CheckConfigForkOrder opChain = forkorder.Pass)
    by (vm_compute; reflexivity).
  split; [exact Hpass|]. split; [reflexivity|].
  apply (proj1 (checked_forks_in_order opChain 250 Hpass)). discriminate.
Defined.

(** X18 on the small node: NewPayloadV1 refuses a payload with
    withdrawals, and nothing has happened. *)
Lemma new_payload_errors_witness :
  exists (st : PayloadStatusV1) (err : error),
    NewPayloadV1 (node := simNode opConfig firstKey) simAPI (payloadOnHead 103 40) 77
      = (simAPI, (st, Some err)) /\
    st = mkStatus INVALID None None None /\
    exists e : error, err = With InvalidParams e \/ err = With UnsupportedFork e.
Proof.
  eexists. eexists. split; [reflexivity|].
  refine (proj2 (new_payload_errors (node := simNode opConfig firstKey) opChain
                   simAPI simAPI (payloadOnHead 103 40) None None None 77 _ _
                   (or_introl eq_refl))).
Defined.

(** X21 on the small node with [opChain] behind it: the attributes for
    time 40, in Paris, pass the checks of V1 and so those of V2. *)
Lemma forkchoice_attributes_versions_witness :
  Config (Node := simNode (engineConfig opChain) firstKey) = engineConfig opChain /\
  forkorder.CheckConfigForkOrder opChain = forkorder.Pass /\
  checkAttributesV1 opChain attributesParis = None /\
  checkAttributesV2 (node := simNode (engineConfig opChain) firstKey) attributesParis
    = None.
Proof.
  assert (Hpass : forkorder.CheckConfigForkOrder opChain = forkorder.Pass)
    by (vm_compute; reflexivity).
  split; [reflexivity|]. split; [exact Hpass|]. split; [reflexivity|].
  destruct (forkchoice_attributes_versions
              (node := simNode (engineConfig opChain) firstKey) opChain attributesParis
              eq_refl Hpass) as [Hiff _].
  exact (proj1 (proj1 Hiff eq_refl)).
Defined.

(** * Properties of the transition configuration and of the blobs *)

Section ExchangeProperties.

Context {Payload W : Type} {pool : Pool W}.
Variable chain : params.ChainConfig.

(** X22.  The exchange of the transition configuration is a comparison.
    A call returns a configuration or an error, never both and never
    neither.  A configuration is returned only when the terminal total
    difficulty of the request is that of the chain; it then repeats the
    total difficulty and the terminal block hash of the request, with the
    block number of the request when the hash is not zero -- the canonical
    block of that number then has this hash -- and with the number 0 when
    it is.  The liveness time is set whenever the request has a total
    difficulty, also when the call fails. *)
Theorem ExchangeTransitionConfigurationV1_spec (api : @ConsensusAPI Payload W)
    (config : TransitionConfigurationV1) (now : Z) :
  let call := ExchangeTransitionConfigurationV1 chain api config now in
  (call.2.1 = None <-> call.2.2 <> None) /\
  call.1 = (if bool_decide (tcTerminalTotalDifficulty config = None) then api
            else set_lastTransitionUpdate api now) /\
  forall answer : TransitionConfigurationV1,
    call.2.1 = Some answer ->
    tcTerminalTotalDifficulty config <> None /\
    params.TerminalTotalDifficulty chain = tcTerminalTotalDifficulty config /\
    tcTerminalTotalDifficulty answer = tcTerminalTotalDifficulty config /\
    tcTerminalBlockHash answer = tcTerminalBlockHash config /\
    (if bool_decide (tcTerminalBlockHash config = zeroHash)
     then tcTerminalBlockNumber answer = 0
     else tcTerminalBlockNumber answer = tcTerminalBlockNumber config /\
          GetCanonicalHash (eth api) (wrap64 (tcTerminalBlockNumber config))
            = tcTerminalBlockHash config).
Proof.
  unfold ExchangeTransitionConfigurationV1.
  destruct (tcTerminalTotalDifficulty config) as [configTTD|] eqn:Hconfig; simpl.
  - destruct (params.TerminalTotalDifficulty chain) as [ttd|] eqn:Httd; simpl.
    + destruct (Z.eqb_spec ttd configTTD) as [->|Hne]; simpl.
      * destruct (bool_decide (tcTerminalBlockHash config = zeroHash)) eqn:Hzero; simpl.
        -- apply bool_decide_eq_true_1 in Hzero.
           split; [split; [discriminate | intros H; contradiction]|].
           split; [reflexivity|]. intros answer [= <-]. simpl.
           repeat split; try discriminate. symmetry. exact Hzero.
        -- destruct (bool_decide (GetCanonicalHash _ _ = _)) eqn:Hcanon; simpl.
           ++ apply bool_decide_eq_true_1 in Hcanon.
              split; [split; [discriminate | intros H; contradiction]|].
              split; [reflexivity|]. intros answer [= <-]. simpl.
              repeat split; try discriminate. exact Hcanon.
           ++ split; [split; [discriminate | reflexivity]|].
              split; [reflexivity | discriminate].
      * split; [split; [discriminate | reflexivity]|].
        split; [reflexivity | discriminate].
    + split; [split; [discriminate | reflexivity]|].
      split; [reflexivity | discriminate].
  - split; [split; [discriminate | reflexivity]|].
    split; [reflexivity | discriminate].
Qed.

Lemma blobsLoop_run (blobs proofs : list (option (list N))) :
  forall (i : nat) (res : list (option BlobAndProofV1)),
    (i + length blobs <= length res)%nat ->
    (forall (k : nat) (blob : list N),
       blobs !! k = Some (Some blob) ->
       exists proof : list N, proofs !! (i + k)%nat = Some (Some proof)) ->
    exists res' : list (option BlobAndProofV1),
      blobsLoop i blobs proofs res = Some res' /\
      length res' = length res /\
      (forall j : nat,
         (j < i)%nat \/ (i + length blobs <= j)%nat -> res' !! j = res !! j) /\
      (forall k : nat,
         (k < length blobs)%nat ->
         res' !! (i + k)%nat
           = match blobs !! k, proofs !! (i + k)%nat with
             | Some (Some blob), Some (Some proof) =>
                 Some (Some (mkBlobAndProof blob proof))
             | _, _ => res !! (i + k)%nat
             end).
Proof.
  induction blobs as [|[blob|] rest IH]; intros i res Hlen Hproofs.
  - exists res. simpl. split; [reflexivity|]. split; [reflexivity|].
    split; [reflexivity|]. intros k Hk. simpl in Hk. lia.
  - simpl in Hlen. destruct (Hproofs 0%nat blob eq_refl) as [proof Hproof].
    rewrite Nat.add_0_r in Hproof. simpl. rewrite Hproof.
    destruct (decide (i < length res)%nat) as [Hi|Hi]; [|lia].
    destruct (IH (S i) (<[i := Some (mkBlobAndProof blob proof)]> res))
      as (res' & Hrun & Hlength & Hout & Hin).
    + rewrite length_insert. lia.
    + intros k b Hk. destruct (Hproofs (S k) b Hk) as [p Hp].
      exists p. rewrite <- Hp. f_equal. lia.
    + exists res'. split; [exact Hrun|]. rewrite length_insert in Hlength.
      split; [exact Hlength|]. split.
      * intros j Hj. rewrite Hout by lia. apply list_lookup_insert_ne. lia.
      * intros [|k] Hk.
        -- rewrite Nat.add_0_r. simpl. rewrite Hproof, Hout by lia.
           apply list_lookup_insert_eq. exact Hi.
        -- simpl in Hk. replace (i + S k)%nat with (S i + k)%nat by lia.
           rewrite Hin by lia. simpl.
           destruct (rest !! k) as [[b|]|]; try (apply list_lookup_insert_ne; lia).
           destruct (proofs !! S (i + k)) as [[p|]|];
             [reflexivity | apply list_lookup_insert_ne; lia
              | apply list_lookup_insert_ne; lia].
  - simpl in Hlen. simpl.
    destruct (IH (S i) res) as (res' & Hrun & Hlength & Hout & Hin).
    + lia.
    + intros k b Hk. destruct (Hproofs (S k) b Hk) as [p Hp].
      exists p. rewrite <- Hp. f_equal. lia.
    + exists res'. split; [exact Hrun|]. split; [exact Hlength|]. split.
      * intros j Hj. apply Hout. lia.
      * intros [|k] Hk.
        -- rewrite Nat.add_0_r. simpl. apply Hout. lia.
        -- simpl in Hk. replace (i + S k)%nat with (S i + k)%nat by lia.
           rewrite Hin by lia. reflexivity.
Qed.

(** X23.  GetBlobsV1 answers in the shape of the request.  More than 128
    hashes are refused with the too-large-request error.  For up to 128
    hashes, when the pool returns a blob list as long as the request and a
    proof for every blob it has found, the call returns a list as long as
    the request, in which the entry for a hash is the blob with its proof
    where the pool has found the blob, and nil where it has not. *)
Theorem GetBlobsV1_spec (api : @ConsensusAPI Payload W) (hashes : list N) :
  ((128 < length hashes)%nat ->
   exists err : error, GetBlobsV1 api hashes = Some (inr (With TooLargeRequest err))) /\
  ((length hashes <= 128)%nat ->
   forall blobs proofs : list (option (list N)),
     GetBlobs (eth api) hashes = (blobs, proofs) ->
     length blobs = length hashes ->
     (forall (i : nat) (blob : list N),
        blobs !! i = Some (Some blob) ->
        exists proof : list N, proofs !! i = Some (Some proof)) ->
     exists res : list (option BlobAndProofV1),
       GetBlobsV1 api hashes = Some (inl res) /\
       length res = length hashes /\
       forall i : nat,
         (i < length hashes)%nat ->
         res !! i
           = Some (match blobs !! i, proofs !! i with
                   | Some (Some blob), Some (Some proof) =>
                       Some (mkBlobAndProof blob proof)
                   | _, _ => None
                   end)).
Proof.
  unfold GetBlobsV1. split.
  - intros Hlarge. rewrite (proj2 (Nat.ltb_lt _ _) Hlarge). eexists. reflexivity.
  - intros Hsmall blobs proofs Hpool Hlen Hproofs.
    rewrite (proj2 (Nat.ltb_ge _ _) Hsmall), Hpool. cbv zeta.
    destruct (blobsLoop_run blobs proofs 0 (replicate (length hashes) None))
      as (res & Hrun & Hlength & _ & Hin).
    + rewrite length_replicate. simpl. lia.
    + intros k blob Hk. exact (Hproofs k blob Hk).
    + exists res. rewrite Hrun. split; [reflexivity|].
      rewrite length_replicate in Hlength. split; [exact Hlength|].
      intros i Hi. specialize (Hin i ltac:(lia)). simpl in Hin. rewrite Hin.
      rewrite (lookup_replicate_2 (length hashes) None i Hi).
      destruct (blobs !! i) as [[b|]|]; try reflexivity.
      destruct (proofs !! i) as [[p|]|]; reflexivity.
Qed.

End ExchangeProperties.

(** X22 on the small node with [opChain], whose terminal total difficulty
    is 0: the request that names block 1 with its hash 101 is confirmed,
    and the liveness time is set. *)
Lemma ExchangeTransitionConfigurationV1_spec_witness :
  ExchangeTransitionConfigurationV1 opChain simAPI (mkTransition (Some 0) 101 1) 77
    = (set_lastTransitionUpdate simAPI 77, (Some (mkTransition (Some 0) 101 1), None)) /\
  params.TerminalTotalDifficulty opChain = Some 0.
Proof.
  split; [reflexivity|].
  destruct (ExchangeTransitionConfigurationV1_spec opChain simAPI
              (mkTransition (Some 0) 101 1) 77) as (_ & _ & Hanswer).
  exact (proj1 (proj2 (Hanswer (mkTransition (Some 0) 101 1) eq_refl))).
Defined.

(** X23 on the small pool: of the hashes 4, 7, 10 the first and the last
    have a blob, and the answer has three entries, the second nil. *)
Lemma GetBlobsV1_spec_witness :
  exists res : list (option BlobAndProofV1),
    GetBlobsV1 simAPI [4; 7; 10]%N = Some (inl res) /\
    length res = 3%nat /\
    res !! 0%nat = Some (Some (mkBlobAndProof [4; 4]%N [4%N])) /\
    res !! 1%nat = Some None.
Proof.
  destruct (proj2 (GetBlobsV1_spec simAPI [4; 7; 10]%N)
              ltac:(simpl; lia) (simBlob <$> [4; 7; 10]%N) (simProof <$> [4; 7; 10]%N)
              eq_refl eq_refl) as (res & Hcall & Hlen & Hentries).
  - intros [|[|[|i]]] blob H; simpl in H; try discriminate; eexists; reflexivity.
  - exists res. split; [exact Hcall|]. split; [exact Hlen|]. split.
    + rewrite (Hentries 0%nat ltac:(simpl; lia)). reflexivity.
    + rewrite (Hentries 1%nat ltac:(simpl; lia)). reflexivity.
Defined.

(** * Properties of the sync mode and of the gas limit *)

Section BackendProperties.

Context {Tx Wd Payload Envelope Proofs StatelessWitness W : Type}.
Context {node : @Node Tx Wd Payload Envelope Proofs StatelessWitness W}.
Context {ethereum : Backend W}.

(** X24.  A node that is not in full sync executes no payload.  The sync
    mode of the node is full sync only when the snap sync flag is off, the
    head is not below the last pivot, and the state of the head is there.
    When it is not, a new-payload call for an unknown, untracked block
    whose parent is known and older is handed to the delayed import all
    the same, and is not answered VALID. *)
Theorem unsynced_node_delays_import (api api' : ConsensusAPI) (params : ExecutableData)
    (versionedHashes : option (list N)) (beaconRoot : option N)
    (requests : option (list (list N))) (witness : bool) (now : Z)
    (block parent : Block) :
  GetSyncMode (eth api) = backend.SyncMode (eth api) ->
  snapSync (eth api) = true \/
  (exists pivot : Z,
     ReadLastPivotNumber (eth api) = Some pivot /\
     Uint64 (Number (CurrentBlock (eth api))) < pivot) \/
  HasState (eth api) (Root (CurrentBlock (eth api))) = false ->
  decodesTo params versionedHashes beaconRoot requests block ->
  GetBlockByHash (eth api) (edBlockHash params) = None ->
  checkInvalidAncestor api (Block_Hash block) (Block_Hash block) = (api', None) ->
  GetBlock (eth api) (Block_ParentHash block) (wrap64 (NumberU64 block - 1))
    = Some parent ->
  Block_Time parent < Block_Time block ->
  let delayed := delayPayloadImport (set_lastNewPayloadUpdate api' now) block in
  GetSyncMode (eth api) = SnapSync /\
  newPayload api params versionedHashes beaconRoot requests witness now
    = (delayed.1, (delayed.2, None)) /\
  Status delayed.2 <> VALID.
Proof.
  intros Hmode Hcause Hdec Hunknown Hcheck Hparent Htime delayed.
  assert (Hsnap : GetSyncMode (eth api) = SnapSync).
  { rewrite Hmode. unfold backend.SyncMode. cbv zeta.
    destruct Hcause as [Hflag | [(pivot & Hpivot & Hlow) | Hstate]].
    - rewrite Hflag. reflexivity.
    - destruct (snapSync (eth api)); [reflexivity|].
      rewrite Hpivot, (proj2 (Z.ltb_lt _ _) Hlow). reflexivity.
    - destruct (snapSync (eth api)); [reflexivity|].
      destruct (match ReadLastPivotNumber (eth api) with
                | Some pivot => _
                | None => false
                end); [reflexivity|].
      rewrite Hstate. reflexivity. }
  split; [exact Hsnap|].
  destruct (newPayload_untainted api api' params versionedHashes beaconRoot
              requests witness now block Hdec Hunknown Hcheck) as [Heth Hrest].
  rewrite Hrest. cbv zeta. rewrite Heth, Hparent, (proj2 (Z.leb_gt _ _) Htime), Hsnap.
  rewrite bool_decide_eq_false_2 by discriminate. simpl negb. cbv iota.
  fold delayed. destruct delayed as [a res] eqn:Hdelayed. split; [reflexivity|].
  exact (delayPayloadImport_not_valid _ _ _ _ Hdelayed).
Qed.

End BackendProperties.

Section GasLimitProperties.

(** X25.  The gas limit the pool works with never exceeds the gas limit
    of the block, nor a ceiling that is set (not 0), and is never
    negative.  Without the Optimism config it is the lower of the two; with
    it, 70000 less, and 0 when the lower of the two is at most 70000. *)
Theorem EffectiveGasLimit_bounds (c : params.ChainConfig) (gasLimit effectiveLimit : Z) :
  0 <= gasLimit -> 0 <= effectiveLimit ->
  let cap := if effectiveLimit =? 0 then gasLimit else Z.min gasLimit effectiveLimit in
  let limit := txpool.EffectiveGasLimit c gasLimit effectiveLimit in
  0 <= limit <= gasLimit /\
  (effectiveLimit <> 0 -> limit <= effectiveLimit) /\
  (params.Optimism c = None -> limit = cap) /\
  (params.Optimism c <> None -> limit = Z.max 0 (cap - 70000)).
Proof.
  intros Hgas Hceil cap limit. unfold limit, cap, txpool.EffectiveGasLimit,
    txpool.l1InfoGasOverhead. cbv zeta.
  destruct (Z.eqb_spec effectiveLimit 0) as [Hz|Hz]; simpl;
    destruct (Z.ltb_spec effectiveLimit gasLimit); simpl;
    destruct (params.Optimism c) as [o|]; simpl;
    repeat match goal with
           | |- context [?a <? ?b] => destruct (Z.ltb_spec a b)
           end;
    repeat split; try lia; try (intros; lia); try (intros H'; discriminate H');
    try (intros H'; exfalso; apply H'; reflexivity).
Qed.

End GasLimitProperties.

(** X24 on the small node in snap sync: the block 103 on top of the head
    is not executed but delayed, and the answer is SYNCING. *)
Lemma unsynced_node_delays_import_witness :
  GetSyncMode (Node := simNode opConfig firstKey) snapChain
    = backend.SyncMode (node := simNode opConfig firstKey) snapChain /\
  (newPayload (node := simNode opConfig firstKey) snapAPI (payloadOnHead 103 40)
     None None None false 77).2 = (mkStatus SYNCING None None None, None).
Proof.
  assert (Hmode : GetSyncMode (Node := simNode opConfig firstKey) snapChain
                  = backend.SyncMode (node := simNode opConfig firstKey) snapChain)
    by reflexivity.
  split; [exact Hmode|].
  assert (Hdec : decodesTo (node := simNode opConfig firstKey) (payloadOnHead 103 40)
                   None None None (simDecode (payloadOnHead 103 40)))
    by (split; reflexivity).
  assert (Htime : Block_Time blockB < Block_Time (simDecode (payloadOnHead 103 40)))
    by (vm_compute; reflexivity).
  destruct (unsynced_node_delays_import (node := simNode opConfig firstKey)
              snapAPI snapAPI (payloadOnHead 103 40) None None None false 77
              (simDecode (payloadOnHead 103 40)) blockB Hmode
              (or_intror (or_introl (ex_intro _ 5 (conj eq_refl eq_refl))))
              Hdec eq_refl eq_refl eq_refl Htime) as (_ & Hcall & _).
  rewrite Hcall. reflexivity.
Defined.

(** X25 on [opChain]: of a block gas limit of 30 million under a ceiling
    of 20 million the pool works with 19.93 million. *)
Lemma EffectiveGasLimit_bounds_witness :
  0 <= 30000000 /\ 0 <= 20000000 /\
  txpool.EffectiveGasLimit opChain 30000000 20000000 = 19930000.
Proof.
  assert (Hgas : 0 <= 30000000) by lia.
  assert (Hceil : 0 <= 20000000) by lia.
  split; [exact Hgas|]. split; [exact Hceil|].
  destruct (EffectiveGasLimit_bounds opChain 30000000 20000000 Hgas Hceil)
    as (_ & _ & _ & Hop).
  rewrite Hop by discriminate. reflexivity.
Defined.

(** * Properties of the executing messages *)

Section InteropProperties.

Import interoptypes.

Variable topic : N.
Variable inbox : list N.

Lemma bigEndian_cons (b : N) (l : list N) :
  bigEndian (b :: l) = Z.of_N b * 256 ^ Z.of_nat (length l) + bigEndian l.
Proof.
  unfold bigEndian. simpl. generalize (Z.of_N b). intros acc.
  assert (Hgen : forall (l : list N) (acc : Z),
            foldl (fun a x => a * 256 + Z.of_N x) acc l
              = acc * 256 ^ Z.of_nat (length l)
                + foldl (fun a x => a * 256 + Z.of_N x) 0 l).
  { clear. induction l as [|x l IH]; intros acc.
    - simpl. lia.
    - simpl foldl. rewrite (IH (acc * 256 + Z.of_N x)), (IH (0 * 256 + Z.of_N x)).
      simpl length. rewrite Nat2Z.inj_succ, Z.pow_succ_r by lia. lia. }
  apply Hgen.
Qed.

Lemma bigEndian_bound (l : list N) :
  Forall (fun b => (b < 256)%N) l -> 0 <= bigEndian l < 256 ^ Z.of_nat (length l).
Proof.
  induction 1 as [|b l Hb Hl IH].
  - unfold bigEndian. simpl. lia.
  - rewrite bigEndian_cons. simpl length. rewrite Nat2Z.inj_succ, Z.pow_succ_r by lia.
    assert (0 <= Z.of_N b < 256) by lia. nia.
Qed.

Lemma length_bigEndianBytes (n : nat) (x : Z) : length (bigEndianBytes n x) = n.
Proof. induction n as [|n IH]; simpl; [reflexivity | rewrite IH; reflexivity]. Qed.

Lemma bigEndianBytes_bytes (n : nat) (x : Z) :
  Forall (fun b => (b < 256)%N) (bigEndianBytes n x).
Proof.
  induction n as [|n IH]; simpl; constructor; [|exact IH].
  pose proof (Z.mod_pos_bound (x / 256 ^ Z.of_nat n) 256 ltac:(lia)). lia.
Qed.

Lemma bigEndian_bytes (n : nat) (x : Z) :
  0 <= x -> bigEndian (bigEndianBytes n x) = x mod 256 ^ Z.of_nat n.
Proof.
  intros Hx. induction n as [|n IH].
  - unfold bigEndian. simpl. rewrite Z.mod_1_r. reflexivity.
  - simpl bigEndianBytes. rewrite bigEndian_cons, length_bigEndianBytes, IH.
    rewrite Nat2Z.inj_succ, Z.pow_succ_r by lia.
    rewrite (Z.mul_comm 256), Z.rem_mul_r by lia.
    pose proof (Z.mod_pos_bound (x / 256 ^ Z.of_nat n) 256 ltac:(lia)).
    rewrite Z2N.id by lia. lia.
Qed.

Lemma bigEndianBytes_shift (j k : nat) (a y : Z) :
  (j <= k)%nat -> bigEndianBytes j (a * 256 ^ Z.of_nat k + y) = bigEndianBytes j y.
Proof.
  intros Hjk. induction j as [|j IH]; [reflexivity|].
  simpl. rewrite IH by lia. f_equal. f_equal.
  assert (Hk : 256 ^ Z.of_nat k
               = 256 ^ Z.of_nat (k - j - 1) * 256 * 256 ^ Z.of_nat j).
  { replace (Z.of_nat k) with (Z.of_nat (k - j - 1) + 1 + Z.of_nat j) at 1 by lia.
    rewrite !Z.pow_add_r by lia. rewrite Z.pow_1_r. reflexivity. }
  rewrite Hk, !Z.mul_assoc, Z.div_add_l by lia.
  rewrite Z.add_comm, Z.mod_add by lia. reflexivity.
Qed.

Lemma bytes_bigEndian (l : list N) :
  Forall (fun b => (b < 256)%N) l -> bigEndianBytes (length l) (bigEndian l) = l.
Proof.
  induction 1 as [|b l Hb Hl IH]; [reflexivity|].
  pose proof (bigEndian_bound l Hl) as Hbound.
  simpl length. simpl bigEndianBytes. rewrite bigEndian_cons.
  rewrite bigEndianBytes_shift by lia. rewrite IH. f_equal.
  rewrite Z.div_add_l by lia. rewrite (Z.div_small (bigEndian l)) by lia.
  rewrite Z.add_0_r, Z.mod_small by lia. apply N2Z.id.
Qed.

Lemma allZero_replicate (l : list N) :
  allZero l = true <-> l = replicate (length l) 0%N.
Proof.
  unfold allZero. induction l as [|b l IH]; simpl; [split; reflexivity|].
  rewrite andb_true_iff, IH. split.
  - intros [Hb Hl]. destruct b; [|discriminate]. f_equal. exact Hl.
  - intros H. injection H as Hb Hl. subst b. split; [reflexivity | exact Hl].
Qed.

Lemma allZero_zeroes (n : nat) : allZero (replicate n 0%N) = true.
Proof. apply allZero_replicate. rewrite length_replicate. reflexivity. Qed.

(** Data laid out in five words decodes to the values of the words. *)
Lemma DecodeEvent_layout (m : Message) (payloadHash : N)
    (p1 o p2 b p3 l p4 t c : list N) :
  length p1 = 12%nat -> allZero p1 = true -> length o = 20%nat ->
  length p2 = 24%nat -> allZero p2 = true -> length b = 8%nat ->
  length p3 = 28%nat -> allZero p3 = true -> length l = 4%nat ->
  length p4 = 24%nat -> allZero p4 = true -> length t = 8%nat ->
  length c = 32%nat ->
  DecodeEvent topic m [topic; payloadHash]
    (p1 ++ o ++ p2 ++ b ++ p3 ++ l ++ p4 ++ t ++ c)
    = (mkMessage (mkIdentifier o (bigEndian b) (bigEndian l) (bigEndian t) (bigEndian c))
         payloadHash, None).
Proof.
  intros L1 Z1 Lo L2 Z2 Lb L3 Z3 Ll L4 Z4 Lt Lc.
  assert (Hlen : (length (p1 ++ o ++ p2 ++ b ++ p3 ++ l ++ p4 ++ t ++ c) =? 32 * 5)%nat
                 = true).
  { apply Nat.eqb_eq. rewrite !length_app, L1, Lo, L2, Lb, L3, Ll, L4, Lt, Lc.
    reflexivity. }
  unfold DecodeEvent. rewrite N.eqb_refl, Hlen. cbn [negb]. cbv zeta.
  change (32 - 8)%nat with 24%nat. change (32 - 4)%nat with 28%nat.
  rewrite (take_app_length' p1), (drop_app_length' p1) by (symmetry; exact L1).
  rewrite Z1. cbn [negb].
  rewrite (take_app_length' o), (drop_app_length' o) by (symmetry; exact Lo).
  rewrite (take_app_length' p2), (drop_app_length' p2) by (symmetry; exact L2).
  rewrite Z2. cbn [negb].
  rewrite (take_app_length' b), (drop_app_length' b) by (symmetry; exact Lb).
  rewrite (take_app_length' p3), (drop_app_length' p3) by (symmetry; exact L3).
  rewrite Z3. cbn [negb].
  rewrite (take_app_length' l), (drop_app_length' l) by (symmetry; exact Ll).
  rewrite (take_app_length' p4), (drop_app_length' p4) by (symmetry; exact L4).
  rewrite Z4. cbn [negb].
  rewrite (take_app_length' t), (drop_app_length' t) by (symmetry; exact Lt).
  rewrite (take_ge c) by lia.
  reflexivity.
Qed.

(** X26.  Decoding the event is the inverse of laying out the
    identifier.  The data of an identifier within range, under the topic
    of the event and a payload hash, decodes without an error to the
    message of that identifier and hash, whatever the message held
    before.  And when data of bytes decodes without an error, the topics
    are the topic of the event and the payload hash of the message, the
    identifier of the message is within range, and the data is that of
    this identifier: 160 bytes with every padding zero. *)
Theorem DecodeEvent_round_trip (m : Message) :
  (forall (id : Identifier) (payloadHash : N),
     identifierInRange id ->
     DecodeEvent topic m [topic; payloadHash] (eventData id)
       = (mkMessage id payloadHash, None)) /\
  (forall (topics : list N) (data : list N) (m' : Message),
     Forall (fun b => (b < 256)%N) data ->
     DecodeEvent topic m topics data = (m', None) ->
     topics = [topic; PayloadHash m'] /\
     identifierInRange (msgIdentifier m') /\
     data = eventData (msgIdentifier m')).
Proof.
  split.
  - intros [origin number index time chain] payloadHash
      (Horigin & Hbytes & Hnumber & Hindex & Htime & Hchain).
    cbn [Origin BlockNumber LogIndex Timestamp ChainID] in *.
    unfold eventData. cbn [Origin BlockNumber LogIndex Timestamp ChainID].
    rewrite DecodeEvent_layout;
      rewrite ?length_replicate, ?length_bigEndianBytes, ?allZero_zeroes;
      try reflexivity; try exact Horigin.
    rewrite !bigEndian_bytes by lia.
    change (256 ^ Z.of_nat 8) with (2 ^ 64). change (256 ^ Z.of_nat 4) with (2 ^ 32).
    change (256 ^ Z.of_nat 32) with (2 ^ 256).
    rewrite !Z.mod_small by lia. reflexivity.
  - intros topics data m' Hdata.
    destruct topics as [|topic0 [|topic1 [|topic2 topics]]]; try discriminate.
    unfold DecodeEvent.
    destruct (N.eqb_spec topic0 topic) as [->|]; [|discriminate]. cbn [negb].
    destruct (Nat.eqb_spec (length data) (32 * 5)) as [Hlen|]; [|discriminate].
    cbn [negb]. change (32 * 5)%nat with 160%nat in Hlen.
    destruct (allZero (take 12 data)) eqn:Hz1; [|discriminate]. cbn [negb].
    cbv zeta.
    destruct (allZero (take (32 - 8) (drop 20 (drop 12 data)))) eqn:Hz2; [|discriminate].
    cbn [negb].
    destruct (allZero (take (32 - 4)
                         (drop 8 (drop (32 - 8) (drop 20 (drop 12 data)))))) eqn:Hz3;
      [|discriminate].
    cbn [negb].
    destruct (allZero (take (32 - 8)
                         (drop 4 (drop (32 - 4)
                                    (drop 8 (drop (32 - 8) (drop 20 (drop 12 data)))))))) eqn:Hz4;
      [|discriminate].
    cbn [negb]. intros [= <-].
    unfold set_PayloadHash, set_ChainID, set_Timestamp, set_LogIndex, set_BlockNumber,
      set_Origin. simpl PayloadHash. simpl msgIdentifier.
    change (32 - 8)%nat with 24%nat in *. change (32 - 4)%nat with 28%nat in *.
    set (d1 := drop 12 data) in *. set (d2 := drop 20 d1) in *.
    set (d3 := drop 24 d2) in *. set (d4 := drop 8 d3) in *.
    set (d5 := drop 28 d4) in *. set (d6 := drop 4 d5) in *.
    set (d7 := drop 24 d6) in *. set (d8 := drop 8 d7) in *.
    assert (L1 : length d1 = 148%nat) by (unfold d1; rewrite length_drop; lia).
    assert (L2 : length d2 = 128%nat) by (unfold d2; rewrite length_drop; lia).
    assert (L3 : length d3 = 104%nat) by (unfold d3; rewrite length_drop; lia).
    assert (L4 : length d4 = 96%nat) by (unfold d4; rewrite length_drop; lia).
    assert (L5 : length d5 = 68%nat) by (unfold d5; rewrite length_drop; lia).
    assert (L6 : length d6 = 64%nat) by (unfold d6; rewrite length_drop; lia).
    assert (L7 : length d7 = 40%nat) by (unfold d7; rewrite length_drop; lia).
    assert (L8 : length d8 = 32%nat) by (unfold d8; rewrite length_drop; lia).
    assert (F1 : Forall (fun b => (b < 256)%N) d1) by (apply Forall_drop; exact Hdata).
    assert (F2 : Forall (fun b => (b < 256)%N) d2) by (apply Forall_drop; exact F1).
    assert (F3 : Forall (fun b => (b < 256)%N) d3) by (apply Forall_drop; exact F2).
    assert (F4 : Forall (fun b => (b < 256)%N) d4) by (apply Forall_drop; exact F3).
    assert (F5 : Forall (fun b => (b < 256)%N) d5) by (apply Forall_drop; exact F4).
    assert (F6 : Forall (fun b => (b < 256)%N) d6) by (apply Forall_drop; exact F5).
    assert (F7 : Forall (fun b => (b < 256)%N) d7) by (apply Forall_drop; exact F6).
    assert (F8 : Forall (fun b => (b < 256)%N) d8) by (apply Forall_drop; exact F7).
    assert (T8 : take 32 d8 = d8) by (apply take_ge; lia).
    rewrite T8.
    split; [reflexivity|]. split.
    + unfold identifierInRange. simpl.
      split; [rewrite length_take; lia|].
      split; [apply Forall_take; exact F1|].
      pose proof (bigEndian_bound (take 8 d3) (Forall_take _ _ _ F3)) as B4.
      pose proof (bigEndian_bound (take 4 d5) (Forall_take _ _ _ F5)) as B6.
      pose proof (bigEndian_bound (take 8 d7) (Forall_take _ _ _ F7)) as B8.
      pose proof (bigEndian_bound d8 F8) as B9.
      rewrite length_take in B4, B6, B8. rewrite L3 in B4. rewrite L5 in B6.
      rewrite L7 in B8. rewrite L8 in B9. simpl in B4, B6, B8, B9.
      repeat split; lia.
    + unfold eventData. cbn [Origin BlockNumber LogIndex Timestamp ChainID].
      apply allZero_replicate in Hz1, Hz2, Hz3, Hz4.
      rewrite length_take in Hz1, Hz2, Hz3, Hz4.
      rewrite Hlen in Hz1. rewrite L2 in Hz2. rewrite L4 in Hz3. rewrite L6 in Hz4.
      simpl Nat.min in Hz1, Hz2, Hz3, Hz4.
      replace (bigEndianBytes 8 (bigEndian (take 8 d3))) with (take 8 d3).
      2:{ rewrite <- (bytes_bigEndian (take 8 d3)) at 1 by (apply Forall_take; exact F3).
          rewrite length_take, L3. reflexivity. }
      replace (bigEndianBytes 4 (bigEndian (take 4 d5))) with (take 4 d5).
      2:{ rewrite <- (bytes_bigEndian (take 4 d5)) at 1 by (apply Forall_take; exact F5).
          rewrite length_take, L5. reflexivity. }
      replace (bigEndianBytes 8 (bigEndian (take 8 d7))) with (take 8 d7).
      2:{ rewrite <- (bytes_bigEndian (take 8 d7)) at 1 by (apply Forall_take; exact F7).
          rewrite length_take, L7. reflexivity. }
      replace (bigEndianBytes 32 (bigEndian d8)) with d8.
      2:{ rewrite <- (bytes_bigEndian d8) at 1 by exact F8. rewrite L8. reflexivity. }
      rewrite <- Hz1. rewrite <- Hz2 at 1. rewrite <- Hz3, <- Hz4.
      unfold d8. rewrite (take_drop 8 d7).
      unfold d7. rewrite (take_drop 24 d6).
      unfold d6. rewrite (take_drop 4 d5).
      unfold d5. rewrite (take_drop 28 d4).
      unfold d4. rewrite (take_drop 8 d3).
      unfold d3. rewrite (take_drop 24 d2).
      unfold d2. rewrite (take_drop 20 d1).
      unfold d1. rewrite (take_drop 12 data). reflexivity.
Qed.

End InteropProperties.

Section MessagesProperties.

Import interoptypes.

Variable topic : N.
Variable inbox : list N.

(** The events of the inbox are the logs the loop decodes. *)
Lemma messagesLoop_step (i : Z) (l : Log) (rest : list Log) (acc : list Message) :
  messagesLoop topic inbox i (l :: rest) acc
    = if decide (inboxEvent topic inbox l) then
        match DecodeEvent topic zeroMessage (Topics l) (Data l) with
        | (_, Some err) =>
            inr (fmt_Errorf "invalid executing message %d, tx-log %d: %w"
                   [Num (Z.of_nat (length acc)); Num i; Wraps err])
        | (msg, None) => messagesLoop topic inbox (i + 1) rest (acc ++ [msg])
        end
      else messagesLoop topic inbox (i + 1) rest acc.
Proof.
  simpl. unfold inboxEvent.
  destruct (decide (Address l = inbox /\ head (Topics l) = Some topic)) as [[Ha Ht]|Hno].
  - rewrite (bool_decide_eq_true_2 _ Ha).
    destruct (Topics l) as [|topic0 topics]; [discriminate|].
    simpl in Ht. injection Ht as ->. rewrite N.eqb_refl. reflexivity.
  - destruct (bool_decide (Address l = inbox)) eqn:Ha; [|reflexivity].
    apply bool_decide_eq_true_1 in Ha.
    destruct (Topics l) as [|topic0 topics]; [reflexivity|].
    destruct (N.eqb_spec topic0 topic) as [->|Hne]; [|reflexivity].
    exfalso. apply Hno. split; [exact Ha | reflexivity].
Qed.

(** X27.  The executing messages of a list of logs are the decoded events
    of the inbox, in the order of the logs.  The call succeeds exactly
    when every log of the inbox address whose first topic is that of the
    event decodes, and then returns the messages of these logs; the other
    logs are passed over, whatever they hold.  When it fails, the error
    wraps that of an event of the inbox that does not decode, with the
    index of its log and the number of events before it. *)
Theorem ExecutingMessagesFromLogs_spec (logs : list Log) :
  (forall msgs : list Message,
     ExecutingMessagesFromLogs topic inbox logs = inl msgs <->
     Forall2 (fun l msg => DecodeEvent topic zeroMessage (Topics l) (Data l) = (msg, None))
       (filter (inboxEvent topic inbox) logs) msgs) /\
  (forall err : error,
     ExecutingMessagesFromLogs topic inbox logs = inr err ->
     exists (i : nat) (l : Log) (m : Message) (e : error),
       logs !! i = Some l /\ inboxEvent topic inbox l /\
       DecodeEvent topic zeroMessage (Topics l) (Data l) = (m, Some e) /\
       err = fmt_Errorf "invalid executing message %d, tx-log %d: %w"
               [Num (Z.of_nat (length (filter (inboxEvent topic inbox) (take i logs))));
                Num (Z.of_nat i); Wraps e]).
Proof.
  assert (Hgen : forall (l : list Log) (start : Z) (acc : list Message),
            (forall msgs : list Message,
               messagesLoop topic inbox start l acc = inl msgs <->
               exists new : list Message,
                 msgs = acc ++ new /\
                 Forall2 (fun l msg =>
                            DecodeEvent topic zeroMessage (Topics l) (Data l) = (msg, None))
                   (filter (inboxEvent topic inbox) l) new) /\
            (forall err : error,
               messagesLoop topic inbox start l acc = inr err ->
               exists (i : nat) (x : Log) (m : Message) (e : error),
                 l !! i = Some x /\ inboxEvent topic inbox x /\
                 DecodeEvent topic zeroMessage (Topics x) (Data x) = (m, Some e) /\
                 err = fmt_Errorf "invalid executing message %d, tx-log %d: %w"
                         [Num (Z.of_nat
                                 (length acc
                                  + length (filter (inboxEvent topic inbox) (take i l))));
                          Num (start + Z.of_nat i); Wraps e])).
  { induction l as [|x rest IH]; intros start acc.
    - split.
      + intros msgs. simpl. split.
        * intros [= <-]. exists []. rewrite app_nil_r. split; [reflexivity | constructor].
        * intros (new & -> & Hnew). inversion Hnew. rewrite app_nil_r. reflexivity.
      + intros err H. discriminate H.
    - rewrite messagesLoop_step, filter_cons.
      destruct (decide (inboxEvent topic inbox x)) as [Hin|Hout].
      + destruct (DecodeEvent topic zeroMessage (Topics x) (Data x)) as [m [e|]] eqn:Hdec.
        * split.
          -- intros msgs. split; [discriminate|].
             intros (new & _ & Hnew). inversion Hnew as [|? ? ? ? Hhd _]; subst.
             rewrite Hdec in Hhd. discriminate Hhd.
          -- intros err [= <-]. exists 0%nat, x, m, e.
             split; [reflexivity|]. split; [exact Hin|]. split; [exact Hdec|].
             simpl. rewrite Nat.add_0_r, Z.add_0_r. reflexivity.
        * destruct (IH (start + 1) (acc ++ [m])) as [IHok IHerr]. split.
          -- intros msgs. rewrite IHok. split.
             ++ intros (new & -> & Hnew). exists (m :: new).
                rewrite <- app_assoc. split; [reflexivity|].
                constructor; [exact Hdec | exact Hnew].
             ++ intros (new & -> & Hnew).
                inversion Hnew as [|? m0 ? new' Hhd Htl]; subst.
                rewrite Hdec in Hhd. injection Hhd as <-. exists new'.
                rewrite <- app_assoc. split; [reflexivity | exact Htl].
          -- intros err Herr.
             destruct (IHerr err Herr) as (i & y & m' & e & Hi & Hy & Hd & ->).
             exists (S i), y, m', e. split; [exact Hi|]. split; [exact Hy|].
             split; [exact Hd|]. simpl take. rewrite filter_cons.
             destruct (decide (inboxEvent topic inbox x)) as [_|Hno]; [|contradiction].
             rewrite length_app. simpl length.
             replace (start + 1 + Z.of_nat i) with (start + Z.of_nat (S i)) by lia.
             replace (length acc + 1 + length (filter (inboxEvent topic inbox) (take i rest)))%nat
               with (length acc + S (length (filter (inboxEvent topic inbox) (take i rest))))%nat
               by lia.
             reflexivity.
      + destruct (IH (start + 1) acc) as [IHok IHerr]. split; [exact IHok|].
        intros err Herr.
        destruct (IHerr err Herr) as (i & y & m' & e & Hi & Hy & Hd & ->).
        exists (S i), y, m', e. split; [exact Hi|]. split; [exact Hy|].
        split; [exact Hd|]. simpl take. rewrite filter_cons.
        destruct (decide (inboxEvent topic inbox x)) as [Hyes|_]; [contradiction|].
        replace (start + 1 + Z.of_nat i) with (start + Z.of_nat (S i)) by lia.
        reflexivity. }
  destruct (Hgen logs 0 []) as [Hok Herr]. split.
  - intros msgs. unfold ExecutingMessagesFromLogs. rewrite Hok. split.
    + intros (new & -> & Hnew). exact Hnew.
    + intros Hnew. exists msgs. split; [reflexivity | exact Hnew].
  - intros err H. destruct (Herr err H) as (i & y & m' & e & Hi & Hy & Hd & ->).
    exists i, y, m', e. split; [exact Hi|]. split; [exact Hy|]. split; [exact Hd|].
    reflexivity.
Qed.

End MessagesProperties.

(** * Properties of the compatibility errors and of the extra data *)

Section CompatProperties.

(** X28.  Rewinding to the target of a compatibility error undoes the
    conflict.  When a fork cannot be moved from one time to another
    because the head is past it, the time to rewind to is not after the
    head, and at that time the two schedules are compatible -- unless a
    fork at time 0 is involved, where the target is 0 and cannot be any
    lower.  The same holds for forks set by block, for blocks below 2^64;
    an error for a time fork asks for no rewind by block, and one for a
    block fork for none by time. *)
Theorem compat_error_rewinds (what : string) (s1 s2 : option Z) (head : Z)
    (genesis : option Z) :
  (forall s : Z, s1 = Some s \/ s2 = Some s -> 0 <= s < 2 ^ 64) ->
  0 <= head ->
  (params.isForkTimestampIncompatible s1 s2 head genesis = true ->
   let err := params.newTimestampCompatError what s1 s2 in
   params.RewindToBlock err = 0 /\
   0 <= params.RewindToTime err <= head /\
   (s1 <> Some 0 -> s2 <> Some 0 ->
    params.RewindToTime err < head /\
    params.isForkTimestampIncompatible s1 s2 (params.RewindToTime err) genesis = false)) /\
  (params.isForkBlockIncompatible s1 s2 (Some head) = true ->
   let err := params.newBlockCompatError what s1 s2 in
   params.RewindToTime err = 0 /\
   0 <= params.RewindToBlock err <= head /\
   (s1 <> Some 0 -> s2 <> Some 0 ->
    params.RewindToBlock err < head /\
    params.isForkBlockIncompatible s1 s2 (Some (params.RewindToBlock err)) = false)).
Proof.
  intros Hrange Hhead.
  assert (Hwrap : forall s : Z, 0 < s < 2 ^ 64 -> wrap64 (s - 1) = s - 1).
  { intros s Hs. apply wrap64_small. lia. }
  assert (Hlow : forall s : Z, 0 <= s < 2 ^ 64 -> Uint64 s = s).
  { intros s Hs. unfold Uint64. rewrite Z.abs_eq by lia. rewrite Z.land_ones by lia.
    apply Z.mod_small. lia. }
  split.
  - unfold params.isForkTimestampIncompatible, params.isTimestampForked,
      params.configTimestampEqual, params.newTimestampCompatError.
    destruct s1 as [a|], s2 as [b|]; simpl;
      try (pose proof (Hrange a ltac:(left; reflexivity)));
      try (pose proof (Hrange b ltac:(right; reflexivity)) ||
           pose proof (Hrange b ltac:(left; reflexivity)));
      try discriminate.
    + pose proof (Hrange b (or_intror eq_refl)) as Hb.
      destruct (Z.ltb_spec a b); simpl.
      * destruct (Z.eqb_spec a 0) as [->|Ha]; simpl.
        -- intros _. split; [reflexivity|]. split; [lia|]. intros Hz. contradiction.
        -- rewrite (Hwrap a) by lia.
           destruct (Z.leb_spec a head); destruct (Z.leb_spec b head); simpl;
             try discriminate; intros _; (split; [reflexivity|]); (split; [lia|]);
             intros _ _; (split; [lia|]);
             rewrite (proj2 (Z.leb_gt a (a - 1))), (proj2 (Z.leb_gt b (a - 1))) by lia;
             reflexivity.
      * destruct (Z.eqb_spec b 0) as [->|Hb0]; simpl.
        -- intros _. split; [reflexivity|]. split; [lia|]. intros _ Hz. contradiction.
        -- rewrite (Hwrap b) by lia.
           destruct (Z.leb_spec a head); destruct (Z.leb_spec b head); simpl;
             try discriminate;
             destruct (Z.eqb_spec a b); simpl; try discriminate;
             intros _; (split; [reflexivity|]); (split; [lia|]);
             intros _ _; (split; [lia|]);
             rewrite (proj2 (Z.leb_gt a (b - 1))), (proj2 (Z.leb_gt b (b - 1))) by lia;
             reflexivity.
    + destruct (Z.eqb_spec a 0) as [->|Ha]; simpl.
      * intros _. split; [reflexivity|]. split; [lia|]. intros Hz. contradiction.
      * rewrite (Hwrap a) by lia. rewrite !orb_false_r, !andb_true_r.
        destruct (Z.leb_spec a head); simpl; try discriminate.
        intros _. split; [reflexivity|]. split; [lia|]. intros _ _. split; [lia|].
        rewrite (proj2 (Z.leb_gt a (a - 1))) by lia. reflexivity.
    + pose proof (Hrange b (or_intror eq_refl)) as Hb.
      destruct (Z.eqb_spec b 0) as [->|Hb0]; simpl.
      * intros _. split; [reflexivity|]. split; [lia|]. intros _ Hz. contradiction.
      * rewrite (Hwrap b) by lia.
        destruct (Z.leb_spec b head); simpl; try discriminate.
        intros _. split; [reflexivity|]. split; [lia|]. intros _ _. split; [lia|].
        rewrite (proj2 (Z.leb_gt b (b - 1))) by lia. reflexivity.
  - unfold params.isForkBlockIncompatible, params.isBlockForked,
      params.configBlockEqual, params.newBlockCompatError, Sign.
    destruct s1 as [a|], s2 as [b|]; simpl; try discriminate.
    + pose proof (Hrange a (or_introl eq_refl)) as Ha.
      pose proof (Hrange b (or_intror eq_refl)) as Hb.
      destruct (Z.ltb_spec a b); simpl.
      * destruct (Z.ltb_spec 0 (Z.sgn a)); simpl.
        -- rewrite (Hlow a), (Hwrap a) by lia.
           destruct (Z.leb_spec a head); destruct (Z.leb_spec b head); simpl;
             try discriminate; intros _; (split; [reflexivity|]); (split; [lia|]);
             intros _ _; (split; [lia|]);
             rewrite (proj2 (Z.leb_gt a (a - 1))), (proj2 (Z.leb_gt b (a - 1))) by lia;
             reflexivity.
        -- assert (a = 0) as -> by lia.
           intros _. split; [reflexivity|]. split; [lia|]. intros Hz. contradiction.
      * destruct (Z.ltb_spec 0 (Z.sgn b)); simpl.
        -- rewrite (Hlow b), (Hwrap b) by lia.
           destruct (Z.leb_spec a head); destruct (Z.leb_spec b head); simpl;
             try discriminate;
             destruct (Z.eqb_spec a b); simpl; try discriminate;
             intros _; (split; [reflexivity|]); (split; [lia|]);
             intros _ _; (split; [lia|]);
             rewrite (proj2 (Z.leb_gt a (b - 1))), (proj2 (Z.leb_gt b (b - 1))) by lia;
             reflexivity.
        -- assert (b = 0) as -> by lia.
           intros _. split; [reflexivity|]. split; [lia|]. intros _ Hz. contradiction.
    + pose proof (Hrange a (or_introl eq_refl)) as Ha.
      destruct (Z.ltb_spec 0 (Z.sgn a)); simpl.
      * rewrite (Hlow a), (Hwrap a) by lia. rewrite !orb_false_r, !andb_true_r.
        destruct (Z.leb_spec a head); simpl; try discriminate.
        intros _. split; [reflexivity|]. split; [lia|]. intros _ _. split; [lia|].
        rewrite (proj2 (Z.leb_gt a (a - 1))) by lia. reflexivity.
      * assert (a = 0) as -> by lia.
        intros _. split; [reflexivity|]. split; [lia|]. intros Hz. contradiction.
    + pose proof (Hrange b (or_intror eq_refl)) as Hb.
      destruct (Z.ltb_spec 0 (Z.sgn b)); simpl.
      * rewrite (Hlow b), (Hwrap b) by lia.
        destruct (Z.leb_spec b head); simpl; try discriminate.
        intros _. split; [reflexivity|]. split; [lia|]. intros _ _. split; [lia|].
        rewrite (proj2 (Z.leb_gt b (b - 1))) by lia. reflexivity.
      * assert (b = 0) as -> by lia.
        intros _. split; [reflexivity|]. split; [lia|]. intros _ Hz. contradiction.
Qed.

End CompatProperties.

Section ExtraDataProperties.

Variable MaximumExtraDataSize : Z.
Variable defaultExtraData : list N.

(** X29.  The miner never refuses the extra data the node has prepared.
    What [makeExtraData] returns is no longer than the maximum size, so
    that [SetExtra] takes it without an error and stores it; extra data
    that is not empty and within the maximum is returned as it is, and
    extra data beyond the maximum is dropped for the empty one. *)
Theorem prepared_extra_data_accepted (config : miner.Config) (extra : list N) :
  0 <= MaximumExtraDataSize ->
  let prepared := eth.makeExtraData MaximumExtraDataSize defaultExtraData extra in
  Z.of_nat (length prepared) <= MaximumExtraDataSize /\
  miner.SetExtra MaximumExtraDataSize config prepared
    = (miner.mkMinerConfig prepared (miner.GasCeil config) (miner.GasPrice config)
         (miner.MaxDATxSize config) (miner.MaxDABlockSize config), None) /\
  (extra <> [] -> Z.of_nat (length extra) <= MaximumExtraDataSize -> prepared = extra) /\
  (MaximumExtraDataSize < Z.of_nat (length extra) -> prepared = []).
Proof.
  intros Hmax prepared.
  assert (Hlen : Z.of_nat (length prepared) <= MaximumExtraDataSize).
  { unfold prepared, eth.makeExtraData. cbv zeta.
    destruct (MaximumExtraDataSize <? _) eqn:Hover; [simpl; lia|].
    apply Z.ltb_ge in Hover. exact Hover. }
  split; [exact Hlen|]. split; [|split].
  - unfold miner.SetExtra. rewrite (proj2 (Z.ltb_ge _ _) Hlen). reflexivity.
  - intros Hextra Hfits. unfold prepared, eth.makeExtraData. cbv zeta.
    destruct extra as [|b extra]; [contradiction|]. simpl Nat.eqb. cbv iota.
    rewrite (proj2 (Z.ltb_ge _ _) Hfits). reflexivity.
  - intros Hover. unfold prepared, eth.makeExtraData. cbv zeta.
    destruct extra as [|b extra]; [simpl in Hover; lia|]. simpl Nat.eqb. cbv iota.
    rewrite (proj2 (Z.ltb_lt _ _) Hover). reflexivity.
Qed.

(** X30.  The miner keeps no data-availability limit of zero: after
    [SetMaxDASize] each of the two limits is unset or not zero, and it is
    unset exactly when it was given as nil or as zero. *)
Theorem SetMaxDASize_normalises (config : miner.Config) (maxTxSize maxBlockSize : option Z) :
  let config' := miner.SetMaxDASize config maxTxSize maxBlockSize in
  miner.MaxDATxSize config' <> Some 0 /\
  miner.MaxDABlockSize config' <> Some 0 /\
  (miner.MaxDATxSize config' = None <-> maxTxSize = None \/ maxTxSize = Some 0) /\
  (miner.MaxDABlockSize config' = None <-> maxBlockSize = None \/ maxBlockSize = Some 0) /\
  (forall size : Z, miner.MaxDATxSize config' = Some size -> maxTxSize = Some size) /\
  (forall size : Z, miner.MaxDABlockSize config' = Some size -> maxBlockSize = Some size) /\
  miner.ExtraData config' = miner.ExtraData config /\
  miner.GasCeil config' = miner.GasCeil config /\
  miner.GasPrice config' = miner.GasPrice config.
Proof.
  assert (Hnorm : forall x : option Z,
            let y := match x with
                     | Some size => if BitLen size =? 0 then None else Some size
                     | None => None
                     end in
            y <> Some 0 /\ (y = None <-> x = None \/ x = Some 0) /\
            forall size : Z, y = Some size -> x = Some size).
  { intros [size|]; cbv zeta.
    - rewrite BitLen_eqb_0. destruct (Z.eqb_spec size 0) as [->|Hne].
      + split; [discriminate|]. split; [split; [right; reflexivity | reflexivity]|].
        discriminate.
      + split; [congruence|]. split; [|intros s H; exact H].
        split; [discriminate|]. intros [H|H]; congruence.
    - split; [discriminate|]. split; [split; [left; reflexivity | reflexivity]|].
      discriminate. }
  cbv zeta. unfold miner.SetMaxDASize. simpl.
  destruct (Hnorm maxTxSize) as (T1 & T2 & T3).
  destruct (Hnorm maxBlockSize) as (B1 & B2 & B3).
  repeat split; try assumption; try (apply T2); try (apply B2).
Qed.

End ExtraDataProperties.

(** X28 on a fork moved from time 100 to time 200 under a head at 150:
    the target is 99, before the head, and there the schedules agree. *)
Lemma compat_error_rewinds_witness :
  params.isForkTimestampIncompatible (Some 100) (Some 200) 150 None = true /\
  params.RewindToTime (params.newTimestampCompatError "Shanghai fork timestamp"
                         (Some 100) (Some 200)) = 99 /\
  params.isForkTimestampIncompatible (Some 100) (Some 200) 99 None = false.
Proof.
  assert (Hrange : forall s : Z, Some 100 = Some s \/ Some 200 = Some s -> 0 <= s < 2 ^ 64)
    by (intros s [[= <-]|[= <-]]; lia).
  assert (Hhead : 0 <= 150) by lia.
  split; [reflexivity|]. split; [reflexivity|].
  destruct (compat_error_rewinds "Shanghai fork timestamp" (Some 100) (Some 200) 150 None
              Hrange Hhead) as [Htime _].
  destruct (Htime eq_refl) as (_ & _ & Hundo).
  exact (proj2 (Hundo ltac:(discriminate) ltac:(discriminate))).
Defined.

(** X29 with a maximum of 4 bytes: extra data of 5 bytes is dropped, and
    the miner takes the empty extra data. *)
Lemma prepared_extra_data_accepted_witness :
  0 <= 4 /\
  eth.makeExtraData 4 [7; 7]%N [1; 2; 3; 4; 5]%N = [] /\
  (miner.SetExtra 4 (miner.mkMinerConfig [9%N] 30000000 None None None)
     (eth.makeExtraData 4 [7; 7]%N [1; 2; 3; 4; 5]%N)).2 = None.
Proof.
  assert (Hmax : 0 <= 4) by lia.
  split; [exact Hmax|]. split; [reflexivity|].
  destruct (prepared_extra_data_accepted 4 [7; 7]%N
              (miner.mkMinerConfig [9%N] 30000000 None None None)
              [1; 2; 3; 4; 5]%N Hmax) as (_ & Hset & _).
  rewrite Hset. reflexivity.
Defined.

(** X26 on the identifier of the small example: its data decodes to
    it. *)
Lemma DecodeEvent_round_trip_witness :
  identifierInRange simIdentifier /\
  interoptypes.DecodeEvent 7 interoptypes.zeroMessage [7; 9]%N (eventData simIdentifier)
    = (interoptypes.mkMessage simIdentifier 9, None).
Proof.
  assert (Hrange : identifierInRange simIdentifier).
  { unfold identifierInRange, simIdentifier. simpl.
    split; [reflexivity|]. split; [repeat constructor|]. lia. }
  split; [exact Hrange|].
  exact (proj1 (DecodeEvent_round_trip 7 interoptypes.zeroMessage)
           simIdentifier 9%N Hrange).
Defined.

(** X27 on the two logs of the small example: the log of the other
    contract is passed over, though its data is no event data, and the
    event of the inbox gives the one message. *)
Lemma ExecutingMessagesFromLogs_spec_witness :
  interoptypes.ExecutingMessagesFromLogs 7 [66%N] simLogs
    = inl [interoptypes.mkMessage simIdentifier 9].
Proof.
  apply (proj1 (ExecutingMessagesFromLogs_spec 7 [66%N] simLogs)).
  assert (Hfilter : filter (inboxEvent 7 [66%N]) simLogs
                    = [interoptypes.mkLog [66%N] [7; 9]%N (eventData simIdentifier)])
    by (vm_compute; reflexivity).
  rewrite Hfilter. constructor; [|constructor]. vm_compute. reflexivity.
Defined.
